(** * SmartSchedulerPOC: entity merge, validators and slot computation

    A shallow embedding of the clinic chatbot's validation utilities
    ([utils/validators.py]), entity model ([models/entities.py]),
    conversation manager ([models/conversation.py]), entity extractor
    ([services/entity_extractor.py]), the uniform-slot availability
    computation ([calender-integration/calendar_avalibility.py]), the answers
    of the language model service ([services/llm_service.py]) and the
    per-doctor slots of the calendar service
    ([services/calender_service.py]), with the properties stated about
    them.

    Python text is a sequence of Unicode code points; the regular
    expressions of the source are compiled for text, so [\d] and [\s] are
    the Unicode classes.  JSON values coming from the extraction service are
    null, booleans, integers, strings, arrays and objects; numbers with a
    fraction are not part of the model. *)

From Stdlib Require Import ZArith NArith List Bool Lia String Ascii Sorted.
From stdpp Require Import base decidable option list numbers gmap.

Local Open Scope N_scope.

(** ** Python text *)

Module Py.

(** A code point, and Python's [str]. *)
Definition cp := N.
Definition str := list cp.

(** An ASCII literal of the source as code points. *)
Definition lit (s : string) : str := map N_of_ascii (list_ascii_of_string s).

Definition in_range (lo hi c : cp) : bool := (lo <=? c) && (c <=? hi).

Definition cp_eqb (a b : cp) : bool := N.eqb a b.

Arguments in_range : simpl never.
Arguments cp_eqb : simpl never.

Fixpoint str_eqb (s t : str) : bool :=
  match s, t with
  | [], [] => true
  | a :: s', b :: t' => cp_eqb a b && str_eqb s' t'
  | _, _ => false
  end.

(** [\s], [str.strip] and [str.isspace]: the white space of Unicode 14. *)
Definition space_table : list cp :=
  [0x9; 0xa; 0xb; 0xc; 0xd; 0x1c; 0x1d; 0x1e; 0x1f; 0x20; 0x85; 0xa0; 0x1680;
   0x2000; 0x2001; 0x2002; 0x2003; 0x2004; 0x2005; 0x2006; 0x2007; 0x2008;
   0x2009; 0x200a; 0x2028; 0x2029; 0x202f; 0x205f; 0x3000].

Definition is_space (c : cp) : bool := existsb (cp_eqb c) space_table.

(** [\d]: category Nd of Unicode 14.  Every entry starts a run of ten code
    points that stand for the digits 0 to 9 in order (the mathematical
    digits U+1D7CE..U+1D7FF are five such runs). *)
Definition decimal_bases : list cp :=
  [0x30; 0x660; 0x6f0; 0x7c0; 0x966; 0x9e6; 0xa66; 0xae6; 0xb66; 0xbe6; 0xc66;
   0xce6; 0xd66; 0xde6; 0xe50; 0xed0; 0xf20; 0x1040; 0x1090; 0x17e0; 0x1810;
   0x1946; 0x19d0; 0x1a80; 0x1a90; 0x1b50; 0x1bb0; 0x1c40; 0x1c50; 0xa620;
   0xa8d0; 0xa900; 0xa9d0; 0xa9f0; 0xaa50; 0xabf0; 0xff10; 0x104a0; 0x10d30;
   0x11066; 0x110f0; 0x11136; 0x111d0; 0x112f0; 0x11450; 0x114d0; 0x11650;
   0x116c0; 0x11730; 0x118e0; 0x11950; 0x11c50; 0x11d50; 0x11da0; 0x16a60;
   0x16ac0; 0x16b50; 0x1d7ce; 0x1d7d8; 0x1d7e2; 0x1d7ec; 0x1d7f6; 0x1e140;
   0x1e2f0; 0x1e950; 0x1fbf0].

Definition digit_value (c : cp) : option N :=
  match find (fun b => in_range b (b + 9) c) decimal_bases with
  | Some b => Some (c - b)
  | None => None
  end.

Definition is_digit (c : cp) : bool :=
  match digit_value c with Some _ => true | None => false end.

(** [[0-9]], [[A-Za-z]] and friends: the ASCII classes written out in the
    patterns. *)
Definition is_ascii_digit (c : cp) : bool := in_range 0x30 0x39 c.
Definition is_ascii_upper (c : cp) : bool := in_range 0x41 0x5a c.
Definition is_ascii_lower (c : cp) : bool := in_range 0x61 0x7a c.
Definition is_ascii_alpha (c : cp) : bool := is_ascii_upper c || is_ascii_lower c.
Definition is_ascii_alnum (c : cp) : bool := is_ascii_alpha c || is_ascii_digit c.

(** [str.lower].  The ASCII letters are lowered, as are the two other code
    points whose lower case contains an ASCII letter (U+0130 and the Kelvin
    sign U+212A).  The remaining cased letters of Unicode are left as they
    are: no test of the source depends on them, only the text that an
    unrecognised date or time slot is echoed as. *)
Definition lower_cp (c : cp) : list cp :=
  if is_ascii_upper c then [c + 0x20]
  else if cp_eqb c 0x130 then [0x69; 0x307]
  else if cp_eqb c 0x212a then [0x6b]
  else [c].

Definition lower (s : str) : str := flat_map lower_cp s.

(** [str.upper] on the text the policy pattern admits (ASCII letters and
    digits, a final line feed at most): only the ASCII letters change. *)
Definition upper_cp (c : cp) : cp := if is_ascii_lower c then c - 0x20 else c.
Definition upper (s : str) : str := map upper_cp s.

(** [str.lstrip], [str.rstrip] and [str.strip] for a class of code points. *)
Fixpoint lstrip_by (P : cp -> bool) (s : str) : str :=
  match s with
  | c :: s' => if P c then lstrip_by P s' else s
  | [] => []
  end.

Definition strip_by (P : cp -> bool) (s : str) : str :=
  rev (lstrip_by P (rev (lstrip_by P s))).

(** [str.strip()] *)
Definition strip (s : str) : str := strip_by is_space s.

(** The longest prefix made of code points of a class, and what follows it:
    what a greedy [[...]*] consumes. *)
Fixpoint span (P : cp -> bool) (s : str) : str * str :=
  match s with
  | c :: s' => if P c then let '(a, b) := span P s' in (c :: a, b) else ([], s)
  | [] => ([], [])
  end.

(** [s.startswith(p)], returning what follows the prefix. *)
Fixpoint strip_prefix (p s : str) : option str :=
  match p, s with
  | [], _ => Some s
  | a :: p', b :: s' => if cp_eqb a b then strip_prefix p' s' else None
  | _ :: _, [] => None
  end.

Definition startswith (p s : str) : bool :=
  match strip_prefix p s with Some _ => true | None => false end.

(** [needle in hay] on text. *)
Fixpoint contains (needle hay : str) : bool :=
  startswith needle hay ||
  match hay with
  | [] => false
  | _ :: hay' => contains needle hay'
  end.

(** The anchor [$] of a pattern without flags: the end of the text, or the
    position before a line feed that ends the text. *)
Definition at_end (rest : str) : bool :=
  match rest with
  | [] => true
  | [c] => cp_eqb c 0xa
  | _ => false
  end.

(** [s.split(sep)] for a separator that is not empty, read from the left:
    [skip] characters of the separator just found are still to be passed,
    [cur] is the part being read, in reverse. *)
Fixpoint split_from (sep : str) (skip : nat) (cur : str) (s : str) : list str :=
  match s with
  | [] => [rev cur]
  | c :: s' =>
      match skip with
      | S skip' => split_from sep skip' cur s'
      | O =>
          if startswith sep s then rev cur :: split_from sep (length sep - 1) [] s'
          else split_from sep 0 (c :: cur) s'
      end
  end.

Definition split (sep s : str) : list str := split_from sep 0 [] s.

(** [s.replace(old, new)] for an [old] that is not empty. *)
Fixpoint replace_from (old new : str) (skip : nat) (s : str) : str :=
  match s with
  | [] => []
  | c :: s' =>
      match skip with
      | S skip' => replace_from old new skip' s'
      | O =>
          if startswith old s then new ++ replace_from old new (length old - 1) s'
          else c :: replace_from old new 0 s'
      end
  end.

Definition replace (old new s : str) : str := replace_from old new 0 s.

(** *** Exceptions and results *)

Inductive exn := TypeError | AttributeError | ValueError | OverflowError.

Inductive result (A : Type) :=
  | Ok (a : A)
  | Raise (e : exn).
Arguments Ok {A} a.
Arguments Raise {A} e.

Definition bind {A B} (m : result A) (f : A -> result B) : result B :=
  match m with
  | Ok a => f a
  | Raise e => Raise e
  end.

Declare Scope result_scope.
Delimit Scope result_scope with result.
Bind Scope result_scope with result.
Notation "x <- m ;; k" := (bind m (fun x => k))
  (at level 20, m at level 99, k at level 200) : result_scope.
Notation "' pat <- m ;; k" := (bind m (fun x => match x with pat => k end))
  (at level 20, pat pattern, m at level 99, k at level 200) : result_scope.
Open Scope result_scope.

(** A [for] loop whose body may raise, over a state that is rebuilt: the
    exception discards the state. *)
Fixpoint for_each {S A} (body : S -> A -> result S) (s : S) (items : list A)
    : result S :=
  match items with
  | [] => Ok s
  | x :: items' => s' <- body s x ;; for_each body s' items'
  end.

(** A [for] loop whose body changes an object in place: when it raises, the
    changes made so far stay. *)
Fixpoint for_each_in_place {S A} (body : S -> A -> S * option exn) (s : S)
    (items : list A) : S * option exn :=
  match items with
  | [] => (s, None)
  | x :: items' =>
      match body s x with
      | (s', None) => for_each_in_place body s' items'
      | (s', Some e) => (s', Some e)
      end
  end.

(** *** Values *)

(** What [json.loads] builds, numbers with a fraction left out. *)
#[warnings="-register-all"]
Inductive value :=
  | VNone
  | VBool (b : bool)
  | VInt (z : Z)
  | VStr (s : str)
  | VList (l : list value)
  | VDict (d : list (str * value)).

(** A [dict] with text keys, in insertion order. *)
Abbreviation dict := (list (str * value)).

(** [bool(v)] *)
Definition truthy (v : value) : bool :=
  match v with
  | VNone => false
  | VBool b => b
  | VInt z => negb (z =? 0)%Z
  | VStr s => match s with [] => false | _ => true end
  | VList l => match l with [] => false | _ => true end
  | VDict d => match d with [] => false | _ => true end
  end.

(** [d.get(k)] *)
Fixpoint dict_get (k : str) (d : dict) : value :=
  match d with
  | [] => VNone
  | (k', v) :: d' => if str_eqb k k' then v else dict_get k d'
  end.

(** [d[k] = v] *)
Fixpoint dict_set (k : str) (v : value) (d : dict) : dict :=
  match d with
  | [] => [(k, v)]
  | (k', v') :: d' =>
      if str_eqb k k' then (k', v) :: d' else (k', v') :: dict_set k v d'
  end.

(** [d.get(k, default)] *)
Fixpoint dict_get_or (k : str) (default : value) (d : dict) : value :=
  match d with
  | [] => default
  | (k', v) :: d' => if str_eqb k k' then v else dict_get_or k default d'
  end.

(** *** Numbers as text *)

Fixpoint uint_str (u : Decimal.uint) : str :=
  match u with
  | Decimal.Nil => []
  | Decimal.D0 u => 0x30 :: uint_str u
  | Decimal.D1 u => 0x31 :: uint_str u
  | Decimal.D2 u => 0x32 :: uint_str u
  | Decimal.D3 u => 0x33 :: uint_str u
  | Decimal.D4 u => 0x34 :: uint_str u
  | Decimal.D5 u => 0x35 :: uint_str u
  | Decimal.D6 u => 0x36 :: uint_str u
  | Decimal.D7 u => 0x37 :: uint_str u
  | Decimal.D8 u => 0x38 :: uint_str u
  | Decimal.D9 u => 0x39 :: uint_str u
  end.

(** [str(n)] for a natural number. *)
Definition N_str (n : N) : str := uint_str (N.to_uint n).

(** [str(z)] for an [int]. *)
Definition Z_str (z : Z) : str :=
  match z with
  | Zneg p => 0x2d :: N_str (Npos p)
  | _ => N_str (Z.to_N z)
  end.

(** [f"{n:02d}"] for a natural number. *)
Definition fmt02 (n : N) : str :=
  if n <? 10 then 0x30 :: N_str n else N_str n.

Definition COLON_SPACE : str := Eval cbv in lit ": ".
Definition NONE_TEXT : str := Eval cbv in lit "None".
Definition TRUE_TEXT : str := Eval cbv in lit "True".
Definition FALSE_TEXT : str := Eval cbv in lit "False".

(** [str(v)] for the values that are not containers.  The text of a list or
    of a dict is its [repr], which starts with a bracket or a brace; it is
    not rendered here. *)
Definition py_str (v : value) : option str :=
  match v with
  | VNone => Some NONE_TEXT
  | VBool true => Some TRUE_TEXT
  | VBool false => Some FALSE_TEXT
  | VInt z => Some (Z_str z)
  | VStr s => Some s
  | VList _ | VDict _ => None
  end.

(** The white space [int()] skips around a number: of the ASCII range the
    six characters of C, beyond it the Unicode white space. *)
Definition is_int_space (c : cp) : bool :=
  is_space c && negb (in_range 0x1c 0x1f c).

(** The digits of [int(text)]: decimal digits of any script, single
    underscores between digits. *)
Fixpoint parse_digits (s : str) (acc : N) (after_digit : bool) : option N :=
  match s with
  | [] => if after_digit then Some acc else None
  | c :: s' =>
      match digit_value c with
      | Some d => parse_digits s' (10 * acc + d) true
      | None =>
          if cp_eqb c 0x5f && after_digit then
            match s' with
            | c2 :: _ => if is_digit c2 then parse_digits s' acc false else None
            | [] => None
            end
          else None
      end
  end.

(** [int(text)] in base ten, [None] where Python raises [ValueError].  (The
    interpreter's limit on the number of digits is a setting and is not
    modelled.) *)
Definition parse_int (s : str) : option Z :=
  match strip_by is_int_space s with
  | c :: s' =>
      if cp_eqb c 0x2b then Z.of_N <$> parse_digits s' 0 false
      else if cp_eqb c 0x2d then (fun n => (- Z.of_N n)%Z) <$> parse_digits s' 0 false
      else Z.of_N <$> parse_digits (c :: s') 0 false
  | [] => None
  end.

(** [int(v)]; [None] stands for the [ValueError] that the caller catches. *)
Definition py_int (v : value) : result (option Z) :=
  match v with
  | VInt z => Ok (Some z)
  | VBool b => Ok (Some (if b then 1 else 0)%Z)
  | VStr s => Ok (parse_int s)
  | VNone | VList _ | VDict _ => Raise TypeError
  end.

(** [len(v)] *)
Definition py_len (v : value) : result nat :=
  match v with
  | VStr s => Ok (length s)
  | VList l => Ok (length l)
  | VDict d => Ok (length d)
  | VNone | VBool _ | VInt _ => Raise TypeError
  end.

(** *** Calendar dates *)

Record cal_date := Date { year : N; month : N; day : N }.

Definition is_leap (y : N) : bool :=
  ((y mod 4 =? 0) && negb (y mod 100 =? 0)) || (y mod 400 =? 0).

Definition days_in_month (y m : N) : N :=
  if m =? 2 then (if is_leap y then 29 else 28)
  else if (m =? 4) || (m =? 6) || (m =? 9) || (m =? 11) then 30
  else 31.

(** [d + timedelta(days=1)]; [datetime] ends with the year 9999. *)
Definition next_day (d : cal_date) : result cal_date :=
  if day d <? days_in_month (year d) (month d) then
    Ok (Date (year d) (month d) (day d + 1))
  else if month d <? 12 then Ok (Date (year d) (month d + 1) 1)
  else if year d <? 9999 then Ok (Date (year d + 1) 1 1)
  else Raise OverflowError.

Fixpoint add_days (n : nat) (d : cal_date) : result cal_date :=
  match n with
  | O => Ok d
  | S n' => d' <- next_day d ;; add_days n' d'
  end.

(** [d.strftime("%Y-%m-%d")], the year as the C library prints it: four
    digits from the year 1000 on. *)
Definition strftime_ymd (d : cal_date) : str :=
  N_str (year d) ++ [0x2d] ++ fmt02 (month d) ++ [0x2d] ++ fmt02 (day d).

End Py.

Import Py.

(** ** utils/validators.py *)

Module validators.

Definition MSG_PHONE_EMPTY : str := Eval cbv in lit "Phone number cannot be empty".
Definition MSG_PHONE_INVALID : str :=
  Eval cbv in lit "Please provide a valid Hong Kong phone number.".

(** [re.sub(r'[\s\-]', '', phone)] *)
Definition remove_spaces_dashes (phone : str) : str :=
  List.filter (fun c => negb (is_space c || cp_eqb c 0x2d)) phone.

(** [re.sub(r'^(\+852|852)', '', clean_phone)]: the anchored pattern can
    match at the start only, the first alternative first. *)
Definition CC_PLUS_852 : str := Eval cbv in lit "+852".
Definition CC_852 : str := Eval cbv in lit "852".

Definition remove_country_code (clean_phone : str) : str :=
  match strip_prefix CC_PLUS_852 clean_phone with
  | Some rest => rest
  | None =>
      match strip_prefix CC_852 clean_phone with
      | Some rest => rest
      | None => clean_phone
      end
  end.

(** [re.match(r'^[2-9]\d{7}$', s)] *)
Definition match_hk_phone (s : str) : bool :=
  match s with
  | c :: rest =>
      in_range 0x32 0x39 c &&
      forallb is_digit (take 7 rest) && (length (take 7 rest) =? 7)%nat &&
      at_end (drop 7 rest)
  | [] => false
  end.

Definition validate_phone_number (phone : str) : bool * str :=
  match phone with
  | [] => (false, MSG_PHONE_EMPTY)
  | _ =>
      let clean_phone := remove_spaces_dashes phone in
      let clean_phone := remove_country_code clean_phone in
      if match_hk_phone clean_phone then (true, clean_phone)
      else (false, MSG_PHONE_INVALID)
  end.

(** *** Policy number *)

Definition MSG_POLICY_EMPTY : str := Eval cbv in lit "Policy number cannot be empty".
Definition MSG_POLICY_INVALID : str :=
  Eval cbv in lit "Policy number format is incorrect, please check and re-enter".

(** [re.match(r'^[A-Za-z0-9]{6,20}$', s)]: the greedy run takes up to twenty
    letters and digits; giving some back cannot help, since the anchor does
    not match before a letter or a digit. *)
Definition match_policy (s : str) : bool :=
  let n := Nat.min 20 (length (span is_ascii_alnum s).1) in
  (6 <=? n)%nat && at_end (drop n s).

Definition validate_policy_number (policy : str) : bool * str :=
  match policy with
  | [] => (false, MSG_POLICY_EMPTY)
  | _ =>
      if match_policy policy then (true, upper policy)
      else (false, MSG_POLICY_INVALID)
  end.

(** *** Appointment type *)

Definition MSG_TYPE_EMPTY : str := Eval cbv in lit "Appointment type cannot be empty".

(** 普通科, 内科, 外科, 儿科, 妇产科, 眼科, 耳鼻喉科, 口腔科, 皮肤科, 骨科, 泌尿科,
    心血管科, 呼吸科, 消化科, 内分泌科, 肿瘤科, 精神科, 康复科, 中医科, 疼痛科, 麻醉科,
    营养科, 检验科, 影像科 *)
Definition get_clinic_appointment_types : list str :=
  [ [0x666e; 0x901a; 0x79d1]; [0x5185; 0x79d1]; [0x5916; 0x79d1];
    [0x513f; 0x79d1]; [0x5987; 0x4ea7; 0x79d1]; [0x773c; 0x79d1];
    [0x8033; 0x9f3b; 0x5589; 0x79d1]; [0x53e3; 0x8154; 0x79d1];
    [0x76ae; 0x80a4; 0x79d1]; [0x9aa8; 0x79d1]; [0x6ccc; 0x5c3f; 0x79d1];
    [0x5fc3; 0x8840; 0x7ba1; 0x79d1]; [0x547c; 0x5438; 0x79d1];
    [0x6d88; 0x5316; 0x79d1]; [0x5185; 0x5206; 0x6ccc; 0x79d1];
    [0x80bf; 0x7624; 0x79d1]; [0x7cbe; 0x795e; 0x79d1]; [0x5eb7; 0x590d; 0x79d1];
    [0x4e2d; 0x533b; 0x79d1]; [0x75bc; 0x75db; 0x79d1]; [0x9ebb; 0x9189; 0x79d1];
    [0x8425; 0x517b; 0x79d1]; [0x68c0; 0x9a8c; 0x79d1]; [0x5f71; 0x50cf; 0x79d1] ].

(** The argument arrives as the extraction service gave it: [apt_type.lower()]
    raises for anything but text. *)
Definition validate_appointment_type
    (apt_type : value) (valid_types : option (list str)) : result (bool * str) :=
  if negb (truthy apt_type) then Ok (false, MSG_TYPE_EMPTY)
  else
    let valid_types :=
      match valid_types with
      | Some l => l
      | None => get_clinic_appointment_types
      end in
    match apt_type with
    | VStr apt_type =>
        match find (fun valid_type =>
                      contains valid_type apt_type || contains apt_type valid_type)
                   valid_types with
        | Some valid_type => Ok (true, valid_type)
        | None => Ok (true, apt_type)
        end
    | _ => Raise AttributeError
    end.

(** *** Names *)

(** [re.match(r'^[...]+$', s)] for a class of code points: the greedy run,
    then the anchor. *)
Definition match_plus (P : cp -> bool) (s : str) : bool :=
  let '(run, rest) := span P s in
  match run with
  | [] => false
  | _ => at_end rest
  end.

Definition is_han (c : cp) : bool := in_range 0x4e00 0x9fa5 c.
Definition is_ascii_alpha_or_space (c : cp) : bool := is_ascii_alpha c || is_space c.

(** [len(name)] raises for a number, and [re.match] for a list or a dict
    that passed the length test. *)
Definition is_valid_chinese_name (name : value) : result bool :=
  if negb (truthy name) then Ok false
  else
    n <- py_len name ;;
    if (n <? 2)%nat || (10 <? n)%nat then Ok false
    else
      match name with
      | VStr name => Ok (match_plus is_han name || match_plus is_ascii_alpha_or_space name)
      | _ => Raise TypeError
      end.

(** *** Dates *)

(** 今天, 今日, 明天, 明日, 后天, 下周, 月, 日 *)
Definition TODAY_1 : str := [0x4eca; 0x5929].
Definition TODAY_2 : str := [0x4eca; 0x65e5].
Definition TOMORROW_1 : str := [0x660e; 0x5929].
Definition TOMORROW_2 : str := [0x660e; 0x65e5].
Definition DAY_AFTER : str := [0x540e; 0x5929].
Definition NEXT_WEEK : str := [0x4e0b; 0x5468].
Definition MONTH_SIGN : cp := 0x6708.
Definition DAY_SIGN : cp := 0x65e5.

(** [(\d{1,2})] followed by a given code point: two digits are tried first,
    then one. *)
Definition digits12_then (sep : cp) (t : str) : option (str * str) :=
  match t with
  | a :: b :: c :: rest =>
      if is_digit a && is_digit b && cp_eqb c sep then Some ([a; b], rest)
      else if is_digit a && cp_eqb b sep then Some ([a], c :: rest)
      else None
  | [a; b] => if is_digit a && cp_eqb b sep then Some ([a], []) else None
  | _ => None
  end.

(** [(\d{1,2})] at the end of a pattern: two digits if there are two. *)
Definition digits12 (t : str) : option str :=
  match t with
  | a :: b :: _ => if is_digit a then Some (if is_digit b then [a; b] else [a]) else None
  | [a] => if is_digit a then Some [a] else None
  | [] => None
  end.

(** [(\d{4})-(\d{1,2})-(\d{1,2})] at the start of [t]. *)
Definition match_ymd_here (t : str) : option (str * str * str) :=
  match t with
  | y1 :: y2 :: y3 :: y4 :: dash :: t' =>
      if forallb is_digit [y1; y2; y3; y4] && cp_eqb dash 0x2d then
        '(m, t'') ← digits12_then 0x2d t';
        d ← digits12 t'';
        Some ([y1; y2; y3; y4], m, d)
      else None
  | _ => None
  end.

(** [(\d{1,2})<sep>(\d{1,2})<end>] at the start of [t], for the patterns
    [(\d{1,2})月(\d{1,2})日] and [(\d{1,2})/(\d{1,2})]. *)
Definition match_md_here (sep : cp) (fin : option cp) (t : str) : option (str * str) :=
  '(m, t') ← digits12_then sep t;
  match fin with
  | Some e => '(d, _) ← digits12_then e t'; Some (m, d)
  | None => d ← digits12 t'; Some (m, d)
  end.

(** [re.search]: the match that starts leftmost. *)
Fixpoint search {A} (here : str -> option A) (s : str) : option A :=
  match here s with
  | Some r => Some r
  | None =>
      match s with
      | [] => None
      | _ :: s' => search here s'
      end
  end.

(** [int(group)] for a group of one or two digits. *)
Definition group_int (g : str) : N :=
  match parse_digits g 0 false with Some n => n | None => 0 end.

(** [today] is what [datetime.now()] gives when the expression is
    normalised. *)
Definition normalize_date_expression (today : cal_date) (date_expr : value)
    : result (option str) :=
  if negb (truthy date_expr) then Ok None
  else
    match date_expr with
    | VStr date_expr =>
        let date_expr := strip (lower date_expr) in
        if contains TODAY_1 date_expr || contains TODAY_2 date_expr then
          Ok (Some (strftime_ymd today))
        else if contains TOMORROW_1 date_expr || contains TOMORROW_2 date_expr then
          tomorrow <- add_days 1 today ;; Ok (Some (strftime_ymd tomorrow))
        else if contains DAY_AFTER date_expr then
          day_after <- add_days 2 today ;; Ok (Some (strftime_ymd day_after))
        else if contains NEXT_WEEK date_expr then
          next_week <- add_days 7 today ;; Ok (Some (strftime_ymd next_week))
        else
          match search match_ymd_here date_expr with
          | Some (y, m, d) =>
              Ok (Some (y ++ [0x2d] ++ fmt02 (group_int m) ++ [0x2d] ++ fmt02 (group_int d)))
          | None =>
              match search (match_md_here MONTH_SIGN (Some DAY_SIGN)) date_expr with
              | Some (m, d) =>
                  Ok (Some (N_str (year today) ++ [0x2d] ++ fmt02 (group_int m)
                            ++ [0x2d] ++ fmt02 (group_int d)))
              | None =>
                  match search (match_md_here 0x2f None) date_expr with
                  | Some (m, d) =>
                      Ok (Some (N_str (year today) ++ [0x2d] ++ fmt02 (group_int m)
                                ++ [0x2d] ++ fmt02 (group_int d)))
                  | None => Ok (Some date_expr)
                  end
              end
          end
    | _ => Raise AttributeError
    end.

(** *** Time of day *)

(** 上午, 下午, 晚上 *)
Definition MORNING : str := [0x4e0a; 0x5348].
Definition AFTERNOON : str := [0x4e0b; 0x5348].
Definition EVENING : str := [0x665a; 0x4e0a].

(** [time_mappings], in the order of the literal: 早上, 早晨, 上午, 中午, 下午,
    晚上, 夜间. *)
Definition time_mappings : list (str * str) :=
  [ ([0x65e9; 0x4e0a], MORNING); ([0x65e9; 0x6668], MORNING); (MORNING, MORNING);
    ([0x4e2d; 0x5348], AFTERNOON); (AFTERNOON, AFTERNOON);
    (EVENING, EVENING); ([0x591c; 0x95f4], EVENING) ].

Definition MORNING_HOURS : list str := Eval cbv in [lit "9"; lit "10"; lit "11"].
Definition AFTERNOON_HOURS : list str :=
  Eval cbv in [lit "14"; lit "15"; lit "16"; lit "17"].
Definition EVENING_HOURS : list str := Eval cbv in [lit "18"; lit "19"; lit "20"].

Definition any_in (xs : list str) (s : str) : bool :=
  existsb (fun x => contains x s) xs.

Definition normalize_time_slot (time_slot : value) : result (option str) :=
  if negb (truthy time_slot) then Ok None
  else
    match time_slot with
    | VStr time_slot =>
        let time_slot := strip (lower time_slot) in
        match find (fun kv => contains kv.1 time_slot) time_mappings with
        | Some (_, v) => Ok (Some v)
        | None =>
            if any_in MORNING_HOURS time_slot then Ok (Some MORNING)
            else if any_in AFTERNOON_HOURS time_slot then Ok (Some AFTERNOON)
            else if any_in EVENING_HOURS time_slot then Ok (Some EVENING)
            else Ok (Some time_slot)
        end
    | _ => Raise AttributeError
    end.

(** *** Age and gender *)

Definition MSG_AGE_LESS : str := Eval cbv in lit "Age cannot be less than ".
Definition MSG_AGE_GREATER : str := Eval cbv in lit "Age cannot be greater than ".
Definition MSG_YEARS : str := Eval cbv in lit " years".

Definition validate_age_range (age min_age max_age : Z) : bool * str :=
  if (age <? min_age)%Z then (false, MSG_AGE_LESS ++ Z_str min_age ++ MSG_YEARS)
  else if (max_age <? age)%Z then (false, MSG_AGE_GREATER ++ Z_str max_age ++ MSG_YEARS)
  else (true, []).

(** 男, 女, 其他 *)
Definition MALE : str := [0x7537].
Definition FEMALE : str := [0x5973].
Definition OTHER : str := [0x5176; 0x4ed6].
Definition valid_genders : list str := [MALE; FEMALE; OTHER].
Definition MALE_WORDS : list str := Eval cbv in [lit "male"; lit "m"].
Definition FEMALE_WORDS : list str := Eval cbv in [lit "female"; lit "f"].

(** "Valid options are: 男、女、其他" *)
Definition MSG_GENDER : str :=
  Eval cbv in lit "Valid options are: " ++ MALE ++ [0x3001] ++ FEMALE ++ [0x3001] ++ OTHER.

Definition validate_gender (gender : value) : result (bool * str) :=
  if negb (truthy gender) then Ok (true, [])
  else
    match gender with
    | VStr gender =>
        if existsb (str_eqb gender) valid_genders then Ok (true, gender)
        else if existsb (str_eqb (lower gender)) MALE_WORDS then Ok (true, MALE)
        else if existsb (str_eqb (lower gender)) FEMALE_WORDS then Ok (true, FEMALE)
        else Ok (false, MSG_GENDER)
    | _ => Raise AttributeError
    end.

(** *** Composite validators *)

Definition K_name : str := Eval cbv in lit "name".
Definition K_age : str := Eval cbv in lit "age".
Definition K_gender : str := Eval cbv in lit "gender".
Definition K_date : str := Eval cbv in lit "date".
Definition K_time_slot : str := Eval cbv in lit "time_slot".

Definition MSG_NAME : str := Eval cbv in lit "Name format is incorrect".
Definition MSG_AGE_NUMBER : str := Eval cbv in lit "Age must be a number".
Definition MSG_DATE : str :=
  Eval cbv in lit "Date format cannot be recognized, please provide a specific date".

(** The dict is changed in place by the source; here it is returned next to
    [(len(errors) == 0, errors)]. *)
Definition validate_patient_info (patient_info : dict)
    : result (bool * list str * dict) :=
  let errors : list str := [] in
  let name := dict_get K_name patient_info in
  errors <-
    (if truthy name then
       ok <- is_valid_chinese_name name ;;
       Ok (if ok then errors else errors ++ [MSG_NAME])
     else Ok errors) ;;
  let age := dict_get K_age patient_info in
  errors <-
    match age with
    | VNone => Ok errors
    | _ =>
        age_int <- py_int age ;;
        match age_int with
        | Some age_int =>
            let '(is_valid, error_msg) := validate_age_range age_int 0 150 in
            Ok (if is_valid then errors else errors ++ [error_msg])
        | None => Ok (errors ++ [MSG_AGE_NUMBER])
        end
    end ;;
  let gender := dict_get K_gender patient_info in
  '(errors, patient_info) <-
    (if truthy gender then
       '(is_valid, normalized_gender) <- validate_gender gender ;;
       if is_valid then Ok (errors, dict_set K_gender (VStr normalized_gender) patient_info)
       else Ok (errors ++ [normalized_gender], patient_info)
     else Ok (errors, patient_info)) ;;
  Ok (match errors with [] => true | _ => false end, errors, patient_info).

(** [Optional[str]] back into a value. *)
Definition of_optional (o : option str) : value :=
  match o with Some s => VStr s | None => VNone end.

Definition validate_preferred_time (today : cal_date) (time_info : dict)
    : result (bool * list str * dict) :=
  let errors : list str := [] in
  let date_expr := dict_get K_date time_info in
  '(errors, time_info) <-
    (if truthy date_expr then
       normalized_date <- normalize_date_expression today date_expr ;;
       if truthy (of_optional normalized_date) then
         Ok (errors, dict_set K_date (of_optional normalized_date) time_info)
       else Ok (errors ++ [MSG_DATE], time_info)
     else Ok (errors, time_info)) ;;
  let time_slot := dict_get K_time_slot time_info in
  time_info <-
    (if truthy time_slot then
       normalized_slot <- normalize_time_slot time_slot ;;
       if truthy (of_optional normalized_slot) then
         Ok (dict_set K_time_slot (of_optional normalized_slot) time_info)
       else Ok time_info
     else Ok time_info) ;;
  Ok (match errors with [] => true | _ => false end, errors, time_info).

End validators.

(** ** models/entities.py *)

Module entities.

(** Assignment to a field of these models is not validated, so a field holds
    whatever value was assigned. *)
Record PatientInfo := mkPatientInfo { name : value; age : value; gender : value }.

Record PreferredTime := mkPreferredTime { date : value; time_slot : value }.

(** [PatientInfo()] and [PreferredTime()] *)
Definition PatientInfo_new : PatientInfo := mkPatientInfo VNone VNone VNone.
Definition PreferredTime_new : PreferredTime := mkPreferredTime VNone VNone.

(** What an [Optional[Model]] field holds: [None], a model object, or some
    other value that was assigned to it. *)
Inductive sub (A : Type) :=
  | SubNone
  | SubObj (a : A)
  | SubRaw (v : value).
Arguments SubNone {A}.
Arguments SubObj {A} a.
Arguments SubRaw {A} v.

(** [BookingEntities], over the representation of its two sub-objects: the
    objects themselves where a record is a value, their addresses where it
    lives in a store. *)
Record BookingEntitiesOf (P T : Type) := mkBookingEntities {
  booking_type : value;
  patient_info : sub P;
  policy_number : value;
  available_time : sub T;
  phone_number : value
}.
Arguments mkBookingEntities {P T}.
Arguments booking_type {P T}.
Arguments patient_info {P T}.
Arguments policy_number {P T}.
Arguments available_time {P T}.
Arguments phone_number {P T}.

Abbreviation BookingEntities := (BookingEntitiesOf PatientInfo PreferredTime).

(** [BookingEntities()] *)
Definition BookingEntities_new : BookingEntities :=
  mkBookingEntities VNone (SubObj PatientInfo_new) VNone (SubObj PreferredTime_new) VNone.

(** [bool(x)] for such a field. *)
Definition sub_truthy {A} (x : sub A) : bool :=
  match x with
  | SubNone => false
  | SubObj _ => true
  | SubRaw v => truthy v
  end.

(** [x.attr] for such a field, once [x] is known to be truthy. *)
Definition sub_attr {A} (attr : A -> value) (x : sub A) : result value :=
  match x with
  | SubObj a => Ok (attr a)
  | SubNone | SubRaw _ => Raise AttributeError
  end.

(** The labels of the mandatory fields: 預約類型, 病人資訊, 保單號碼, 可預約時間,
    電話號碼. *)
Definition L_booking_type : str := [0x9810; 0x7d04; 0x985e; 0x578b].
Definition L_patient_info : str := [0x75c5; 0x4eba; 0x8cc7; 0x8a0a].
Definition L_policy_number : str := [0x4fdd; 0x55ae; 0x865f; 0x78bc].
Definition L_available_time : str := [0x53ef; 0x9810; 0x7d04; 0x6642; 0x9593].
Definition L_phone_number : str := [0x96fb; 0x8a71; 0x865f; 0x78bc].

(** [not x or not x.attr] *)
Definition sub_lacks {A} (attr : A -> value) (x : sub A) : result bool :=
  if negb (sub_truthy x) then Ok true
  else v <- sub_attr attr x ;; Ok (negb (truthy v)).

Definition get_missing_fields (self : BookingEntities) : result (list str) :=
  let missing : list str := [] in
  let missing :=
    if negb (truthy (booking_type self)) then missing ++ [L_booking_type] else missing in
  no_name <- sub_lacks name (patient_info self) ;;
  let missing := if no_name : bool then missing ++ [L_patient_info] else missing in
  let missing :=
    if negb (truthy (policy_number self)) then missing ++ [L_policy_number] else missing in
  no_date <- sub_lacks date (available_time self) ;;
  let missing := if no_date : bool then missing ++ [L_available_time] else missing in
  let missing :=
    if negb (truthy (phone_number self)) then missing ++ [L_phone_number] else missing in
  Ok missing.

Definition is_complete (self : BookingEntities) : result bool :=
  missing <- get_missing_fields self ;;
  Ok (length missing =? 0)%nat.

(** [x.attr if x else None] *)
Definition sub_attr_or_none {A} (attr : A -> value) (x : sub A) : result value :=
  if sub_truthy x then sub_attr attr x else Ok VNone.

Definition K_booking_type : str := Eval cbv in lit "booking_type".
Definition K_patient_info : str := Eval cbv in lit "patient_info".
Definition K_policy_number : str := Eval cbv in lit "policy_number".
Definition K_available_time : str := Eval cbv in lit "available_time".
Definition K_phone_number : str := Eval cbv in lit "phone_number".

Definition to_dict (self : BookingEntities) : result dict :=
  p_name <- sub_attr_or_none name (patient_info self) ;;
  p_age <- sub_attr_or_none age (patient_info self) ;;
  p_gender <- sub_attr_or_none gender (patient_info self) ;;
  t_date <- sub_attr_or_none date (available_time self) ;;
  t_time_slot <- sub_attr_or_none time_slot (available_time self) ;;
  Ok [ (K_booking_type, booking_type self);
       (K_patient_info,
        VDict [ (validators.K_name, p_name); (validators.K_age, p_age);
                (validators.K_gender, p_gender) ]);
       (K_policy_number, policy_number self);
       (K_available_time,
        VDict [ (validators.K_date, t_date); (validators.K_time_slot, t_time_slot) ]);
       (K_phone_number, phone_number self) ].

(** [DoctorSlot]; its fields carry a prefix here, [date] being taken by
    [PreferredTime]. *)
Record DoctorSlot := mkDoctorSlot {
  slot_doctor_id : str;
  slot_doctor_name : str;
  slot_specialty : str;
  slot_date : str;
  slot_start_time : str;
  slot_end_time : str;
  slot_available : bool
}.

(** *** Assignment *)

Definition set_booking_type {P T} (v : value) (e : BookingEntitiesOf P T) :=
  mkBookingEntities v (patient_info e) (policy_number e) (available_time e) (phone_number e).
Definition set_patient_info {P T} (x : sub P) (e : BookingEntitiesOf P T) :=
  mkBookingEntities (booking_type e) x (policy_number e) (available_time e) (phone_number e).
Definition set_policy_number {P T} (v : value) (e : BookingEntitiesOf P T) :=
  mkBookingEntities (booking_type e) (patient_info e) v (available_time e) (phone_number e).
Definition set_available_time {P T} (x : sub T) (e : BookingEntitiesOf P T) :=
  mkBookingEntities (booking_type e) (patient_info e) (policy_number e) x (phone_number e).
Definition set_phone_number {P T} (v : value) (e : BookingEntitiesOf P T) :=
  mkBookingEntities (booking_type e) (patient_info e) (policy_number e) (available_time e) v.

(** [setattr(p, key, v)] on a [PatientInfo]: a name that is not a field of the
    model raises [ValueError].  That is what pydantic does with a name that
    does not start with an underscore.  The names that do start with one are
    special to it (some are stored on the object, beside the fields) and are
    not modelled here, nor for the two models that follow: a statement about
    an outcome that depends on the assignment to a name that is no field
    leaves them out. *)
Definition PatientInfo_setattr (key : str) (v : value) (p : PatientInfo)
    : result PatientInfo :=
  if str_eqb key validators.K_name then Ok (mkPatientInfo v (age p) (gender p))
  else if str_eqb key validators.K_age then Ok (mkPatientInfo (name p) v (gender p))
  else if str_eqb key validators.K_gender then Ok (mkPatientInfo (name p) (age p) v)
  else Raise ValueError.

Definition PreferredTime_setattr (key : str) (v : value) (t : PreferredTime)
    : result PreferredTime :=
  if str_eqb key validators.K_date then Ok (mkPreferredTime v (time_slot t))
  else if str_eqb key validators.K_time_slot then Ok (mkPreferredTime (date t) v)
  else Raise ValueError.

(** [v] assigned to an optional field as it is. *)
Definition to_sub {A} (v : value) : sub A :=
  match v with
  | VNone => SubNone
  | _ => SubRaw v
  end.

(** [setattr(e, key, v)] on a [BookingEntities]. *)
Definition BookingEntities_setattr (key : str) (v : value) (e : BookingEntities)
    : result BookingEntities :=
  if str_eqb key K_booking_type then Ok (set_booking_type v e)
  else if str_eqb key K_patient_info then Ok (set_patient_info (to_sub v) e)
  else if str_eqb key K_policy_number then Ok (set_policy_number v e)
  else if str_eqb key K_available_time then Ok (set_available_time (to_sub v) e)
  else if str_eqb key K_phone_number then Ok (set_phone_number v e)
  else Raise ValueError.

(** [if not x: x = Model()] *)
Definition ensure {A} (new : A) (x : sub A) : sub A :=
  if sub_truthy x then x else SubObj new.

(** [isinstance(v, dict)] *)
Definition as_dict (v : value) : option dict :=
  match v with
  | VDict d => Some d
  | _ => None
  end.

(** [setattr(x, key, v)] where [x] is what an optional field holds: [None]
    and the values of the built-in types have no attribute to set. *)
Definition sub_setattr {A} (setattr : str -> value -> A -> result A)
    (key : str) (v : value) (x : sub A) : result (sub A) :=
  match x with
  | SubObj a => a' <- setattr key v a ;; Ok (SubObj a')
  | SubNone | SubRaw _ => Raise AttributeError
  end.

End entities.

Import entities.

(** ** models/conversation.py *)

Module conversation.

Inductive ConversationState :=
  | GREETING
  | EXTRACTING_ENTITIES
  | COLLECTING_MISSING
  | SHOWING_AVAILABILITY
  | CONFIRMING_BOOKING
  | COMPLETED
  | ERROR.

(** An entry of [message_history]. *)
Record message := mkMessage { role : str; content : str; timestamp : str }.

(** [ConversationManager], over what [self.entities] is: the record where
    records are values, its address where they live in a store. *)
Record ConversationManagerOf (E : Type) := mkConversationManager {
  conversation_id : str;
  state : ConversationState;
  entities : E;
  message_history : list message;
  available_slots : list DoctorSlot;
  selected_slot : option DoctorSlot;
  turn_count : Z;
  created_at : str
}.
Arguments mkConversationManager {E}.
Arguments conversation_id {E}.
Arguments state {E}.
Arguments entities {E}.
Arguments message_history {E}.
Arguments available_slots {E}.
Arguments selected_slot {E}.
Arguments turn_count {E}.
Arguments created_at {E}.

(** [conversation.entities = e] *)
Definition set_entities {E F} (e : F) (c : ConversationManagerOf E)
    : ConversationManagerOf F :=
  mkConversationManager (conversation_id c) (state c) e (message_history c)
    (available_slots c) (selected_slot c) (turn_count c) (created_at c).

Definition CONV_PREFIX : str := Eval cbv in lit "conv_".
Definition ROLE_USER : str := Eval cbv in lit "user".

(** [ConversationManager()]: [timestamp] is [int(datetime.now().timestamp())]
    and [now] the text of [datetime.now()]. *)
Definition ConversationManager_new (timestamp : Z) (now : str)
    : ConversationManagerOf BookingEntities :=
  mkConversationManager (CONV_PREFIX ++ Z_str timestamp) GREETING BookingEntities_new
    [] [] None 0 now.

Definition set_message_history {E} (l : list message) (c : ConversationManagerOf E)
    : ConversationManagerOf E :=
  mkConversationManager (conversation_id c) (state c) (entities c) l
    (available_slots c) (selected_slot c) (turn_count c) (created_at c).

Definition set_turn_count {E} (n : Z) (c : ConversationManagerOf E)
    : ConversationManagerOf E :=
  mkConversationManager (conversation_id c) (state c) (entities c) (message_history c)
    (available_slots c) (selected_slot c) n (created_at c).

(** [add_message]; [now] is [datetime.now().isoformat()]. *)
Definition add_message {E} (now : str) (role content : str)
    (self : ConversationManagerOf E) : ConversationManagerOf E :=
  let self :=
    set_message_history (message_history self ++ [mkMessage role content now]) self in
  if str_eqb role ROLE_USER then set_turn_count (turn_count self + 1)%Z self else self.

(** [l[-n:]] *)
Definition last_n {A} (n : nat) (l : list A) : list A := drop (length l - n) l.

Definition get_conversation_context {E} (self : ConversationManagerOf E) : str :=
  let recent_messages := last_n 6 (message_history self) in
  fold_left (fun context msg => context ++ role msg ++ COLON_SPACE ++ content msg ++ [0xa])
            recent_messages [].

(** One pass of [for key, value in sub.items(): if value: setattr(obj, key,
    value)] on the object an optional field holds, in place. *)
Definition update_sub {A} (setattr : str -> value -> A -> result A)
    (x : sub A) (item : str * value) : sub A * option exn :=
  let '(key, value) := item in
  if truthy value then
    match sub_setattr setattr key value x with
    | Ok x' => (x', None)
    | Raise e => (x, Some e)
    end
  else (x, None).

(** The body of the loop of [update_entities] on [self.entities], which is
    changed in place. *)
Definition update_step (self_entities : BookingEntities) (item : str * value)
    : BookingEntities * option exn :=
  let '(key, value) := item in
  match (if str_eqb key K_patient_info then as_dict value else None) with
  | Some d =>
      let '(x, e) :=
        for_each_in_place (update_sub PatientInfo_setattr)
          (ensure PatientInfo_new (patient_info self_entities)) d in
      (set_patient_info x self_entities, e)
  | None =>
      match (if str_eqb key K_available_time then as_dict value else None) with
      | Some d =>
          let '(x, e) :=
            for_each_in_place (update_sub PreferredTime_setattr)
              (ensure PreferredTime_new (available_time self_entities)) d in
          (set_available_time x self_entities, e)
      | None =>
          if truthy value then
            match BookingEntities_setattr key value self_entities with
            | Ok self_entities' => (self_entities', None)
            | Raise e => (self_entities, Some e)
            end
          else (self_entities, None)
      end
  end.

(** [ConversationManager.update_entities], as the change it makes to
    [self.entities] and the exception it ends with, if any. *)
Definition update_entities (self_entities : BookingEntities) (new_entities : dict)
    : BookingEntities * option exn :=
  for_each_in_place update_step self_entities new_entities.

Definition set_available_slots {E} (slots : list DoctorSlot)
    (self : ConversationManagerOf E) : ConversationManagerOf E :=
  mkConversationManager (conversation_id self) (state self) (entities self)
    (message_history self) slots (selected_slot self) (turn_count self) (created_at self).

Definition select_slot {E} (slot : DoctorSlot) (self : ConversationManagerOf E)
    : ConversationManagerOf E :=
  mkConversationManager (conversation_id self) (state self) (entities self)
    (message_history self) (available_slots self) (Some slot) (turn_count self)
    (created_at self).

End conversation.

(** ** services/entity_extractor.py: the merge on records *)

Module entity_extractor.

Import validators conversation.

(** [f"{key}: {message}"] *)
Definition tagged (key message : str) : str := key ++ COLON_SPACE ++ message.

(** [validator(str(value))].  For a list or a dict, whose text starts with a
    bracket or a brace, the outcome is the rejection [reject] that the
    validator has for such text. *)
Definition on_str (validator : str -> bool * str) (reject : str) (value : value)
    : bool * str :=
  match py_str value with
  | Some s => validator s
  | None => (false, reject)
  end.

(** [for k, v in sub_copy.items(): if v: setattr(merged.sub, k, v)] *)
Definition store_sub {A} (setattr : str -> value -> A -> result A)
    (x : sub A) (item : str * value) : result (sub A) :=
  let '(key, value) := item in
  if truthy value then sub_setattr setattr key value x else Ok x.

(** The body of the loop of [merge_entities]; [merged] is the deep copy being
    built, [all_errors] the errors so far. *)
Definition merge_step (today : cal_date) (st : BookingEntities * list str)
    (item : str * value) : result (BookingEntities * list str) :=
  let '(merged, all_errors) := st in
  let '(key, value) := item in
  if negb (truthy value) then Ok (merged, all_errors)
  else if str_eqb key K_booking_type then
    '(is_valid, result) <-
      validate_appointment_type value (Some get_clinic_appointment_types) ;;
    if is_valid : bool then Ok (set_booking_type (VStr result) merged, all_errors)
    else Ok (merged, all_errors ++ [tagged K_booking_type result])
  else if str_eqb key K_phone_number then
    let '(is_valid, result) := on_str validate_phone_number MSG_PHONE_INVALID value in
    if is_valid : bool then Ok (set_phone_number (VStr result) merged, all_errors)
    else Ok (merged, all_errors ++ [tagged K_phone_number result])
  else if str_eqb key K_policy_number then
    let '(is_valid, result) := on_str validate_policy_number MSG_POLICY_INVALID value in
    if is_valid : bool then Ok (set_policy_number (VStr result) merged, all_errors)
    else Ok (merged, all_errors ++ [tagged K_policy_number result])
  else
    match (if str_eqb key K_patient_info then as_dict value else None) with
    | Some d =>
        let merged :=
          set_patient_info (ensure PatientInfo_new (patient_info merged)) merged in
        '(is_valid, errors, patient_copy) <- validate_patient_info d ;;
        if negb is_valid then
          Ok (merged, all_errors ++ map (tagged K_patient_info) errors)
        else
          x <- for_each (store_sub PatientInfo_setattr) (patient_info merged) patient_copy ;;
          Ok (set_patient_info x merged, all_errors)
    | None =>
        match (if str_eqb key K_available_time then as_dict value else None) with
        | Some d =>
            let merged :=
              set_available_time (ensure PreferredTime_new (available_time merged)) merged in
            '(is_valid, errors, time_copy) <- validate_preferred_time today d ;;
            if negb is_valid then
              Ok (merged, all_errors ++ map (tagged K_available_time) errors)
            else
              x <- for_each (store_sub PreferredTime_setattr) (available_time merged) time_copy ;;
              Ok (set_available_time x merged, all_errors)
        | None => Ok (merged, all_errors)
        end
    end.

(** The extraction service behind [LLMService], as the two calls the
    extractor makes: what comes back is the service's affair. *)
Record LLMService := mkLLMService {
  extract_entities : str -> dict -> str -> dict;
  generate_missing_fields_question : list str -> str -> dict -> str
}.

(** [SmartEntityMerger.merge_entities]: the result is built on a copy of
    [current_entities]; an exception leaves nothing of it. *)
Definition merge_entities (today : cal_date) (current_entities : BookingEntities)
    (new_entities : dict) : result (BookingEntities * list str) :=
  for_each (merge_step today) (current_entities, []) new_entities.

(** [EntityExtractor.get_missing_fields_question] *)
Definition get_missing_fields_question (llm_service : LLMService)
    (conversation : ConversationManagerOf BookingEntities) : result str :=
  missing_fields <- get_missing_fields (entities conversation) ;;
  match missing_fields with
  | [] => Ok []
  | _ =>
      let conversation_context := get_conversation_context conversation in
      current_entities <- to_dict (entities conversation) ;;
      Ok (generate_missing_fields_question llm_service missing_fields
            conversation_context current_entities)
  end.

End entity_extractor.

(** ** The records as objects in a store

    [merge_entities] copies the record it is given and changes the copy in
    place; [extract_and_merge] then makes the conversation point to the copy.
    Here the records are objects at addresses of a store, and the record of
    the previous sections is what is read off an address. *)

Module store.

Import validators conversation.

Definition loc := positive.

Inductive object :=
  | OPatientInfo (p : PatientInfo)
  | OPreferredTime (t : PreferredTime)
  | OBookingEntities (e : BookingEntitiesOf loc loc).

Abbreviation heap := (gmap loc object).

(** A computation on the store gives the store after it and a result or an
    exception; it gives [None] when it follows an address that holds no
    object of the class it expects, which does not happen in a store whose
    records can be read off. *)
Definition M (A : Type) : Type := heap -> option (heap * result A).

Definition ret {A} (a : A) : M A := fun h => Some (h, Ok a).
Definition raise {A} (e : exn) : M A := fun h => Some (h, Raise e).
Definition lift {A} (r : result A) : M A := fun h => Some (h, r).

Definition bindM {A B} (m : M A) (f : A -> M B) : M B :=
  fun h =>
    match m h with
    | Some (h', Ok a) => f a h'
    | Some (h', Raise e) => Some (h', Raise e)
    | None => None
    end.

(** [try: m except Exception as e: handler(e)] *)
Definition catch {A} (m : M A) (handler : exn -> M A) : M A :=
  fun h =>
    match m h with
    | Some (h', Raise e) => handler e h'
    | r => r
    end.

Declare Scope store_scope.
Delimit Scope store_scope with store.
Notation "x <- m ;; k" := (bindM m (fun x => k))
  (at level 20, m at level 99, k at level 200) : store_scope.
Notation "' pat <- m ;; k" := (bindM m (fun x => match x with pat => k end))
  (at level 20, pat pattern, m at level 99, k at level 200) : store_scope.
Local Open Scope store_scope.

Fixpoint for_each_M {S A} (body : S -> A -> M S) (s : S) (items : list A) : M S :=
  match items with
  | [] => ret s
  | x :: items' => s' <- body s x ;; for_each_M body s' items'
  end.

(** *** Objects *)

Definition get_entities (l : loc) : M (BookingEntitiesOf loc loc) :=
  fun h =>
    match h !! l with
    | Some (OBookingEntities e) => Some (h, Ok e)
    | _ => None
    end.

Definition get_patient (l : loc) : M PatientInfo :=
  fun h =>
    match h !! l with
    | Some (OPatientInfo p) => Some (h, Ok p)
    | _ => None
    end.

Definition get_time (l : loc) : M PreferredTime :=
  fun h =>
    match h !! l with
    | Some (OPreferredTime t) => Some (h, Ok t)
    | _ => None
    end.

Definition put (l : loc) (o : object) : M unit :=
  fun h => Some (<[l := o]> h, Ok tt).

(** A new object, at an address not in use. *)
Definition new (o : object) : M loc :=
  fun h => let l := fresh (dom h) in Some (<[l := o]> h, Ok l).

(** The record read off an address. *)
Definition load_sub {A} (get : loc -> M A) (x : sub loc) : M (sub A) :=
  match x with
  | SubNone => ret SubNone
  | SubRaw v => ret (SubRaw v)
  | SubObj l => a <- get l ;; ret (SubObj a)
  end.

Definition load (self : loc) : M BookingEntities :=
  e <- get_entities self ;;
  p <- load_sub get_patient (patient_info e) ;;
  t <- load_sub get_time (available_time e) ;;
  ret (mkBookingEntities (booking_type e) p (policy_number e) t (phone_number e)).

Definition snapshot (h : heap) (self : loc) : option BookingEntities :=
  match load self h with
  | Some (_, Ok e) => Some e
  | _ => None
  end.

(** [self.to_dict()] *)
Definition to_dict (self : loc) : M dict :=
  e <- load self ;; lift (entities.to_dict e).

(** [self.copy(deep=True)]: new objects for the record and for the
    sub-objects it holds. *)
Definition copy_sub {A} (get : loc -> M A) (wrap : A -> object) (x : sub loc)
    : M (sub loc) :=
  match x with
  | SubObj l => a <- get l ;; l' <- new (wrap a) ;; ret (SubObj l')
  | _ => ret x
  end.

Definition deep_copy (self : loc) : M loc :=
  e <- get_entities self ;;
  p <- copy_sub get_patient OPatientInfo (patient_info e) ;;
  t <- copy_sub get_time OPreferredTime (available_time e) ;;
  new (OBookingEntities
         (mkBookingEntities (booking_type e) p (policy_number e) t (phone_number e))).

(** *** services/entity_extractor.py on the store *)

(** [merged.field = v] *)
Definition assign (merged : loc)
    (set : BookingEntitiesOf loc loc -> BookingEntitiesOf loc loc) : M unit :=
  e <- get_entities merged ;; put merged (OBookingEntities (set e)).

(** [if not merged.patient_info: merged.patient_info = PatientInfo()] *)
Definition ensure_patient_info (merged : loc) : M unit :=
  e <- get_entities merged ;;
  if sub_truthy (patient_info e) then ret tt
  else
    l <- new (OPatientInfo PatientInfo_new) ;;
    put merged (OBookingEntities (set_patient_info (SubObj l) e)).

Definition ensure_available_time (merged : loc) : M unit :=
  e <- get_entities merged ;;
  if sub_truthy (available_time e) then ret tt
  else
    l <- new (OPreferredTime PreferredTime_new) ;;
    put merged (OBookingEntities (set_available_time (SubObj l) e)).

(** [if value: setattr(merged.patient_info, key, value)] *)
Definition store_patient_attr (merged : loc) (_ : unit) (item : str * value) : M unit :=
  let '(key, value) := item in
  if truthy value then
    e <- get_entities merged ;;
    match patient_info e with
    | SubObj l =>
        p <- get_patient l ;;
        p' <- lift (PatientInfo_setattr key value p) ;;
        put l (OPatientInfo p')
    | _ => raise AttributeError
    end
  else ret tt.

Definition store_time_attr (merged : loc) (_ : unit) (item : str * value) : M unit :=
  let '(key, value) := item in
  if truthy value then
    e <- get_entities merged ;;
    match available_time e with
    | SubObj l =>
        t <- get_time l ;;
        t' <- lift (PreferredTime_setattr key value t) ;;
        put l (OPreferredTime t')
    | _ => raise AttributeError
    end
  else ret tt.

(** The body of the loop of [merge_entities]; [merged] is the address of the
    copy. *)
Definition merge_step (today : cal_date) (merged : loc) (all_errors : list str)
    (item : str * value) : M (list str) :=
  let '(key, value) := item in
  if negb (truthy value) then ret all_errors
  else if str_eqb key K_booking_type then
    '(is_valid, result) <-
      lift (validate_appointment_type value (Some get_clinic_appointment_types)) ;;
    if is_valid : bool then
      _ <- assign merged (set_booking_type (VStr result)) ;; ret all_errors
    else ret (all_errors ++ [entity_extractor.tagged K_booking_type result])
  else if str_eqb key K_phone_number then
    let '(is_valid, result) :=
      entity_extractor.on_str validate_phone_number MSG_PHONE_INVALID value in
    if is_valid : bool then
      _ <- assign merged (set_phone_number (VStr result)) ;; ret all_errors
    else ret (all_errors ++ [entity_extractor.tagged K_phone_number result])
  else if str_eqb key K_policy_number then
    let '(is_valid, result) :=
      entity_extractor.on_str validate_policy_number MSG_POLICY_INVALID value in
    if is_valid : bool then
      _ <- assign merged (set_policy_number (VStr result)) ;; ret all_errors
    else ret (all_errors ++ [entity_extractor.tagged K_policy_number result])
  else
    match (if str_eqb key K_patient_info then as_dict value else None) with
    | Some d =>
        _ <- ensure_patient_info merged ;;
        '(is_valid, errors, patient_copy) <- lift (validate_patient_info d) ;;
        if negb is_valid then
          ret (all_errors ++ map (entity_extractor.tagged K_patient_info) errors)
        else
          _ <- for_each_M (store_patient_attr merged) tt patient_copy ;;
          ret all_errors
    | None =>
        match (if str_eqb key K_available_time then as_dict value else None) with
        | Some d =>
            _ <- ensure_available_time merged ;;
            '(is_valid, errors, time_copy) <- lift (validate_preferred_time today d) ;;
            if negb is_valid then
              ret (all_errors ++ map (entity_extractor.tagged K_available_time) errors)
            else
              _ <- for_each_M (store_time_attr merged) tt time_copy ;;
              ret all_errors
        | None => ret all_errors
        end
    end.

(** [SmartEntityMerger.merge_entities] *)
Definition merge_entities (today : cal_date) (current_entities : loc)
    (new_entities : dict) : M (loc * list str) :=
  merged <- deep_copy current_entities ;;
  all_errors <- for_each_M (merge_step today merged) [] new_entities ;;
  ret (merged, all_errors).

(** [extraction_info] *)
Record extraction_info := mkExtractionInfo {
  info_message : str;
  extracted_entities : dict;
  merged_successfully : bool;
  validation_errors : list str;
  entities_before : dict;
  entities_after : option dict;
  error : option exn
}.

(** [EntityExtractor.extract_and_merge]: [history] is
    [self.extraction_history]; the result carries the history and the
    conversation after the call. *)
Definition extract_and_merge (llm_service : entity_extractor.LLMService)
    (today : cal_date) (history : list extraction_info)
    (conversation : ConversationManagerOf loc) (user_message : str)
    : M (list extraction_info * ConversationManagerOf loc * (bool * extraction_info)) :=
  before <- to_dict (entities conversation) ;;
  let info0 := mkExtractionInfo user_message [] false [] before None None in
  catch
    (current_entities_dict <- to_dict (entities conversation) ;;
     let conversation_context := get_conversation_context conversation in
     let extracted :=
       entity_extractor.extract_entities llm_service user_message
         current_entities_dict conversation_context in
     let info1 := mkExtractionInfo user_message extracted false [] before None None in
     catch
       (if negb (truthy (VDict extracted)) then ret (history, conversation, (false, info1))
        else
          let original_entities := entities conversation in
          '(merged_entities, validation_errors) <-
            merge_entities today original_entities extracted ;;
          let conversation := set_entities merged_entities conversation in
          catch
            (after <- to_dict merged_entities ;;
             let info2 :=
               mkExtractionInfo user_message extracted true validation_errors before
                 (Some after) None in
             ret (history ++ [info2], conversation, (true, info2)))
            (fun e =>
               ret (history, conversation,
                    (false, mkExtractionInfo user_message extracted false [] before
                              None (Some e)))))
       (fun e =>
          ret (history, conversation,
               (false, mkExtractionInfo user_message extracted false [] before None
                         (Some e)))))
    (fun e =>
       ret (history, conversation,
            (false, mkExtractionInfo user_message [] false [] before None (Some e)))).

(** [total], [successful] and [recent_extractions] of
    [get_extraction_summary]. *)
Definition total_extractions (history : list extraction_info) : nat :=
  length history.

Definition successful_extractions (history : list extraction_info) : nat :=
  length (List.filter merged_successfully history).

Definition recent_extractions (history : list extraction_info)
    : list extraction_info :=
  last_n 5 history.

End store.

(** ** calender-integration/calendar_avalibility.py

    Every time is an instant on the Hong Kong clock, in microseconds since
    the midnight that starts some day 0: [astimezone] and [localize] bring
    the arguments to that clock, whose offset from UTC is constant. *)

Module calendar_avalibility.

Local Open Scope Z_scope.

Definition SECOND : Z := 1000000.
Definition MINUTE : Z := 60 * SECOND.
Definition HOUR : Z := 60 * MINUTE.
Definition DAY : Z := 24 * HOUR.

Definition SUGGESTION_DURATION_MINUTES : Z := 60.
Definition BUSINESS_HOURS_START : Z := 9.
Definition BUSINESS_HOURS_END : Z := 18.

(** [t.hour], [t.minute], [t.second] and [t.microsecond] *)
Definition hour (t : Z) : Z := (t / HOUR) mod 24.
Definition minute (t : Z) : Z := (t / MINUTE) mod 60.
Definition second (t : Z) : Z := (t / SECOND) mod 60.
Definition microsecond (t : Z) : Z := t mod SECOND.

(** [t.replace(minute=0, second=0, microsecond=0)] *)
Definition on_the_hour (t : Z) : Z :=
  t - (minute t * MINUTE + second t * SECOND + microsecond t).

(** [timedelta(minutes=SUGGESTION_DURATION_MINUTES)] *)
Definition slot_duration : Z := SUGGESTION_DURATION_MINUTES * MINUTE.

(** The test of the inner loop, which leaves the loop at the first busy
    period that overlaps. *)
Definition overlaps (busy_periods : list (Z * Z)) (current : Z) : bool :=
  existsb (fun '(busy_start, busy_end) =>
             (busy_start <? current + slot_duration) && (current <? busy_end))
          busy_periods.

(** The [while] loop; every turn moves [current] on by the slot duration, so
    it ends, and [fuel] bounds the number of turns. *)
Fixpoint suggest_loop (fuel : nat) (busy_periods : list (Z * Z)) (time_max : Z)
    (current : Z) (suggestions : list Z) : option (list Z) :=
  match fuel with
  | O => None
  | S fuel' =>
      if current + slot_duration <=? time_max then
        let hour := hour current in
        let suggestions :=
          if (BUSINESS_HOURS_START <=? hour) && (hour <? BUSINESS_HOURS_END) then
            if overlaps busy_periods current then suggestions
            else suggestions ++ [current]
          else suggestions in
        suggest_loop fuel' busy_periods time_max (current + slot_duration) suggestions
      else Some suggestions
  end.

(** The rounding of [time_min] to the next full hour. *)
Definition round_up (time_min : Z) : Z :=
  if (0 <? minute time_min) || (0 <? second time_min) || (0 <? microsecond time_min)
  then on_the_hour (time_min + HOUR)
  else time_min.

(** The turns the loop makes from [current]. *)
Definition turns (time_max current : Z) : nat :=
  Z.to_nat ((time_max - current) / slot_duration).

Definition suggest_meeting_times (busy_periods : list (Z * Z)) (time_min time_max : Z)
    : option (list Z) :=
  let time_min := round_up time_min in
  suggest_loop (S (turns time_max time_min)) busy_periods time_max time_min [].

End calendar_avalibility.

(** ** services/llm_service.py *)

Module llm_service.

(** The generative model behind [GeminiService]: what the call number
    [attempt] of [self.model.generate_content(prompt).text] gives, the text
    of the answer or an exception. *)
Definition Model : Type := nat -> str -> result str.

(** The loop of [generate_response] from the attempt [attempt] on, with
    [remaining] attempts left. *)
Fixpoint generate_response_from (model : Model) (prompt : str) (attempt remaining : nat)
    : option str :=
  match remaining with
  | O => None
  | S remaining' =>
      match model attempt prompt with
      | Ok text => Some (strip text)
      | Raise _ => generate_response_from model prompt (S attempt) remaining'
      end
  end.

Definition generate_response (model : Model) (prompt : str) (max_retries : nat)
    : option str :=
  generate_response_from model prompt 0 max_retries.

(** The default of [max_retries]. *)
Definition MAX_RETRIES : nat := 3.

(** 请提供您的预约信息，我来帮您安排。 *)
Definition DEFAULT_QUESTION : str :=
  [0x8bf7; 0x63d0; 0x4f9b; 0x60a8; 0x7684; 0x9884; 0x7ea6; 0x4fe1; 0x606f; 0xff0c;
   0x6211; 0x6765; 0x5e2e; 0x60a8; 0x5b89; 0x6392; 0x3002].

(** [response or default]: [None] and the empty text give the default. *)
Definition or_default (response : option str) (default : str) : str :=
  match response with
  | Some (c :: rest) => c :: rest
  | _ => default
  end.

(** [LLMService.generate_missing_fields_question]; the prompt is text handed
    to the model, built by [missing_fields_prompt]. *)
Definition generate_missing_fields_question (model : Model)
    (missing_fields_prompt : list str -> str -> dict -> str)
    (missing_fields : list str) (conversation_context : str) (current_entities : dict)
    : str :=
  let prompt := missing_fields_prompt missing_fields conversation_context current_entities in
  let response := generate_response model prompt MAX_RETRIES in
  or_default response DEFAULT_QUESTION.

(** [LLMService.parse_slot_selection]; [slot_selection_prompt] raises when a
    slot lacks one of the keys it prints. *)
Definition parse_slot_selection {A} (model : Model)
    (slot_selection_prompt : str -> list A -> result str)
    (user_message : str) (available_slots : list A) : result Z :=
  match available_slots with
  | [] => Ok 0%Z
  | _ =>
      prompt <- slot_selection_prompt user_message available_slots ;;
      match generate_response model prompt MAX_RETRIES with
      | None | Some [] => Ok 0%Z
      | Some response =>
          match parse_int (strip response) with
          | Some selection =>
              if (1 <=? selection)%Z && (selection <=? Z.of_nat (length available_slots))%Z
              then Ok selection
              else Ok 0%Z
          | None => Ok 0%Z
          end
      end
  end.

End llm_service.

(** ** services/calender_service.py *)

Module calender_service.

Import validators.

Definition K_summary : str := Eval cbv in lit "summary".
Definition AVAILABLE_LOWER : str := Eval cbv in lit "available".
Definition AVAILABLE_TITLE : str := Eval cbv in lit "Available".
Definition AVAILABLE_UPPER : str := Eval cbv in lit "AVAILABLE".
Definition SEPARATOR : str := Eval cbv in lit " - ".
Definition SPACE : str := Eval cbv in lit " ".
Definition UNDERSCORE : str := Eval cbv in lit "_".
Definition DOT : str := Eval cbv in lit ".".
Definition COLON : str := Eval cbv in lit ":".

(** The dict that [parse_doctor_info_from_event] returns. *)
Record doctor_info := mkDoctorInfo {
  doctor_id : str;
  doctor_name : str;
  specialty : str
}.

(** [parse_doctor_info_from_event]; the methods of text that the [try] block
    calls do not raise.  [summary.lower()] raises for a summary that is not
    text. *)
Definition parse_doctor_info_from_event (event : dict) : result (option doctor_info) :=
  match dict_get_or K_summary (VStr []) event with
  | VStr summary =>
      if negb (contains AVAILABLE_LOWER (lower summary)) then Ok None
      else
        match split SEPARATOR summary with
        | part0 :: part1 :: _ =>
            let doctor_part := strip part0 in
            let specialty := strip part1 in
            let doctor_name :=
              strip (replace AVAILABLE_UPPER [] (replace AVAILABLE_TITLE [] doctor_part)) in
            let doctor_id := replace DOT [] (replace SPACE UNDERSCORE (lower doctor_name)) in
            Ok (Some (mkDoctorInfo doctor_id doctor_name specialty))
        | _ => Ok None
        end
  | _ => Raise AttributeError
  end.

(** [_matches_target_date]; [today] is [datetime.now(self.tz)]. *)
Definition matches_target_date (today : cal_date) (slot_date : str)
    (target_date : option str) : result bool :=
  match target_date with
  | None | Some [] => Ok true
  | Some target_date =>
      if contains TOMORROW_1 target_date then
        tomorrow <- add_days 1 today ;; Ok (str_eqb slot_date (strftime_ymd tomorrow))
      else if contains TODAY_1 target_date then
        Ok (str_eqb slot_date (strftime_ymd today))
      else Ok (contains target_date slot_date)
  end.

(** [_matches_time_preference]; [int()] raises [ValueError] when the start
    time does not begin with a number. *)
Definition matches_time_preference (slot : DoctorSlot) (time_preference : option str)
    : result bool :=
  match time_preference with
  | None | Some [] => Ok true
  | Some time_preference =>
      match parse_int (hd [] (split COLON (slot_start_time slot))) with
      | None => Raise ValueError
      | Some hour =>
          if str_eqb time_preference MORNING then Ok ((9 <=? hour)%Z && (hour <? 12)%Z)
          else if str_eqb time_preference AFTERNOON then
            Ok ((12 <=? hour)%Z && (hour <? 18)%Z)
          else if str_eqb time_preference EVENING then
            Ok ((18 <=? hour)%Z && (hour <? 21)%Z)
          else Ok true
      end
  end.

(** [bool(x)] for an optional text. *)
Definition given (x : option str) : bool :=
  match x with
  | None | Some [] => false
  | Some _ => true
  end.

(** The loop of [get_available_slots] over [all_slots], the slots that the
    events of the calendar were converted to. *)
Definition get_available_slots (today : cal_date) (all_slots : list DoctorSlot)
    (target_date time_preference : option str) : result (list DoctorSlot) :=
  for_each
    (fun filtered_slots slot =>
       date_ok <-
         (if given target_date then matches_target_date today (slot_date slot) target_date
          else Ok true) ;;
       if negb date_ok then Ok filtered_slots
       else
         time_ok <-
           (if given time_preference then matches_time_preference slot time_preference
            else Ok true) ;;
         if negb time_ok then Ok filtered_slots
         else Ok (filtered_slots ++ [slot]))
    [] all_slots.

End calender_service.

(** ** Vocabulary of the properties *)

Module props.

Import entity_extractor.

(** The keys [merge_entities] looks for. *)
Definition recognized_keys : list str :=
  [K_booking_type; K_phone_number; K_policy_number; K_patient_info; K_available_time].

(** What [getattr(e, key)] reads for a field of the model. *)
Inductive attr :=
  | AValue (v : value)
  | APatient (x : sub PatientInfo)
  | ATime (x : sub PreferredTime).

Definition getattr (key : str) (e : BookingEntities) : option attr :=
  if str_eqb key K_booking_type then Some (AValue (booking_type e))
  else if str_eqb key K_phone_number then Some (AValue (phone_number e))
  else if str_eqb key K_policy_number then Some (AValue (policy_number e))
  else if str_eqb key K_patient_info then Some (APatient (patient_info e))
  else if str_eqb key K_available_time then Some (ATime (available_time e))
  else None.

(** An entry of the error list is an error recorded for [key]. *)
Definition recorded_for (key error : str) : Prop :=
  exists message, error = tagged key message.

(** The outcomes of one turn of the loop of [merge_entities] that end
    without an exception: the record after the turn and the errors the turn
    appends. *)
Inductive merge_step_rel (today : cal_date) (merged : BookingEntities)
    (key : str) (value : value) : BookingEntities -> list str -> Prop :=
  | ms_skip :
      truthy value = false ->
      merge_step_rel today merged key value merged []
  | ms_type_ok res :
      truthy value = true -> key = K_booking_type ->
      validators.validate_appointment_type value
        (Some validators.get_clinic_appointment_types) = Ok (true, res) ->
      merge_step_rel today merged key value (set_booking_type (VStr res) merged) []
  | ms_type_bad res :
      truthy value = true -> key = K_booking_type ->
      validators.validate_appointment_type value
        (Some validators.get_clinic_appointment_types) = Ok (false, res) ->
      merge_step_rel today merged key value merged [tagged K_booking_type res]
  | ms_phone_ok res :
      truthy value = true -> key = K_phone_number ->
      on_str validators.validate_phone_number validators.MSG_PHONE_INVALID value
        = (true, res) ->
      merge_step_rel today merged key value (set_phone_number (VStr res) merged) []
  | ms_phone_bad res :
      truthy value = true -> key = K_phone_number ->
      on_str validators.validate_phone_number validators.MSG_PHONE_INVALID value
        = (false, res) ->
      merge_step_rel today merged key value merged [tagged K_phone_number res]
  | ms_policy_ok res :
      truthy value = true -> key = K_policy_number ->
      on_str validators.validate_policy_number validators.MSG_POLICY_INVALID value
        = (true, res) ->
      merge_step_rel today merged key value (set_policy_number (VStr res) merged) []
  | ms_policy_bad res :
      truthy value = true -> key = K_policy_number ->
      on_str validators.validate_policy_number validators.MSG_POLICY_INVALID value
        = (false, res) ->
      merge_step_rel today merged key value merged [tagged K_policy_number res]
  | ms_patient_bad d errors d' :
      truthy value = true -> key = K_patient_info -> value = VDict d ->
      validators.validate_patient_info d = Ok (false, errors, d') ->
      merge_step_rel today merged key value
        (set_patient_info (ensure PatientInfo_new (patient_info merged)) merged)
        (map (tagged K_patient_info) errors)
  | ms_patient_ok d errors d' x :
      truthy value = true -> key = K_patient_info -> value = VDict d ->
      validators.validate_patient_info d = Ok (true, errors, d') ->
      for_each (store_sub PatientInfo_setattr)
        (ensure PatientInfo_new (patient_info merged)) d' = Ok x ->
      merge_step_rel today merged key value (set_patient_info x merged) []
  | ms_time_bad d errors d' :
      truthy value = true -> key = K_available_time -> value = VDict d ->
      validators.validate_preferred_time today d = Ok (false, errors, d') ->
      merge_step_rel today merged key value
        (set_available_time (ensure PreferredTime_new (available_time merged)) merged)
        (map (tagged K_available_time) errors)
  | ms_time_ok d errors d' x :
      truthy value = true -> key = K_available_time -> value = VDict d ->
      validators.validate_preferred_time today d = Ok (true, errors, d') ->
      for_each (store_sub PreferredTime_setattr)
        (ensure PreferredTime_new (available_time merged)) d' = Ok x ->
      merge_step_rel today merged key value (set_available_time x merged) []
  | ms_ignored :
      truthy value = true ->
      key <> K_booking_type -> key <> K_phone_number -> key <> K_policy_number ->
      (key = K_patient_info -> as_dict value = None) ->
      (key = K_available_time -> as_dict value = None) ->
      merge_step_rel today merged key value merged [].

(** A Hong Kong number as the docstring of [validate_phone_number] describes
    it: eight digits, the first from 2 to 9 — the pattern [[2-9][0-9]{7}]. *)
Definition is_hk_number (s : str) : bool :=
  match s with
  | c :: rest =>
      in_range 0x32 0x39 c && forallb is_ascii_digit rest && (length rest =? 7)%nat
  | [] => false
  end.

(** The ways of writing a number apart from spaces and dashes: with [+852],
    with [852], or bare. *)
Definition phone_prefixes : list str := [validators.CC_PLUS_852; validators.CC_852; []].

(** *** Two runs of the merge loop side by side

    [z] is a record that the first run ends with; [a] is what a field holds
    at some turn of the first run and [a'] what it holds at the same turn of
    a second run that started from [z].  The second run has either caught up
    with the first, or still holds the final value. *)
Definition late (z a a' : value) : Prop := a' = a \/ a' = z.

Definition late_patient (pz p p' : PatientInfo) : Prop :=
  late (name pz) (name p) (name p') /\
  late (age pz) (age p) (age p') /\
  late (gender pz) (gender p) (gender p').

Definition late_time (tz t t' : PreferredTime) : Prop :=
  late (date tz) (date t) (date t') /\
  late (time_slot tz) (time_slot t) (time_slot t').

Definition late_sub {A} (RA : A -> A -> A -> Prop) (z x x' : sub A) : Prop :=
  x' = x \/
  (exists az a a', z = SubObj az /\ x = SubObj a /\ x' = SubObj a' /\ RA az a a') \/
  (x' = z /\ sub_truthy x = false).

Definition late_entities (z m m' : BookingEntities) : Prop :=
  late (booking_type z) (booking_type m) (booking_type m') /\
  late_sub late_patient (patient_info z) (patient_info m) (patient_info m') /\
  late (policy_number z) (policy_number m) (policy_number m') /\
  late_sub late_time (available_time z) (available_time m) (available_time m') /\
  late (phone_number z) (phone_number m) (phone_number m').

(** What a later turn can still hold in an optional field that holds [x]
    now: an object stays an object, another truthy value stays itself. *)
Definition sub_reach {A} (x z : sub A) : Prop :=
  match x with
  | SubObj _ => exists az, z = SubObj az
  | _ => sub_truthy x = true -> z = x
  end.

Definition reach (m z : BookingEntities) : Prop :=
  sub_reach (patient_info m) (patient_info z) /\
  sub_reach (available_time m) (available_time z).

(** *** Stored values that have passed their validator *)

Import validators.

Definition passed_type (v : value) : Prop :=
  v = VNone \/
  exists raw res,
    validate_appointment_type raw (Some get_clinic_appointment_types) = Ok (true, res) /\
    v = VStr res.

Definition passed_phone (v : value) : Prop :=
  v = VNone \/ exists raw res, validate_phone_number raw = (true, res) /\ v = VStr res.

Definition passed_policy (v : value) : Prop :=
  v = VNone \/ exists raw res, validate_policy_number raw = (true, res) /\ v = VStr res.

Definition passed_name (v : value) : Prop :=
  v = VNone \/ is_valid_chinese_name v = Ok true.

Definition passed_age (v : value) : Prop :=
  v = VNone \/
  exists n, py_int v = Ok (Some n) /\ validate_age_range n 0 150 = (true, []).

(** The canonical genders, or none. *)
Definition canonical_gender (v : value) : Prop :=
  v = VNone \/ v = VStr MALE \/ v = VStr FEMALE \/ v = VStr OTHER.

Definition passed_date (v : value) : Prop :=
  v = VNone \/
  exists today raw res,
    normalize_date_expression today raw = Ok (Some res) /\ res <> [] /\ v = VStr res.

Definition passed_patient (p : PatientInfo) : Prop :=
  passed_name (name p) /\ passed_age (age p) /\ canonical_gender (gender p).

(** No validator rejects a time slot, so any stored one has passed. *)
Definition passed_preferred (t : PreferredTime) : Prop := passed_date (date t).

Definition passed_sub {A} (P : A -> Prop) (x : sub A) : Prop :=
  match x with
  | SubNone => True
  | SubObj a => P a
  | SubRaw _ => False
  end.

(** Every stored field, if not null, has passed its validator. *)
Definition stored_validated (e : BookingEntities) : Prop :=
  passed_type (booking_type e) /\
  passed_sub passed_patient (patient_info e) /\
  passed_policy (policy_number e) /\
  passed_sub passed_preferred (available_time e) /\
  passed_phone (phone_number e).

(** The keys of a [dict] are distinct; here for the sub-objects of an incoming
    map. *)
Definition distinct_keys (d : dict) : Prop := NoDup (map fst d).

Definition sub_dicts_distinct (M : dict) : Prop :=
  forall k d, In (k, VDict d) M -> distinct_keys d.

(** What a field holds after a sub-object was stored: the incoming value if
    it is truthy, else what the field held. *)
Definition stored_or_kept (incoming old : value) : value :=
  if truthy incoming then incoming else old.

Definition store_patient (d : dict) (p : PatientInfo) : PatientInfo :=
  mkPatientInfo (stored_or_kept (dict_get K_name d) (name p))
                (stored_or_kept (dict_get K_age d) (age p))
                (stored_or_kept (dict_get K_gender d) (gender p)).

Definition store_time (d : dict) (t : PreferredTime) : PreferredTime :=
  mkPreferredTime (stored_or_kept (dict_get K_date d) (date t))
                  (stored_or_kept (dict_get K_time_slot d) (time_slot t)).

(** *** Inputs of the examples *)

Definition today_example : cal_date := Date 2026 11 3.

(** [{"patient_info": {"name": "John", "gender": "xyz"}}] *)
Definition john_xyz : dict :=
  [(K_name, VStr (lit "John")); (K_gender, VStr (lit "xyz"))].

(** [{"patient_info": {"name": "John", "gender": "M"}}] *)
Definition john_m : dict :=
  [(K_name, VStr (lit "John")); (K_gender, VStr (lit "M"))].

(** [{"phone_number": "abc", "patient_info": {"gender": "xyz"}}] *)
Definition unvalidated_update : dict :=
  [(K_phone_number, VStr (lit "abc"));
   (K_patient_info, VDict [(K_gender, VStr (lit "xyz"))])].

(** [{"phone_number": "+852 9123 4567", "patient_info": {"name": "John",
    "gender": "M"}}] *)
Definition valid_update : dict :=
  [(K_phone_number, VStr (lit "+852 9123 4567")); (K_patient_info, VDict john_m)].

(** The sub-keys of the two composite keys. *)
Definition patient_keys : list str := [K_name; K_age; K_gender].
Definition time_keys : list str := [K_date; K_time_slot].

(** Every non-empty sub-field of [d] is a field of the model. *)
Definition sub_keys_in (keys : list str) (d : dict) : Prop :=
  forall k v, In (k, v) d -> truthy v = true -> In k keys.

(** *** The declared shape of the input

    [booking_type] is a text; [patient_info] has a text [name], an integer
    [age] and a text [gender]; [available_time] has a text [date] and a text
    [time_slot]; any of them may be null.  The optional fields of the record
    hold what their type says: nothing or an object. *)
Definition text_or_none (v : value) : Prop :=
  match v with VNone | VStr _ => True | _ => False end.

Definition int_or_none (v : value) : Prop :=
  match v with VNone | VInt _ => True | _ => False end.

Definition declared_patient (d : dict) : Prop :=
  forall k v, In (k, v) d ->
    (k = K_name /\ text_or_none v) \/ (k = K_age /\ int_or_none v) \/
    (k = K_gender /\ text_or_none v).

Definition declared_time (d : dict) : Prop :=
  forall k v, In (k, v) d -> (k = K_date \/ k = K_time_slot) /\ text_or_none v.

Definition declared_map (M : dict) : Prop :=
  forall k v, In (k, v) M ->
    (k = K_booking_type -> text_or_none v) /\
    (k = K_patient_info -> forall d, v = VDict d -> declared_patient d) /\
    (k = K_available_time -> forall d, v = VDict d -> declared_time d).

Definition typed_sub {A} (x : sub A) : Prop :=
  match x with SubRaw _ => False | _ => True end.

Definition typed_record (e : BookingEntities) : Prop :=
  typed_sub (patient_info e) /\ typed_sub (available_time e).

(** The errors of a second merge that the first merge did not report. *)
Definition new_errors (first second : list str) : list str :=
  List.filter (fun e => negb (existsb (str_eqb e) first)) second.

(** [{"phone_number": "+852 9123 4567", "patient_info": {"name": "John",
    "gender": "xyz"}}] *)
Definition mixed_update : dict :=
  [(K_phone_number, VStr (lit "+852 9123 4567")); (K_patient_info, VDict john_xyz)].

(** [{"available_time": {"date": "明天"}}]: an appointment for tomorrow. *)
Definition tomorrow_update : dict :=
  [(K_available_time, VDict [(K_date, VStr validators.TOMORROW_1)])].

(** The day after [today_example]. *)
Definition next_day_example : cal_date := Date 2026 11 4.

(** The record of a new conversation with the date of the appointment
    set. *)
Definition booked_for (day : str) : BookingEntities :=
  set_available_time (SubObj (mkPreferredTime (VStr day) VNone)) BookingEntities_new.

(** Every non-empty sub-field under the two composite keys of [M] is a field
    of its model. *)
Definition declared_sub_keys (M : dict) : Prop :=
  forall k d, In (k, VDict d) M ->
    (k = K_patient_info -> sub_keys_in patient_keys d) /\
    (k = K_available_time -> sub_keys_in time_keys d).

(** What a name starts with that pydantic does not take for the name of a
    field. *)
Definition LEADING_UNDERSCORE : str := [0x5f].

(** *** Orders of the mandatory fields *)

(** The priority of the follow-up question: appointment type, patient
    name, appointment date, policy number, phone number. *)
Definition priority_order : list str :=
  [L_booking_type; L_patient_info; L_available_time; L_policy_number; L_phone_number].

(** The order in which [get_missing_fields] looks at the fields. *)
Definition declaration_order : list str :=
  [L_booking_type; L_patient_info; L_policy_number; L_available_time; L_phone_number].

(** [l1] is [l2] with some entries left out, the order kept. *)
Fixpoint subsequence (l1 l2 : list str) : bool :=
  match l1, l2 with
  | [], _ => true
  | _ :: _, [] => false
  | a :: l1', b :: l2' =>
      if str_eqb a b then subsequence l1' l2' else subsequence l1 l2'
  end.

Definition pick (b : bool) (label : str) : list str := if b then [label] else [].

(** A conversation that has just started. *)
Definition new_conversation : conversation.ConversationManagerOf BookingEntities :=
  conversation.mkConversationManager (lit "conv_0") conversation.GREETING
    BookingEntities_new [] [] None 0 [].

(** *** The copy in the store

    [h0] is the store [merge_entities] was entered with and [h] the store at
    some later point; [merged] is the address of the copy, and [m] the record
    that can be read off it. *)

(** Every object of [h0] is still there, unchanged. *)
Definition unchanged (h0 h : store.heap) : Prop :=
  forall l o, h0 !! l = Some o -> h !! l = Some o.

(** An optional field of the copy: what it holds is read as [y], and an
    object it points to did not exist in [h0]. *)
Definition sub_at {A} (h0 h : store.heap) (wrap : A -> store.object)
    (x : sub store.loc) (y : sub A) : Prop :=
  match x, y with
  | SubNone, SubNone => True
  | SubRaw v, SubRaw w => v = w
  | SubObj l, SubObj a => h !! l = Some (wrap a) /\ h0 !! l = None
  | _, _ => False
  end.

Definition owns (h0 h : store.heap) (merged : store.loc) (m : BookingEntities) : Prop :=
  unchanged h0 h /\
  exists e,
    h !! merged = Some (store.OBookingEntities e) /\ h0 !! merged = None /\
    booking_type e = booking_type m /\ policy_number e = policy_number m /\
    phone_number e = phone_number m /\
    sub_at h0 h store.OPatientInfo (patient_info e) (patient_info m) /\
    sub_at h0 h store.OPreferredTime (available_time e) (available_time m).

(** A store with the empty record of a new conversation at address 1. *)
Definition store_example : store.heap :=
  <[1%positive := store.OBookingEntities
                    (mkBookingEntities VNone (SubObj 2%positive) VNone
                       (SubObj 3%positive) VNone)]>
    (<[2%positive := store.OPatientInfo PatientInfo_new]>
       (<[3%positive := store.OPreferredTime PreferredTime_new]> ∅)).

Definition conversation_example : conversation.ConversationManagerOf store.loc :=
  conversation.mkConversationManager (lit "conv_0") conversation.GREETING
    1%positive [] [] None 0 [].

(** An extraction service that finds nothing, and one that always finds
    the same fields. *)
Definition llm_nothing : entity_extractor.LLMService :=
  entity_extractor.mkLLMService (fun _ _ _ => []) (fun _ _ _ => []).

Definition llm_mixed : entity_extractor.LLMService :=
  entity_extractor.mkLLMService (fun _ _ _ => mixed_update) (fun _ _ _ => []).

(** *** Further vocabulary *)

(** The text of a policy number: 6 to 20 ASCII letters and digits. *)
Definition is_policy_text (s : str) : bool :=
  forallb is_ascii_alnum s && (6 <=? length s)%nat && (length s <=? 20)%nat.

(** What the pattern [^[2-9]\d{7}$] admits in text without white space. *)
Definition is_local_number (s : str) : bool :=
  match s with
  | c :: rest => in_range 0x32 0x39 c && forallb is_digit rest && (length rest =? 7)%nat
  | [] => false
  end.

(** The entry of the catalogue that a text is matched with, if any. *)
Definition matched_type (valid_types : list str) (apt_type : str) : option str :=
  find (fun valid_type => contains valid_type apt_type || contains apt_type valid_type)
       valid_types.

(** The ASCII characters from [!] to [@]: the digits and the signs [-], [/]
    and [:] among them.  None is a letter, white space or part of a keyword. *)
Definition is_sign_or_digit (c : cp) : bool := in_range 0x21 0x40 c.

(** The calls of [add_message] in a conversation, each with the clock
    reading it was made at. *)
Record call := mkCall { call_now : str; call_role : str; call_content : str }.

Definition add_messages {E} (calls : list call) (c : conversation.ConversationManagerOf E)
    : conversation.ConversationManagerOf E :=
  fold_left (fun c k => conversation.add_message (call_now k) (call_role k) (call_content k) c) calls c.

(** The messages of the user in a history. *)
Definition user_turns (history : list conversation.message) : Z :=
  Z.of_nat (length (List.filter (fun msg => str_eqb (conversation.role msg) conversation.ROLE_USER) history)).

(** The line of a message in the context. *)
Definition context_line (msg : conversation.message) : str :=
  conversation.role msg ++ COLON_SPACE ++ conversation.content msg ++ [0xa].

(** A value with the empty ones taken as absent. *)
Definition kept (v : value) : value := if truthy v then v else VNone.

(** A field is settled when it is absent or holds a non-empty value. *)
Definition settled (v : value) : Prop := v = VNone \/ truthy v = true.

(** A mandatory field of a sub-object is filled in. *)
Definition filled_sub {A} (attr : A -> value) (x : sub A) : Prop :=
  exists a, x = SubObj a /\ truthy (attr a) = true.

(** Every mandatory field that is filled in in [m] is filled in in [m1], and
    the optional fields of [m1] hold what their type says if those of [m]
    do. *)
Definition no_less (m m1 : BookingEntities) : Prop :=
  (truthy (booking_type m) = true -> truthy (booking_type m1) = true) /\
  (filled_sub name (patient_info m) -> filled_sub name (patient_info m1)) /\
  (truthy (policy_number m) = true -> truthy (policy_number m1) = true) /\
  (filled_sub date (available_time m) -> filled_sub date (available_time m1)) /\
  (truthy (phone_number m) = true -> truthy (phone_number m1) = true) /\
  (typed_record m -> typed_record m1).

(** Every entry of the history reports success. *)
Definition all_successful (history : list store.extraction_info) : Prop :=
  Forall (fun info => store.merged_successfully info = true) history.

(** An [LLMService] whose follow-up question is the one of
    [llm_service.generate_missing_fields_question]; its extraction is left
    open. *)
Definition llm_on (extract : str -> dict -> str -> dict) (model : llm_service.Model)
    (missing_fields_prompt : list str -> str -> dict -> str) : LLMService :=
  mkLLMService extract
    (llm_service.generate_missing_fields_question model missing_fields_prompt).

(** A model that never answers. *)
Definition model_down : llm_service.Model := fun _ _ => Raise ValueError.

(** ASCII text is text of such characters. *)
Definition is_ascii (c : cp) : bool := c <? 0x80.

(** What stands between the name and the specialty in the title of an
    availability event. *)
Definition TITLE_MIDDLE : str := Eval cbv in lit " Available - ".

(** An outcome is the answer yes. *)
Definition is_yes (r : result bool) : bool :=
  match r with Ok true => true | _ => false end.

(** A slot of the example: Dr. Wang, 4 November 2026, 09:00 to 10:00. *)
Definition slot_example : DoctorSlot :=
  mkDoctorSlot (lit "dr_wang") (lit "Dr. Wang") (lit "Internal Medicine")
    (lit "2026-11-04") (lit "09:00") (lit "10:00") true.

(** Dr. Li, the same day, 19:00 to 20:00. *)
Definition slot_example_evening : DoctorSlot :=
  mkDoctorSlot (lit "dr_li") (lit "Dr. Li") (lit "Surgery")
    (lit "2026-11-04") (lit "19:00") (lit "20:00") true.

(** *** Slots *)

Import calendar_avalibility.

(** The positions of the cursor: [n] of them from [start], one slot duration
    apart. *)
Definition cursors (start : Z) (n : nat) : list Z :=
  map (fun k => (start + Z.of_nat k * slot_duration)%Z) (seq 0 n).

(** What the loop keeps: a start within business hours that no busy period
    overlaps. *)
Definition accepted (busy_periods : list (Z * Z)) (current : Z) : bool :=
  (BUSINESS_HOURS_START <=? hour current)%Z && (hour current <? BUSINESS_HOURS_END)%Z
  && negb (overlaps busy_periods current).

(** A candidate slot of the window: a position of the cursor whose slot ends
    within the window and starts within business hours. *)
Definition candidate (time_min time_max s : Z) : Prop :=
  (exists k : nat, s = round_up time_min + Z.of_nat k * slot_duration)%Z /\
  (s + slot_duration <= time_max)%Z /\
  (BUSINESS_HOURS_START <= hour s < BUSINESS_HOURS_END)%Z.

(** Some busy period [[bs, be)] has [bs < s + d] and [s < be]. *)
Definition busy_overlap (busy_periods : list (Z * Z)) (s : Z) : Prop :=
  exists bs be, In (bs, be) busy_periods /\ (bs < s + slot_duration)%Z /\ (s < be)%Z.

(** The nine slots of a day, from 09:00 to 17:00. *)
Definition nine_slots (day : Z) : list Z :=
  map (fun k => (day * DAY + k * HOUR)%Z) [9; 10; 11; 12; 13; 14; 15; 16; 17]%Z.

End props.

Import props.

(** * Properties *)

Import validators conversation entity_extractor.

(** ** Text and loops *)

Lemma cp_eqb_eq (a b : cp) : cp_eqb a b = true <-> a = b.
Proof. unfold cp_eqb. apply N.eqb_eq. Qed.

Lemma str_eqb_eq (s t : str) : str_eqb s t = true <-> s = t.
Proof.
  revert t. induction s as [|a s IH]; intros [|b t]; simpl; split;
    try congruence; try discriminate.
  - intros [Hab Hst]%andb_true_iff. apply cp_eqb_eq in Hab. apply IH in Hst.
    congruence.
  - intros [= -> ->]. apply andb_true_iff. split; [by apply cp_eqb_eq | by apply IH].
Qed.

Lemma str_eqb_refl (s : str) : str_eqb s s = true.
Proof. by apply str_eqb_eq. Qed.

Lemma str_eqb_neq (s t : str) : str_eqb s t = false <-> s <> t.
Proof.
  destruct (str_eqb s t) eqn:E.
  - apply str_eqb_eq in E. split; [discriminate | congruence].
  - split; [| done]. intros _ ->. by rewrite str_eqb_refl in E.
Qed.

Lemma bind_Ok {A B} (m : result A) (f : A -> result B) (b : B) :
  bind m f = Ok b <-> exists a, m = Ok a /\ f a = Ok b.
Proof.
  destruct m as [a|e]; simpl; split.
  - eauto.
  - by intros (a' & [= ->] & ?).
  - discriminate.
  - by intros (a' & [=] & ?).
Qed.

Lemma for_each_app {S A} (body : S -> A -> result S) (s : S) (l1 l2 : list A) :
  for_each body s (l1 ++ l2) = bind (for_each body s l1) (fun s' => for_each body s' l2).
Proof.
  revert s. induction l1 as [|x l1 IH]; intros s; simpl; [done |].
  destruct (body s x) as [s'|e]; simpl; [apply IH | done].
Qed.

(** ** Skipping of empty values *)

Lemma merge_step_falsy today st key value :
  truthy value = false -> merge_step today st (key, value) = Ok st.
Proof. intros H. destruct st as [merged all_errors]. unfold merge_step. by rewrite H. Qed.

Lemma merge_entities_skip today E M1 key value M2 :
  truthy value = false ->
  merge_entities today E (M1 ++ (key, value) :: M2) = merge_entities today E (M1 ++ M2).
Proof.
  intros H. unfold merge_entities. rewrite !for_each_app.
  destruct (for_each (merge_step today) (E, []) M1) as [st|e]; simpl; [| done].
  by rewrite merge_step_falsy.
Qed.

Lemma tagged_key (k k' m m' : str) :
  In k recognized_keys -> In k' recognized_keys -> tagged k m = tagged k' m' -> k = k'.
Proof.
  unfold recognized_keys, tagged. simpl.
  intros Hk Hk' H.
  repeat (destruct Hk as [<-|Hk]; [| try done]);
    repeat (destruct Hk' as [<-|Hk']; [| try done]);
    try reflexivity; exfalso; cbv in H; congruence.
Qed.

Ltac key_cases :=
  repeat match goal with
    | |- context [str_eqb ?a ?b] =>
        let E := fresh "E" in
        destruct (str_eqb a b) eqn:E;
        [apply str_eqb_eq in E; try subst | apply str_eqb_neq in E]
    end.

Lemma getattr_set_booking_type k v (e : BookingEntities) :
  k <> K_booking_type -> getattr k (set_booking_type v e) = getattr k e.
Proof. intros H. unfold getattr. key_cases; done. Qed.

Lemma getattr_set_phone_number k v (e : BookingEntities) :
  k <> K_phone_number -> getattr k (set_phone_number v e) = getattr k e.
Proof. intros H. unfold getattr. key_cases; done. Qed.

Lemma getattr_set_policy_number k v (e : BookingEntities) :
  k <> K_policy_number -> getattr k (set_policy_number v e) = getattr k e.
Proof. intros H. unfold getattr. key_cases; done. Qed.

Lemma getattr_set_patient_info k x (e : BookingEntities) :
  k <> K_patient_info -> getattr k (set_patient_info x e) = getattr k e.
Proof. intros H. unfold getattr. key_cases; done. Qed.

Lemma getattr_set_available_time k x (e : BookingEntities) :
  k <> K_available_time -> getattr k (set_available_time x e) = getattr k e.
Proof. intros H. unfold getattr. key_cases; done. Qed.

(** ** One turn of the merge loop *)

Lemma merge_step_rel_sound today m es k v m1 es1 :
  merge_step today (m, es) (k, v) = Ok (m1, es1) ->
  exists g, es1 = es ++ g /\ merge_step_rel today m k v m1 g.
Proof.
  unfold merge_step.
  destruct (truthy v) eqn:Hv; simpl.
  2:{ intros [= <- <-]. exists []. rewrite app_nil_r. split; [done | by constructor]. }
  destruct (str_eqb k K_booking_type) eqn:E1.
  { apply str_eqb_eq in E1.
    destruct (validate_appointment_type v _) as [[[] res]|e] eqn:Hval; simpl;
      [| | discriminate]; intros [= <- <-].
    - exists []. rewrite app_nil_r. split; [done | by eapply ms_type_ok].
    - eexists. split; [done | by eapply ms_type_bad]. }
  destruct (str_eqb k K_phone_number) eqn:E2.
  { apply str_eqb_eq in E2.
    destruct (on_str validate_phone_number _ v) as [[] res] eqn:Hval; intros [= <- <-].
    - exists []. rewrite app_nil_r. split; [done | by eapply ms_phone_ok].
    - eexists. split; [done | by eapply ms_phone_bad]. }
  destruct (str_eqb k K_policy_number) eqn:E3.
  { apply str_eqb_eq in E3.
    destruct (on_str validate_policy_number _ v) as [[] res] eqn:Hval; intros [= <- <-].
    - exists []. rewrite app_nil_r. split; [done | by eapply ms_policy_ok].
    - eexists. split; [done | by eapply ms_policy_bad]. }
  apply str_eqb_neq in E1, E2, E3.
  destruct (str_eqb k K_patient_info) eqn:E4.
  { apply str_eqb_eq in E4. destruct v as [| | | | |d]; simpl.
    6:{ destruct (validate_patient_info d) as [[[[] errors] d']|e] eqn:Hval; simpl;
          [| | discriminate].
        - destruct (for_each _ _ d') as [x|e] eqn:Hx; simpl; [| discriminate].
          intros [= <- <-]. exists []. rewrite app_nil_r. split; [done |].
          change (merge_step_rel today m k (VDict d) (set_patient_info x m) []).
          by eapply ms_patient_ok.
        - intros [= <- <-]. eexists. split; [done | by eapply ms_patient_bad]. }
    all: assert (k <> K_available_time) by (subst k; by cbv).
    all: assert (Hk : str_eqb k K_available_time = false) by by apply str_eqb_neq.
    all: rewrite Hk; intros [= <- <-]; exists []; rewrite app_nil_r.
    all: split; [done | by apply ms_ignored]. }
  apply str_eqb_neq in E4.
  destruct (str_eqb k K_available_time) eqn:E5.
  { apply str_eqb_eq in E5. destruct v as [| | | | |d]; simpl.
    6:{ destruct (validate_preferred_time today d) as [[[[] errors] d']|e] eqn:Hval;
          simpl; [| | discriminate].
        - destruct (for_each _ _ d') as [x|e] eqn:Hx; simpl; [| discriminate].
          intros [= <- <-]. exists []. rewrite app_nil_r. split; [done |].
          change (merge_step_rel today m k (VDict d) (set_available_time x m) []).
          by eapply ms_time_ok.
        - intros [= <- <-]. eexists. split; [done | by eapply ms_time_bad]. }
    all: intros [= <- <-]; exists []; rewrite app_nil_r.
    all: split; [done | by apply ms_ignored]. }
  apply str_eqb_neq in E5.
  intros [= <- <-]. exists []. rewrite app_nil_r.
  split; [done | by apply ms_ignored].
Qed.

Lemma merge_step_rel_complete today m es k v m1 g :
  merge_step_rel today m k v m1 g ->
  merge_step today (m, es) (k, v) = Ok (m1, es ++ g).
Proof.
  intros H. unfold merge_step.
  destruct H as [Hv|res Hv -> Hval|res Hv -> Hval|res Hv -> Hval|res Hv -> Hval
                |res Hv -> Hval|res Hv -> Hval|d errors d' Hv -> -> Hval
                |d errors d' x Hv -> -> Hval Hx|d errors d' Hv -> -> Hval
                |d errors d' x Hv -> -> Hval Hx|Hv N1 N2 N3 N4 N5];
    rewrite Hv; simpl; rewrite ?app_nil_r.
  - done.
  - rewrite Hval. done.
  - rewrite Hval. done.
  - rewrite Hval. done.
  - rewrite Hval. done.
  - rewrite Hval. done.
  - rewrite Hval. done.
  - rewrite Hval. done.
  - rewrite Hval. simpl. rewrite Hx. done.
  - rewrite Hval. done.
  - rewrite Hval. simpl. rewrite Hx. done.
  - apply str_eqb_neq in N1, N2, N3. rewrite N1, N2, N3.
    destruct (str_eqb k K_patient_info) eqn:E4.
    + apply str_eqb_eq in E4. rewrite (N4 E4).
      assert (Hk : str_eqb k K_available_time = false)
        by (apply str_eqb_neq; subst k; by cbv).
      by rewrite Hk.
    + destruct (str_eqb k K_available_time) eqn:E5; [| done].
      apply str_eqb_eq in E5. by rewrite (N5 E5).
Qed.

Lemma merge_loop_cons today i l m es z errs :
  for_each (merge_step today) (m, es) (i :: l) = Ok (z, errs) ->
  exists m1 g, merge_step_rel today m i.1 i.2 m1 g /\
               for_each (merge_step today) (m1, es ++ g) l = Ok (z, errs).
Proof.
  simpl. intros ([m1 es1] & Hstep & Hrest)%bind_Ok.
  destruct i as [k v]. apply merge_step_rel_sound in Hstep as (g & -> & Hrel).
  eauto.
Qed.

(** A turn for one key leaves the fields of the other keys as they are. *)
Lemma merge_step_rel_frame today m k' v m1 g k :
  merge_step_rel today m k' v m1 g -> k' <> k -> getattr k m1 = getattr k m.
Proof.
  intros H Hk. destruct H; subst; try done.
  - by apply getattr_set_booking_type.
  - by apply getattr_set_phone_number.
  - by apply getattr_set_policy_number.
  - by apply getattr_set_patient_info.
  - by apply getattr_set_patient_info.
  - by apply getattr_set_available_time.
  - by apply getattr_set_available_time.
Qed.

(** The errors of a turn are recorded for the key of the turn, which is then
    a recognized one. *)
Lemma merge_step_rel_errors today m k v m1 g e :
  merge_step_rel today m k v m1 g -> In e g ->
  In k recognized_keys /\ recorded_for k e.
Proof.
  unfold recognized_keys, recorded_for.
  intros H He. destruct H; subst; simpl in He; try done.
  - destruct He as [<-|[]]. split; [simpl; auto 10 | eauto].
  - destruct He as [<-|[]]. split; [simpl; auto 10 | eauto].
  - destruct He as [<-|[]]. split; [simpl; auto 10 | eauto].
  - apply in_map_iff in He as (msg & <- & _). split; [simpl; auto 10 | eauto].
  - apply in_map_iff in He as (msg & <- & _). split; [simpl; auto 10 | eauto].
Qed.

Lemma merge_loop_empty_key today k l : forall m es z errs,
  In k recognized_keys ->
  (forall v, In (k, v) l -> truthy v = false) ->
  for_each (merge_step today) (m, es) l = Ok (z, errs) ->
  getattr k z = getattr k m /\
  exists g, errs = es ++ g /\ forall e, In e g -> ~ recorded_for k e.
Proof.
  induction l as [|[k' v] l IH]; intros m es z errs Hk Hall Hrun.
  - simpl in Hrun. injection Hrun as <- <-. split; [done |].
    exists []. rewrite app_nil_r. split; [done | intros e []].
  - apply merge_loop_cons in Hrun as (m1 & g & Hrel & Hrest). simpl in Hrel.
    apply IH in Hrest as (Hz & g' & -> & Hg'); [| done |].
    2:{ intros v' Hin. apply Hall. by right. }
    assert (Hstep : getattr k m1 = getattr k m /\ forall e, In e g -> ~ recorded_for k e).
    { destruct (decide (k' = k)) as [->|Hne].
      - assert (Hv : truthy v = false) by (apply Hall; by left).
        inversion Hrel; subst; try congruence. split; [done | intros e []].
      - split; [by eapply merge_step_rel_frame |].
        intros e He [msg ->].
        destruct (merge_step_rel_errors _ _ _ _ _ _ _ Hrel He) as [Hk' [msg' Heq]].
        apply Hne. symmetry. by eapply tagged_key. }
    destruct Hstep as [Hm1 Hg]. split; [congruence |].
    exists (g ++ g'). rewrite app_assoc. split; [done |].
    intros e [He|He]%in_app_iff; [by apply Hg | by apply Hg'].
Qed.

(** C7 — merge never overwrites with empty.  An incoming value that is
    falsy (null, false, zero, empty text, empty list or dict) makes its key a
    turn without effect: the merge of a map is the merge of the map without
    that item; merging the single item gives back the record and no error;
    and when every value of a recognized key in the map is falsy, the merged
    record has the prior value of that field and no error is recorded for the
    key. *)
Theorem merge_never_overwrites_with_empty today E key value :
  truthy value = false ->
  (forall M1 M2,
     merge_entities today E (M1 ++ (key, value) :: M2)
     = merge_entities today E (M1 ++ M2)) /\
  merge_entities today E [(key, value)] = Ok (E, []) /\
  (forall M E' errs,
     In key recognized_keys -> In (key, value) M ->
     (forall v, In (key, v) M -> truthy v = false) ->
     merge_entities today E M = Ok (E', errs) ->
     getattr key E' = getattr key E /\ forall e, In e errs -> ~ recorded_for key e).
Proof.
  intros Hv. split; [| split].
  - intros M1 M2. by apply merge_entities_skip.
  - unfold merge_entities. cbn [for_each]. by rewrite merge_step_falsy.
  - intros M E' errs Hk _ Hall Hrun.
    destruct (merge_loop_empty_key _ _ _ _ _ _ _ Hk Hall Hrun) as (HE & g & -> & Hg).
    done.
Qed.

Lemma merge_never_overwrites_with_empty_witness :
  truthy (VStr []) = false /\
  merge_entities (Date 2026 11 3)
    (set_phone_number (VStr (lit "91234567")) BookingEntities_new)
    [(K_phone_number, VStr [])]
  = Ok (set_phone_number (VStr (lit "91234567")) BookingEntities_new, []).
Proof.
  split; [reflexivity |].
  apply (merge_never_overwrites_with_empty (Date 2026 11 3)
           (set_phone_number (VStr (lit "91234567")) BookingEntities_new)
           K_phone_number (VStr [])).
  reflexivity.
Defined.

(** ** Phone numbers *)

Lemma is_ascii_digit_is_digit c : is_ascii_digit c = true -> is_digit c = true.
Proof.
  intros H. unfold is_digit, digit_value.
  change (find _ decimal_bases)
    with (if in_range 0x30 0x39 c then Some 0x30
          else find (fun b => in_range b (b + 9) c) (tail decimal_bases)).
  unfold is_ascii_digit in H. by rewrite H.
Qed.

Lemma is_hk_number_match d : is_hk_number d = true -> match_hk_phone d = true.
Proof.
  destruct d as [|c rest]; [done |]. simpl.
  intros [[Hc Hrest]%andb_true_iff Hlen%Nat.eqb_eq]%andb_true_iff.
  rewrite Hc. rewrite take_ge, drop_ge by lia. rewrite Hlen. simpl.
  rewrite !andb_true_r. apply forallb_forall. intros x Hx.
  apply is_ascii_digit_is_digit. rewrite forallb_forall in Hrest. by apply Hrest.
Qed.

Lemma is_hk_number_first d :
  is_hk_number d = true -> exists c rest, d = c :: rest /\ in_range 0x32 0x39 c = true.
Proof.
  destruct d as [|c rest]; [done |]. simpl.
  intros [[Hc _]%andb_true_iff _]%andb_true_iff. eauto.
Qed.

(** What the code accepts: a number written with a country code, or a bare
    number that does not itself start with 852. *)
Lemma validate_phone_number_accepts written prefix d :
  is_hk_number d = true ->
  remove_spaces_dashes written = prefix ++ d ->
  prefix = CC_PLUS_852 \/ prefix = CC_852 \/ (prefix = [] /\ startswith CC_852 d = false) ->
  validate_phone_number written = (true, d).
Proof.
  intros Hd Hclean Hprefix. unfold validate_phone_number.
  destruct written as [|w ws].
  { simpl in Hclean. destruct prefix; [| done]. simpl in Hclean. by subst d. }
  rewrite Hclean.
  assert (Hcc : remove_country_code (prefix ++ d) = d).
  { destruct (is_hk_number_first d Hd) as (c & rest & -> & Hc).
    destruct Hprefix as [->|[->|[-> Hno]]]; unfold remove_country_code.
    - unfold CC_PLUS_852. cbn [app strip_prefix]. by rewrite !(proj2 (cp_eqb_eq _ _) eq_refl).
    - unfold CC_PLUS_852, CC_852. cbn [app strip_prefix].
      change (cp_eqb 43 56) with false. cbn iota.
      by rewrite !(proj2 (cp_eqb_eq _ _) eq_refl).
    - unfold startswith in Hno. cbn [app].
      destruct (strip_prefix CC_852 (c :: rest)); [done |].
      assert (Hplus : cp_eqb 0x2b c = false).
      { unfold in_range in Hc. apply andb_true_iff in Hc as [Hlo%N.leb_le _].
        unfold cp_eqb. apply N.eqb_neq. lia. }
      unfold CC_PLUS_852. cbn [strip_prefix]. by rewrite Hplus. }
  rewrite Hcc. by rewrite (is_hk_number_match d Hd).
Qed.

Lemma strip_prefix_Some p s r : strip_prefix p s = Some r -> s = p ++ r.
Proof.
  revert s. induction p as [|a p IH]; intros [|b s]; simpl; try congruence.
  destruct (cp_eqb a b) eqn:E; [| done]. apply cp_eqb_eq in E as ->.
  intros H%IH. by subst.
Qed.

Lemma is_ascii_digit_kept c :
  is_ascii_digit c = true -> negb (is_space c || cp_eqb c 0x2d) = true.
Proof.
  unfold is_ascii_digit, in_range.
  intros [Hlo%N.leb_le Hhi%N.leb_le]%andb_true_iff.
  apply negb_true_iff, orb_false_iff. split.
  - unfold is_space, space_table, cp_eqb. cbn [existsb].
    repeat (apply orb_false_iff; split; [apply N.eqb_neq; lia |]). done.
  - unfold cp_eqb. apply N.eqb_neq. lia.
Qed.

Lemma remove_spaces_dashes_digits s :
  forallb is_ascii_digit s = true -> remove_spaces_dashes s = s.
Proof.
  unfold remove_spaces_dashes. induction s as [|c s IH]; [done |].
  cbn [forallb List.filter]. intros [Hc Hs]%andb_true_iff.
  rewrite (is_ascii_digit_kept c Hc). by rewrite IH.
Qed.

Lemma is_hk_number_digits d :
  is_hk_number d = true -> forallb is_ascii_digit d = true /\ length d = 8%nat.
Proof.
  destruct d as [|c rest]; [done |]. cbn [is_hk_number forallb length].
  intros [[Hc Hrest]%andb_true_iff Hlen%Nat.eqb_eq]%andb_true_iff.
  split; [| lia]. rewrite Hrest, andb_true_r.
  unfold is_ascii_digit, in_range in *.
  apply andb_true_iff in Hc as [Hlo%N.leb_le Hhi%N.leb_le].
  apply andb_true_iff. split; apply N.leb_le; lia.
Qed.

Lemma match_hk_phone_length s : match_hk_phone s = true -> (8 <= length s)%nat.
Proof.
  destruct s as [|c rest]; [done |]. cbn [match_hk_phone length].
  intros [[_ Hlen%Nat.eqb_eq]%andb_true_iff _]%andb_true_iff.
  rewrite length_take in Hlen. lia.
Qed.

(** What the code rejects that it should not: a bare number starting with
    852 loses these three digits to the removal of the country code. *)
Lemma validate_phone_number_bare_852 d :
  is_hk_number d = true -> startswith CC_852 d = true ->
  validate_phone_number d = (false, MSG_PHONE_INVALID).
Proof.
  intros Hd H852. destruct (is_hk_number_digits d Hd) as [Hdigits Hlen].
  destruct (is_hk_number_first d Hd) as (c & rest & -> & Hc).
  unfold validate_phone_number. rewrite (remove_spaces_dashes_digits _ Hdigits).
  unfold startswith in H852.
  destruct (strip_prefix CC_852 (c :: rest)) as [r|] eqn:Hr; [| done].
  unfold remove_country_code. rewrite Hr.
  assert (Hplus : strip_prefix CC_PLUS_852 (c :: rest) = None).
  { unfold CC_PLUS_852. cbn [strip_prefix].
    assert (H : cp_eqb 43 c = false); [| by rewrite H].
    unfold in_range in Hc. apply andb_true_iff in Hc as [Hlo%N.leb_le _].
    unfold cp_eqb. apply N.eqb_neq. lia. }
  rewrite Hplus. apply strip_prefix_Some in Hr.
  destruct (match_hk_phone r) eqn:Hm; [| done].
  apply match_hk_phone_length in Hm. rewrite Hr, length_app in Hlen.
  unfold CC_852 in Hlen. simpl in Hlen. lia.
Qed.

(** The text of a list or of a dict starts with a bracket or a brace, and
    such a text is rejected by both validators with the one message:
    what [on_str] answers for these values. *)
Lemma validate_phone_number_bracket c s :
  c = 0x5b \/ c = 0x7b -> validate_phone_number (c :: s) = (false, MSG_PHONE_INVALID).
Proof.
  intros Hc. unfold validate_phone_number, remove_spaces_dashes.
  cbn [List.filter].
  assert (Hkeep : negb (is_space c || cp_eqb c 45) = true)
    by (destruct Hc as [-> | ->]; vm_compute; reflexivity).
  rewrite Hkeep. unfold remove_country_code, CC_PLUS_852, CC_852. cbn [strip_prefix].
  assert (H1 : cp_eqb 43 c = false) by (destruct Hc as [-> | ->]; reflexivity).
  assert (H2 : cp_eqb 56 c = false) by (destruct Hc as [-> | ->]; reflexivity).
  rewrite H1, H2. unfold match_hk_phone.
  assert (H3 : in_range 50 57 c = false) by (destruct Hc as [-> | ->]; reflexivity).
  by rewrite H3.
Qed.

Lemma validate_policy_number_bracket c s :
  c = 0x5b \/ c = 0x7b -> validate_policy_number (c :: s) = (false, MSG_POLICY_INVALID).
Proof.
  intros Hc. unfold validate_policy_number, match_policy. cbn [span].
  assert (H : is_ascii_alnum c = false) by (destruct Hc as [-> | ->]; reflexivity).
  rewrite H. reflexivity.
Qed.

(** C9 — phone validation.  The number 8521 2345 is eight digits, the first
    of them between 2 and 9, and is written bare; [validate_phone_number]
    takes its first three digits for the country code and rejects it, with
    or without a space in it. *)
Theorem validate_phone_number_rejects_local_852 :
  is_hk_number (lit "85212345") = true /\
  In [] phone_prefixes /\
  remove_spaces_dashes (lit "8521 2345") = [] ++ lit "85212345" /\
  validate_phone_number (lit "85212345") = (false, MSG_PHONE_INVALID) /\
  validate_phone_number (lit "8521 2345") = (false, MSG_PHONE_INVALID).
Proof. repeat split; try (vm_compute; reflexivity). unfold phone_prefixes. simpl. auto. Qed.

(** The same number with the country code goes through, and comes back as a
    text that the validator itself rejects. *)
Lemma validate_phone_number_not_stable :
  validate_phone_number (lit "+852 8521 2345") = (true, lit "85212345") /\
  validate_phone_number (lit "85212345") = (false, MSG_PHONE_INVALID).
Proof. split; vm_compute; reflexivity. Qed.

(** [\d] is wider than [[0-9]]: seven Arabic-Indic digits after a 9 pass. *)
Lemma validate_phone_number_unicode_digits :
  let s := 0x39 :: [0x661; 0x662; 0x663; 0x664; 0x665; 0x666; 0x667] in
  is_hk_number s = false /\ validate_phone_number s = (true, s).
Proof. split; vm_compute; reflexivity. Qed.

(** An accepted number is what is left of the input, and matches the
    pattern of the validator. *)
Lemma validate_phone_number_sound phone res :
  validate_phone_number phone = (true, res) ->
  res = remove_country_code (remove_spaces_dashes phone) /\ match_hk_phone res = true.
Proof.
  unfold validate_phone_number. destruct phone as [|c phone]; [done |].
  destruct (match_hk_phone _) eqn:H; [| done]. by intros [= <-].
Qed.

(** Whatever is not accepted is rejected with a message. *)
Lemma validate_phone_number_rejects phone :
  match_hk_phone (remove_country_code (remove_spaces_dashes phone)) = false ->
  exists message, validate_phone_number phone = (false, message) /\ message <> [].
Proof.
  intros H. unfold validate_phone_number. destruct phone as [|c phone].
  - by exists MSG_PHONE_EMPTY.
  - rewrite H. by exists MSG_PHONE_INVALID.
Qed.

(** ** Idempotence of the merge *)

Lemma PatientInfo_setattr_late pz k v p p' p1 :
  late_patient pz p p' -> PatientInfo_setattr k v p = Ok p1 ->
  exists p1', PatientInfo_setattr k v p' = Ok p1' /\ late_patient pz p1 p1'.
Proof.
  unfold PatientInfo_setattr, late_patient, late. intros (Hn & Ha & Hg).
  repeat (destruct (str_eqb k _); [intros [= <-]; eexists; (split; [done |]);
                                   simpl; tauto |]).
  done.
Qed.

Lemma PreferredTime_setattr_late tz k v t t' t1 :
  late_time tz t t' -> PreferredTime_setattr k v t = Ok t1 ->
  exists t1', PreferredTime_setattr k v t' = Ok t1' /\ late_time tz t1 t1'.
Proof.
  unfold PreferredTime_setattr, late_time, late. intros (Hd & Hs).
  repeat (destruct (str_eqb k _); [intros [= <-]; eexists; (split; [done |]);
                                   simpl; tauto |]).
  done.
Qed.

Section stores.
Context {A : Type} (setattr : str -> value -> A -> result A).
Context (RA : A -> A -> A -> Prop).
Hypothesis setattr_late : forall az k v a a' a1,
  RA az a a' -> setattr k v a = Ok a1 ->
  exists a1', setattr k v a' = Ok a1' /\ RA az a1 a1'.

(** Storing into an object gives an object, and the two runs stay
    related. *)
Lemma store_sub_late az W : forall a a' x1,
  RA az a a' ->
  for_each (store_sub setattr) (SubObj a) W = Ok x1 ->
  exists a1 a1', x1 = SubObj a1 /\
    for_each (store_sub setattr) (SubObj a') W = Ok (SubObj a1') /\ RA az a1 a1'.
Proof.
  induction W as [|[k v] W IH]; intros a a' x1 HR; cbn [for_each].
  - intros [= <-]. eauto.
  - unfold store_sub at 1 3. destruct (truthy v).
    + cbn [sub_setattr]. destruct (setattr k v a) as [a1|e] eqn:Hset; [| done].
      destruct (setattr_late _ _ _ _ _ _ HR Hset) as (a1' & -> & HR1).
      cbn [bind]. by apply IH.
    + cbn [bind]. by apply IH.
Qed.

(** Storing into an object gives an object. *)
Lemma store_sub_obj W : forall a x1,
  for_each (store_sub setattr) (SubObj a) W = Ok x1 -> exists a1, x1 = SubObj a1.
Proof.
  induction W as [|[k v] W IH]; intros a x1; cbn [for_each].
  - intros [= <-]. eauto.
  - unfold store_sub at 1. destruct (truthy v).
    + cbn [sub_setattr]. destruct (setattr k v a) as [a1|e]; [| done].
      cbn [bind]. apply IH.
    + cbn [bind]. apply IH.
Qed.

(** Storing that goes through on something that is not an object has
    stored nothing. *)
Lemma store_sub_not_obj W : forall x x1,
  (forall a, x <> SubObj a) ->
  for_each (store_sub setattr) x W = Ok x1 -> x1 = x.
Proof.
  induction W as [|[k v] W IH]; intros x x1 Hx; cbn [for_each].
  - by intros [= <-].
  - unfold store_sub at 1. destruct (truthy v).
    + destruct x as [|a|r]; [done | by destruct (Hx a) | done].
    + cbn [bind]. by apply IH.
Qed.

Lemma store_sub_reach new x W x1 :
  for_each (store_sub setattr) (ensure new x) W = Ok x1 -> sub_reach x x1.
Proof.
  intros H. destruct x as [|a|r]; cbn [sub_reach sub_truthy].
  - done.
  - unfold ensure in H. cbn [sub_truthy] in H. by apply store_sub_obj in H.
  - intros Hr. unfold ensure in H. cbn [sub_truthy] in H. rewrite Hr in H.
    by apply store_sub_not_obj in H.
Qed.

Lemma ensure_reach new (x : sub A) : sub_reach x (ensure new x).
Proof.
  destruct x as [|a|r]; cbn [sub_reach sub_truthy]; unfold ensure;
    cbn [sub_truthy]; [done | eauto |]. by intros ->.
Qed.

Lemma sub_reach_refl (x : sub A) : sub_reach x x.
Proof. destruct x; cbn [sub_reach]; eauto. Qed.

Lemma sub_reach_trans (x y z : sub A) : sub_reach x y -> sub_reach y z -> sub_reach x z.
Proof.
  destruct x as [|a|r]; cbn [sub_reach sub_truthy].
  - done.
  - intros [ay ->]. done.
  - intros Hy Hz Hr. rewrite (Hy Hr) in *. cbn [sub_reach sub_truthy] in Hz. auto.
Qed.

(** One composite turn, seen from the two runs: the first run stores [W]
    into [ensure new x], the second into [ensure new x']. *)
Lemma composite_late new z x x' W x1 :
  (forall az, RA az new az) ->
  late_sub RA z x x' -> sub_reach x1 z ->
  for_each (store_sub setattr) (ensure new x) W = Ok x1 ->
  exists x1', for_each (store_sub setattr) (ensure new x') W = Ok x1' /\
              late_sub RA z x1 x1'.
Proof.
  intros Hnew [->|[(az & a & a' & -> & -> & -> & HR)|[-> Hx]]] Hreach Hrun.
  - exists x1. split; [done | by left].
  - unfold ensure in *. cbn [sub_truthy] in *.
    destruct (store_sub_late _ _ _ _ _ HR Hrun) as (a1 & a1' & -> & Hrun' & HR1).
    exists (SubObj a1'). split; [done |]. right. left. eauto 10.
  - unfold ensure in Hrun. rewrite Hx in Hrun.
    destruct (store_sub_obj _ _ _ Hrun) as [a1 ->].
    cbn [sub_reach] in Hreach. destruct Hreach as [az ->].
    unfold ensure. cbn [sub_truthy].
    destruct (store_sub_late az _ _ az _ (Hnew az) Hrun) as (b1 & b1' & [= <-] & Hrun' & HR1).
    exists (SubObj b1'). split; [done |]. right. left. eauto 10.
Qed.
End stores.

Lemma late_new_patient az : late_patient az PatientInfo_new az.
Proof. unfold late_patient, late. tauto. Qed.

Lemma late_new_time az : late_time az PreferredTime_new az.
Proof. unfold late_time, late. tauto. Qed.

Lemma merge_step_rel_reach today m k v m1 g :
  merge_step_rel today m k v m1 g -> reach m m1.
Proof.
  intros H. unfold reach.
  destruct H; cbn [patient_info available_time set_booking_type set_phone_number
                   set_policy_number set_patient_info set_available_time];
    try (split; apply sub_reach_refl).
  - split; [apply ensure_reach | apply sub_reach_refl].
  - split; [by eapply store_sub_reach | apply sub_reach_refl].
  - split; [apply sub_reach_refl | apply ensure_reach].
  - split; [apply sub_reach_refl | by eapply store_sub_reach].
Qed.

Lemma merge_loop_reach today l : forall m es z errs,
  for_each (merge_step today) (m, es) l = Ok (z, errs) -> reach m z.
Proof.
  induction l as [|i l IH]; intros m es z errs H.
  - injection H as <- <-. split; apply sub_reach_refl.
  - apply merge_loop_cons in H as (m1 & g & Hrel%merge_step_rel_reach & Hrest%IH).
    destruct Hrel, Hrest. split; by eapply sub_reach_trans.
Qed.

Lemma late_entities_start E z : reach E z -> late_entities z E z.
Proof.
  intros [Hp Ht]. unfold late_entities, late.
  assert (Hsub : forall A (RA : A -> A -> A -> Prop) (x y : sub A),
             (forall a az, RA az a az) -> sub_reach x y -> late_sub RA y x y).
  { intros A RA x y HRA Hxy. destruct x as [|a|r]; cbn [sub_reach sub_truthy] in Hxy.
    - right. right. done.
    - destruct Hxy as [az ->]. right. left. eauto 10.
    - destruct (truthy r) eqn:Hr.
      + left. auto.
      + right. right. done. }
  repeat split; auto.
  - apply Hsub; [| done]. intros a az. unfold late_patient, late. tauto.
  - apply Hsub; [| done]. intros a az. unfold late_time, late. tauto.
Qed.

Lemma late_entities_final z m' : late_entities z z m' -> m' = z.
Proof.
  assert (Hv : forall a a', late a a a' -> a' = a) by (intros a a' [|]; done).
  intros (Hb & Hp & Hpol & Ht & Hph).
  destruct z as [zb zp zpol zt zph], m' as [b p pol t ph].
  cbn [booking_type patient_info policy_number available_time phone_number] in *.
  apply Hv in Hb, Hpol, Hph. subst. f_equal.
  - destruct Hp as [->|[(az & a & a' & -> & [= <-] & -> & Hn & Ha & Hg)|[-> _]]];
      [done | | done].
    apply Hv in Hn, Ha, Hg. destruct az, a'. simpl in *. by subst.
  - destruct Ht as [->|[(az & a & a' & -> & [= <-] & -> & Hd & Hs)|[-> _]]];
      [done | | done].
    apply Hv in Hd, Hs. destruct az, a'. simpl in *. by subst.
Qed.

(** One turn, seen from the two runs. *)
Lemma merge_step_rel_late today z m m' k v m1 g :
  merge_step_rel today m k v m1 g -> late_entities z m m' -> reach m1 z ->
  exists m1', merge_step_rel today m' k v m1' g /\ late_entities z m1 m1'.
Proof.
  intros H (Hb & Hp & Hpol & Ht & Hph) [Rp Rt].
  destruct H as [Hv|res Hv Hk Hval|res Hv Hk Hval|res Hv Hk Hval|res Hv Hk Hval
                |res Hv Hk Hval|res Hv Hk Hval|d errors d' Hv Hk Hd Hval
                |d errors d' x Hv Hk Hd Hval Hx|d errors d' Hv Hk Hd Hval
                |d errors d' x Hv Hk Hd Hval Hx|Hv N1 N2 N3 N4 N5].
  - exists m'. split; [by constructor | done].
  - exists (set_booking_type (VStr res) m'). split; [by eapply ms_type_ok |].
    repeat split; try done. by left.
  - exists m'. split; [by eapply ms_type_bad | done].
  - exists (set_phone_number (VStr res) m'). split; [by eapply ms_phone_ok |].
    repeat split; try done. by left.
  - exists m'. split; [by eapply ms_phone_bad | done].
  - exists (set_policy_number (VStr res) m'). split; [by eapply ms_policy_ok |].
    repeat split; try done. by left.
  - exists m'. split; [by eapply ms_policy_bad | done].
  - cbn [patient_info set_patient_info] in Rp.
    destruct (composite_late PatientInfo_setattr late_patient PatientInfo_setattr_late
                PatientInfo_new _ _ _ [] _ late_new_patient Hp Rp eq_refl)
      as (x1' & [= <-] & Hlate).
    eexists. split; [by eapply ms_patient_bad |]. repeat split; done.
  - cbn [patient_info set_patient_info] in Rp.
    destruct (composite_late PatientInfo_setattr late_patient PatientInfo_setattr_late
                PatientInfo_new _ _ _ _ _ late_new_patient Hp Rp Hx)
      as (x1' & Hrun' & Hlate).
    exists (set_patient_info x1' m'). split; [by eapply ms_patient_ok |].
    repeat split; done.
  - cbn [available_time set_available_time] in Rt.
    destruct (composite_late PreferredTime_setattr late_time PreferredTime_setattr_late
                PreferredTime_new _ _ _ [] _ late_new_time Ht Rt eq_refl)
      as (x1' & [= <-] & Hlate).
    eexists. split; [by eapply ms_time_bad |]. repeat split; done.
  - cbn [available_time set_available_time] in Rt.
    destruct (composite_late PreferredTime_setattr late_time PreferredTime_setattr_late
                PreferredTime_new _ _ _ _ _ late_new_time Ht Rt Hx)
      as (x1' & Hrun' & Hlate).
    exists (set_available_time x1' m'). split; [by eapply ms_time_ok |].
    repeat split; done.
  - exists m'. split; [by apply ms_ignored | done].
Qed.

Lemma merge_loop_late today l : forall m es m' es' z errs,
  for_each (merge_step today) (m, es) l = Ok (z, errs) ->
  late_entities z m m' ->
  exists g, errs = es ++ g /\
            for_each (merge_step today) (m', es') l = Ok (z, es' ++ g).
Proof.
  induction l as [|[k v] l IH]; intros m es m' es' z errs Hrun Hlate.
  - injection Hrun as <- <-. apply late_entities_final in Hlate as ->.
    exists []. by rewrite !app_nil_r.
  - apply merge_loop_cons in Hrun as (m1 & g1 & Hrel & Hrest). cbn [fst snd] in Hrel.
    pose proof (merge_loop_reach _ _ _ _ _ _ Hrest) as Hreach.
    destruct (merge_step_rel_late _ _ _ _ _ _ _ _ Hrel Hlate Hreach) as (m1' & Hrel' & Hlate1).
    destruct (IH _ _ m1' (es' ++ g1) _ _ Hrest Hlate1) as (g2 & -> & Hrest').
    exists (g1 ++ g2). rewrite !app_assoc. split; [done |].
    cbn [for_each]. rewrite (merge_step_rel_complete _ _ es' _ _ _ _ Hrel').
    cbn [bind]. by rewrite <- !app_assoc in *.
Qed.

Lemma merge_entities_twice today E M E' errs :
  merge_entities today E M = Ok (E', errs) ->
  merge_entities today E' M = Ok (E', errs).
Proof.
  unfold merge_entities. intros Hrun.
  pose proof (late_entities_start _ _ (merge_loop_reach _ _ _ _ _ _ Hrun)) as Hlate.
  destruct (merge_loop_late _ _ _ _ E' [] _ _ Hrun Hlate) as (g & -> & Hrun').
  done.
Qed.

(** ** The composite validators *)

Lemma dict_get_in k v (d : dict) :
  distinct_keys d -> In (k, v) d -> dict_get k d = v.
Proof.
  unfold distinct_keys. induction d as [|[k' v'] d IH]; [done |].
  cbn [map fst dict_get]. intros Hnd Hin. apply NoDup_cons in Hnd as [Hk' Hnd].
  destruct Hin as [[= -> ->]|Hin].
  - by rewrite str_eqb_refl.
  - destruct (str_eqb k k') eqn:E; [| by apply IH].
    apply str_eqb_eq in E as ->. exfalso. apply Hk'.
    apply list_elem_of_In. apply in_map_iff. by exists (k', v).
Qed.

Lemma dict_set_keys k v (d : dict) :
  dict_get k d <> VNone -> map fst (dict_set k v d) = map fst d.
Proof.
  induction d as [|[k' v'] d IH]; [done |]. cbn [dict_get dict_set].
  destruct (str_eqb k k'); [done |]. intros H. cbn [map fst]. by rewrite IH.
Qed.

Lemma dict_get_set k k' v (d : dict) :
  dict_get k (dict_set k' v d) = if str_eqb k k' then v else dict_get k d.
Proof.
  induction d as [|[k0 v0] d IH]; cbn [dict_get dict_set].
  - by destruct (str_eqb k k').
  - destruct (str_eqb k' k0) eqn:E0; cbn [dict_get].
    + apply str_eqb_eq in E0 as <-. by destruct (str_eqb k k').
    + destruct (str_eqb k k0) eqn:E1; [| done].
      apply str_eqb_eq in E1 as <-.
      destruct (str_eqb k k') eqn:E2; [| done].
      apply str_eqb_eq in E2 as <-. by rewrite str_eqb_refl in E0.
Qed.

Lemma truthy_not_None v : truthy v = true -> v <> VNone.
Proof. by intros H ->. Qed.

(** What an accepted [patient_info] went through. *)
Lemma validate_patient_info_accepted d errors d' :
  validate_patient_info d = Ok (true, errors, d') ->
  errors = [] /\
  (truthy (dict_get K_name d) = true ->
   is_valid_chinese_name (dict_get K_name d) = Ok true) /\
  passed_age (dict_get K_age d) /\
  (if truthy (dict_get K_gender d) then
     exists g, validate_gender (dict_get K_gender d) = Ok (true, g) /\
               d' = dict_set K_gender (VStr g) d
   else d' = d).
Proof.
  unfold validate_patient_info.
  intros (e1 & H1 & (e2 & H2 & ([e3 d3] & H3 & [= H4 <- <-])%bind_Ok)%bind_Ok)%bind_Ok.
  assert (He3 : e3 = []) by (by destruct e3).
  subst e3. split; [done |].
  assert (He2 : e2 = [] /\
    if truthy (dict_get K_gender d) then
      exists g, validate_gender (dict_get K_gender d) = Ok (true, g) /\
                d3 = dict_set K_gender (VStr g) d
    else d3 = d).
  { destruct (truthy (dict_get K_gender d)).
    - apply bind_Ok in H3 as ([ok g] & Hg & H3). destruct ok.
      + injection H3 as <- <-. eauto.
      + injection H3 as H3 _. by destruct e2.
    - by injection H3 as <- <-. }
  destruct He2 as [-> Hgender].
  assert (He1 : e1 = [] /\ passed_age (dict_get K_age d)).
  { destruct (dict_get K_age d) eqn:Hage; try (injection H2 as <-; split; [done | by left]).
    all: apply bind_Ok in H2 as ([n|] & Hint & H2); [| injection H2 as H2; by destruct e1].
    all: destruct (validate_age_range n 0 150) as [[] msg] eqn:Hrange;
      injection H2 as H2; [| by destruct e1].
    all: split; [done |]; right; exists n; split; [done |].
    all: unfold validate_age_range in *.
    all: destruct (n <? 0)%Z; [done |]; destruct (150 <? n)%Z; done. }
  destruct He1 as [-> Hage]. repeat split; [| done | done].
  intros Hname. rewrite Hname in H1.
  apply bind_Ok in H1 as ([] & Hok & H1); [done | by injection H1].
Qed.

(** A rejected [patient_info] has at least one error. *)
Lemma validate_patient_info_rejected d errors d' :
  validate_patient_info d = Ok (false, errors, d') -> errors <> [].
Proof.
  unfold validate_patient_info.
  intros (e1 & H1 & (e2 & H2 & ([e3 d3] & H3 & [= H4 <- <-])%bind_Ok)%bind_Ok)%bind_Ok.
  by destruct e3.
Qed.

Lemma validate_gender_canonical v g :
  validate_gender v = Ok (true, g) -> truthy v = true ->
  g = MALE \/ g = FEMALE \/ g = OTHER.
Proof.
  unfold validate_gender. intros H Hv. rewrite Hv in H. cbn [negb] in H.
  destruct v as [| | |s| |]; try done.
  destruct (existsb (str_eqb s) valid_genders) eqn:E.
  - injection H as <-. unfold valid_genders in E. cbn [existsb] in E.
    rewrite orb_false_r in E.
    apply orb_true_iff in E as [E|E]; [| apply orb_true_iff in E as [E|E]];
      apply str_eqb_eq in E; auto.
  - destruct (existsb _ MALE_WORDS); [injection H as <-; auto |].
    destruct (existsb _ FEMALE_WORDS); [injection H as <-; auto | done].
Qed.

(** What an accepted [available_time] went through. *)
Lemma validate_preferred_time_accepted today d errors d' :
  validate_preferred_time today d = Ok (true, errors, d') ->
  errors = [] /\
  exists d1,
    (if truthy (dict_get K_date d) then
       exists res, normalize_date_expression today (dict_get K_date d) = Ok (Some res) /\
                   res <> [] /\ d1 = dict_set K_date (VStr res) d
     else d1 = d) /\
    (d' = d1 \/ exists slot, d' = dict_set K_time_slot (VStr slot) d1).
Proof.
  unfold validate_preferred_time.
  intros ([e1 d1] & H1 & (d2 & H2 & [= H3 <- <-])%bind_Ok)%bind_Ok.
  assert (He1 : e1 = []) by (by destruct e1). subst e1. split; [done |].
  exists d1. split.
  - destruct (truthy (dict_get K_date d)); [| by injection H1 as <-].
    apply bind_Ok in H1 as (o & Hn & H1). destruct o as [res|]; cbn in H1.
    + destruct res as [|c res]; [done |]. injection H1 as <-. eauto.
    + done.
  - destruct (truthy (dict_get K_time_slot d1)); [| injection H2 as <-; by left].
    apply bind_Ok in H2 as (o & Hn & H2).
    destruct o as [slot|]; cbn [of_optional truthy] in H2.
    + destruct slot; injection H2 as <-; [by left | right; by eexists].
    + injection H2 as <-. by left.
Qed.

Lemma validate_preferred_time_rejected today d errors d' :
  validate_preferred_time today d = Ok (false, errors, d') -> errors <> [].
Proof.
  unfold validate_preferred_time.
  intros ([e1 d1] & H1 & (d2 & H2 & [= H3 <- <-])%bind_Ok)%bind_Ok.
  by destruct e1.
Qed.

(** A property of the object that every store keeps is kept by the loop. *)
Lemma store_sub_invariant {A} (setattr : str -> value -> A -> result A)
    (P : A -> Prop) (W : dict) :
  forall W0 a x1,
    (forall k v a0 a1, In (k, v) W -> truthy v = true ->
                       setattr k v a0 = Ok a1 -> P a0 -> P a1) ->
    W0 = W -> P a ->
    for_each (store_sub setattr) (SubObj a) W0 = Ok x1 ->
    exists a1, x1 = SubObj a1 /\ P a1.
Proof.
  intros W0 a x1 Hkeep ->. revert a x1.
  induction W as [|[k v] W IH]; intros a x1 Ha; cbn [for_each].
  - intros [= <-]. eauto.
  - unfold store_sub at 1. destruct (truthy v) eqn:Hv.
    + cbn [sub_setattr]. destruct (setattr k v a) as [a1|e] eqn:Hset; [| done].
      cbn [bind]. apply IH.
      * intros k0 v0 a0 a2 Hin. apply Hkeep. by right.
      * eapply Hkeep; [by left | done | done | done].
    + cbn [bind]. apply IH; [| done].
      intros k0 v0 a0 a2 Hin. apply Hkeep. by right.
Qed.

Lemma dict_set_in k v k' v' (d : dict) :
  distinct_keys d -> In (k, v) (dict_set k' v' d) ->
  (k = k' /\ v = v') \/ (k <> k' /\ In (k, v) d).
Proof.
  unfold distinct_keys. induction d as [|[k0 v0] d IH]; cbn [dict_set map fst].
  - intros _ [[= -> ->]|[]]. by left.
  - intros [Hk0 Hnd]%NoDup_cons. destruct (str_eqb k' k0) eqn:E.
    + apply str_eqb_eq in E as ->. intros [[= -> ->]|Hin]; [by left |].
      right. split; [| by right]. intros ->. apply Hk0.
      apply list_elem_of_In, in_map_iff. by exists (k0, v).
    + apply str_eqb_neq in E. intros [[= -> ->]|Hin].
      * right. split; [done | by left].
      * destruct (IH Hnd Hin) as [?|[? ?]]; [by left |]. right. split; [done | by right].
Qed.

Lemma on_str_accepted validator reject v res :
  on_str validator reject v = (true, res) ->
  exists raw, validator raw = (true, res).
Proof. unfold on_str. destruct (py_str v) as [s|]; [eauto | done]. Qed.

Lemma passed_sub_ensure {A} (P : A -> Prop) new (x : sub A) :
  P new -> passed_sub P x -> passed_sub P (ensure new x).
Proof. intros Hnew. by destruct x. Qed.

Lemma passed_sub_ensure_obj {A} (P : A -> Prop) new (x : sub A) :
  P new -> passed_sub P x -> exists a, ensure new x = SubObj a /\ P a.
Proof. intros Hnew. destruct x; [eauto | eauto | done]. Qed.

Lemma passed_patient_new : passed_patient PatientInfo_new.
Proof. repeat split; by left. Qed.

Lemma passed_preferred_new : passed_preferred PreferredTime_new.
Proof. by left. Qed.

(** Storing an accepted [patient_info] keeps the stored sub-object
    validated. *)
Lemma store_patient_validated d errors d' a x :
  distinct_keys d ->
  validate_patient_info d = Ok (true, errors, d') ->
  passed_patient a ->
  for_each (store_sub PatientInfo_setattr) (SubObj a) d' = Ok x ->
  exists a1, x = SubObj a1 /\ passed_patient a1.
Proof.
  intros Hnd Hval Ha Hrun.
  apply validate_patient_info_accepted in Hval as (-> & Hname & Hage & Hgender).
  eapply store_sub_invariant; [| reflexivity | exact Ha | exact Hrun].
  intros k v a0 a1 Hin Hv Hset (Pn & Pa & Pg).
  assert (Hd : (k = K_gender /\ exists g, v = VStr g /\ (g = MALE \/ g = FEMALE \/ g = OTHER))
               \/ (k <> K_gender /\ v = dict_get k d)).
  { destruct (truthy (dict_get K_gender d)) eqn:Htg.
    - destruct Hgender as (g & Hg & ->).
      apply dict_set_in in Hin as [[-> ->]|[Hne Hin]]; [| | done].
      + left. split; [done |]. exists g. split; [done |].
        by eapply validate_gender_canonical.
      + right. split; [done |]. symmetry. by apply dict_get_in.
    - subst d'. right. rewrite <- (dict_get_in _ _ _ Hnd Hin). split; [| done].
      intros ->. rewrite (dict_get_in _ _ _ Hnd Hin) in Htg. congruence. }
  unfold PatientInfo_setattr in Hset.
  destruct (str_eqb k K_name) eqn:E1.
  { apply str_eqb_eq in E1 as ->. injection Hset as <-.
    destruct Hd as [[? _]|[_ ->]]; [done |].
    repeat split; cbn [name age gender]; [| done | done].
    right. by apply Hname. }
  destruct (str_eqb k K_age) eqn:E2.
  { apply str_eqb_eq in E2 as ->. injection Hset as <-.
    destruct Hd as [[? _]|[_ ->]]; [done |].
    repeat split; cbn [name age gender]; done. }
  destruct (str_eqb k K_gender) eqn:E3; [| done].
  apply str_eqb_eq in E3 as ->. injection Hset as <-.
  destruct Hd as [[_ (g & -> & Hg)]|[? _]]; [| done].
  repeat split; cbn [name age gender]; [done | done |].
  unfold canonical_gender. destruct Hg as [-> | [-> | ->]]; auto.
Qed.

(** Storing an accepted [available_time] keeps the stored sub-object
    validated. *)
Lemma store_time_validated today d errors d' a x :
  distinct_keys d ->
  validate_preferred_time today d = Ok (true, errors, d') ->
  passed_preferred a ->
  for_each (store_sub PreferredTime_setattr) (SubObj a) d' = Ok x ->
  exists a1, x = SubObj a1 /\ passed_preferred a1.
Proof.
  intros Hnd Hval Ha Hrun.
  apply validate_preferred_time_accepted in Hval as (-> & d1 & Hd1 & Hd').
  eapply store_sub_invariant; [| reflexivity | exact Ha | exact Hrun].
  intros k v a0 a1 Hin Hv Hset Pd.
  unfold PreferredTime_setattr in Hset.
  destruct (str_eqb k K_date) eqn:E1.
  2:{ destruct (str_eqb k K_time_slot); [| done]. by injection Hset as <-. }
  apply str_eqb_eq in E1 as ->. injection Hset as <-.
  unfold passed_preferred. cbn [date].
  assert (Hnd1 : distinct_keys d1 /\
            ((exists res, normalize_date_expression today (dict_get K_date d)
                          = Ok (Some res) /\ res <> [] /\ d1 = dict_set K_date (VStr res) d)
             \/ (truthy (dict_get K_date d) = false /\ d1 = d))).
  { destruct (truthy (dict_get K_date d)) eqn:Htd.
    - destruct Hd1 as (res & Hres & Hne & ->). split; [| left; eauto].
      unfold distinct_keys. rewrite dict_set_keys; [done |]. by apply truthy_not_None.
    - subst d1. split; [done | by right]. }
  destruct Hnd1 as [Hnd1 Hcase].
  assert (Hin1 : In (K_date, v) d1).
  { destruct Hd' as [->|[slot ->]]; [done |].
    apply dict_set_in in Hin as [[? _]|[_ ?]]; done. }
  destruct Hcase as [(res & Hres & Hne & ->)|[Htd ->]].
  - apply dict_set_in in Hin1 as [[_ ->]|[? _]]; [| done | done].
    right. eauto 10.
  - rewrite <- (dict_get_in _ _ _ Hnd Hin1) in Hv. congruence.
Qed.

(** One turn of the loop keeps the record validated. *)
Lemma merge_step_rel_validated today m k v m1 g :
  merge_step_rel today m k v m1 g ->
  (forall d, v = VDict d -> distinct_keys d) ->
  stored_validated m -> stored_validated m1.
Proof.
  intros H Hnd (Pt & Pp & Ppol & Pa & Pph).
  destruct H; try done.
  - repeat split; try done. right. eauto.
  - repeat split; try done. right.
    match goal with Hv : on_str _ _ _ = _ |- _ =>
      apply on_str_accepted in Hv as [raw Hraw] end. eauto.
  - repeat split; try done. right.
    match goal with Hv : on_str _ _ _ = _ |- _ =>
      apply on_str_accepted in Hv as [raw Hraw] end. eauto.
  - repeat split; try done. cbn [patient_info set_patient_info].
    apply passed_sub_ensure; [apply passed_patient_new | done].
  - repeat split; try done. cbn [patient_info set_patient_info].
    destruct (passed_sub_ensure_obj _ PatientInfo_new _ passed_patient_new Pp)
      as (a & Ha & Pa0).
    rewrite Ha in *.
    edestruct store_patient_validated as (a1 & -> & Pa1); [by eapply Hnd | done..|].
    done.
  - repeat split; try done. cbn [available_time set_available_time].
    apply passed_sub_ensure; [apply passed_preferred_new | done].
  - repeat split; try done. cbn [available_time set_available_time].
    destruct (passed_sub_ensure_obj _ PreferredTime_new _ passed_preferred_new Pa)
      as (a & Ha & Pa0).
    rewrite Ha in *.
    edestruct store_time_validated as (a1 & -> & Pa1); [by eapply Hnd | done..|].
    done.
Qed.

Lemma merge_loop_validated today l : forall m es z errs,
  sub_dicts_distinct l -> stored_validated m ->
  for_each (merge_step today) (m, es) l = Ok (z, errs) -> stored_validated z.
Proof.
  induction l as [|[k v] l IH]; intros m es z errs Hnd Hm Hrun.
  - by injection Hrun as <- <-.
  - apply merge_loop_cons in Hrun as (m1 & g & Hrel & Hrest). cbn [fst snd] in Hrel.
    eapply IH; [| | exact Hrest].
    + intros k' d Hin. eapply Hnd. by right.
    + eapply merge_step_rel_validated; [exact Hrel | | done].
      intros d ->. eapply Hnd. by left.
Qed.

(** ** What a stored sub-object holds *)

Lemma dict_get_absent k (d : dict) : ~ In k (map fst d) -> dict_get k d = VNone.
Proof.
  induction d as [|[k' v] d IH]; [done |]. cbn [map fst dict_get In].
  intros H. destruct (str_eqb k k') eqn:E.
  - apply str_eqb_eq in E. subst. tauto.
  - apply IH. tauto.
Qed.

Lemma stored_or_kept_absent k (d : dict) old :
  ~ In k (map fst d) -> stored_or_kept (dict_get k d) old = old.
Proof. intros H. by rewrite dict_get_absent. Qed.

Lemma store_patient_fields W : forall p x,
  distinct_keys W ->
  for_each (store_sub PatientInfo_setattr) (SubObj p) W = Ok x ->
  x = SubObj (store_patient W p).
Proof.
  unfold distinct_keys, store_patient.
  induction W as [|[k v] W IH]; intros p x Hnd; cbn [for_each].
  - intros [= <-]. by destruct p.
  - cbn [map fst] in Hnd. apply NoDup_cons in Hnd as [Hk Hnd].
    rewrite list_elem_of_In in Hk.
    unfold store_sub at 1. cbn [dict_get]. destruct (truthy v) eqn:Hv.
    + cbn [sub_setattr]. unfold PatientInfo_setattr.
      destruct (str_eqb k K_name) eqn:E1; [| destruct (str_eqb k K_age) eqn:E2;
        [| destruct (str_eqb k K_gender) eqn:E3; [| done]]];
      cbn [bind]; intros Hrun; apply IH in Hrun as ->; try done; f_equal;
      cbn [name age gender].
      * apply str_eqb_eq in E1 as ->. rewrite str_eqb_refl.
        change (str_eqb K_age K_name) with false.
        change (str_eqb K_gender K_name) with false. cbn iota.
        unfold stored_or_kept at 4. rewrite Hv.
        by rewrite (stored_or_kept_absent K_name).
      * apply str_eqb_eq in E2 as ->. rewrite str_eqb_refl.
        change (str_eqb K_name K_age) with false.
        change (str_eqb K_gender K_age) with false. cbn iota.
        unfold stored_or_kept at 5. rewrite Hv.
        by rewrite (stored_or_kept_absent K_age).
      * apply str_eqb_eq in E3 as ->. rewrite str_eqb_refl.
        change (str_eqb K_name K_gender) with false.
        change (str_eqb K_age K_gender) with false. cbn iota.
        unfold stored_or_kept at 6. rewrite Hv.
        by rewrite (stored_or_kept_absent K_gender).
    + cbn [bind]. intros Hrun. apply IH in Hrun as ->; [| done]. f_equal.
      assert (Hf : forall f old, stored_or_kept (dict_get f W) old
                   = stored_or_kept (if str_eqb f k then v else dict_get f W) old).
      { intros f old. destruct (str_eqb f k) eqn:E; [| done].
        apply str_eqb_eq in E as ->. rewrite stored_or_kept_absent by done.
        unfold stored_or_kept. by rewrite Hv. }
      by rewrite !Hf.
Qed.

Lemma store_time_fields W : forall t x,
  distinct_keys W ->
  for_each (store_sub PreferredTime_setattr) (SubObj t) W = Ok x ->
  x = SubObj (store_time W t).
Proof.
  unfold distinct_keys, store_time.
  induction W as [|[k v] W IH]; intros t x Hnd; cbn [for_each].
  - intros [= <-]. by destruct t.
  - cbn [map fst] in Hnd. apply NoDup_cons in Hnd as [Hk Hnd].
    rewrite list_elem_of_In in Hk.
    unfold store_sub at 1. cbn [dict_get]. destruct (truthy v) eqn:Hv.
    + cbn [sub_setattr]. unfold PreferredTime_setattr.
      destruct (str_eqb k K_date) eqn:E1; [| destruct (str_eqb k K_time_slot) eqn:E2;
        [| done]];
      cbn [bind]; intros Hrun; apply IH in Hrun as ->; try done; f_equal;
      cbn [date time_slot].
      * apply str_eqb_eq in E1 as ->. rewrite str_eqb_refl.
        change (str_eqb K_time_slot K_date) with false. cbn iota.
        unfold stored_or_kept at 3. rewrite Hv.
        by rewrite (stored_or_kept_absent K_date).
      * apply str_eqb_eq in E2 as ->. rewrite str_eqb_refl.
        change (str_eqb K_date K_time_slot) with false. cbn iota.
        unfold stored_or_kept at 4. rewrite Hv.
        by rewrite (stored_or_kept_absent K_time_slot).
    + cbn [bind]. intros Hrun. apply IH in Hrun as ->; [| done]. f_equal.
      assert (Hf : forall f old, stored_or_kept (dict_get f W) old
                   = stored_or_kept (if str_eqb f k then v else dict_get f W) old).
      { intros f old. destruct (str_eqb f k) eqn:E; [| done].
        apply str_eqb_eq in E as ->. rewrite stored_or_kept_absent by done.
        unfold stored_or_kept. by rewrite Hv. }
      by rewrite !Hf.
Qed.

Lemma store_patient_total W : forall p,
  sub_keys_in patient_keys W ->
  exists x, for_each (store_sub PatientInfo_setattr) (SubObj p) W = Ok x.
Proof.
  unfold sub_keys_in, patient_keys.
  induction W as [|[k v] W IH]; intros p Hkeys; cbn [for_each]; [eauto |].
  assert (Hrest : forall k0 v0, In (k0, v0) W -> truthy v0 = true ->
                                In k0 [K_name; K_age; K_gender]).
  { intros k0 v0 Hin. apply Hkeys. by right. }
  unfold store_sub at 1. destruct (truthy v) eqn:Hv; [| cbn [bind]; by apply IH].
  cbn [sub_setattr]. unfold PatientInfo_setattr.
  destruct (Hkeys k v (or_introl eq_refl) Hv) as [<-|[<-|[<-|[]]]];
    rewrite ?str_eqb_refl;
    repeat match goal with
      | |- context [str_eqb ?a ?b] => change (str_eqb a b) with false
      end; cbn [bind]; by apply IH.
Qed.

Lemma store_time_total W : forall t,
  sub_keys_in time_keys W ->
  exists x, for_each (store_sub PreferredTime_setattr) (SubObj t) W = Ok x.
Proof.
  unfold sub_keys_in, time_keys.
  induction W as [|[k v] W IH]; intros t Hkeys; cbn [for_each]; [eauto |].
  assert (Hrest : forall k0 v0, In (k0, v0) W -> truthy v0 = true ->
                                In k0 [K_date; K_time_slot]).
  { intros k0 v0 Hin. apply Hkeys. by right. }
  unfold store_sub at 1. destruct (truthy v) eqn:Hv; [| cbn [bind]; by apply IH].
  cbn [sub_setattr]. unfold PreferredTime_setattr.
  destruct (Hkeys k v (or_introl eq_refl) Hv) as [<-|[<-|[]]];
    rewrite ?str_eqb_refl;
    repeat match goal with
      | |- context [str_eqb ?a ?b] => change (str_eqb a b) with false
      end; cbn [bind]; by apply IH.
Qed.

(** The validators keep the keys of the sub-object and its shape. *)
Lemma validate_patient_info_keys ok d errors d' :
  distinct_keys d -> sub_keys_in patient_keys d ->
  validate_patient_info d = Ok (ok, errors, d') ->
  distinct_keys d' /\ sub_keys_in patient_keys d'.
Proof.
  unfold validate_patient_info. intros Hnd Hkeys.
  intros (e1 & H1 & (e2 & H2 & ([e3 d3] & H3 & [= _ _ <-])%bind_Ok)%bind_Ok)%bind_Ok.
  destruct (truthy (dict_get K_gender d)) eqn:Hg; [| by injection H3 as _ <-].
  apply bind_Ok in H3 as ([okg g] & _ & H3).
  destruct okg; injection H3 as _ <-; [| done].
  split.
  - unfold distinct_keys. rewrite dict_set_keys; [done | by apply truthy_not_None].
  - intros k v Hin Hv. apply dict_set_in in Hin as [[-> _]|[_ Hin]]; [| | done].
    + unfold patient_keys. simpl. auto.
    + by eapply Hkeys.
Qed.

Lemma validate_preferred_time_keys today ok d errors d' :
  distinct_keys d -> sub_keys_in time_keys d ->
  validate_preferred_time today d = Ok (ok, errors, d') ->
  distinct_keys d' /\ sub_keys_in time_keys d'.
Proof.
  unfold validate_preferred_time. intros Hnd Hkeys.
  intros ([e1 d1] & H1 & (d2 & H2 & [= _ _ <-])%bind_Ok)%bind_Ok.
  assert (Hd1 : distinct_keys d1 /\ sub_keys_in time_keys d1).
  { destruct (truthy (dict_get K_date d)) eqn:Hd; [| by injection H1 as _ <-].
    apply bind_Ok in H1 as (o & _ & H1).
    destruct (truthy (of_optional o)); injection H1 as _ <-; [| done].
    split.
    - unfold distinct_keys. rewrite dict_set_keys; [done | by apply truthy_not_None].
    - intros k v Hin Hv. apply dict_set_in in Hin as [[-> _]|[_ Hin]]; [| | done].
      + unfold time_keys. simpl. auto.
      + by eapply Hkeys. }
  destruct Hd1 as [Hnd1 Hkeys1].
  destruct (truthy (dict_get K_time_slot d1)) eqn:Hs; [| by injection H2 as <-].
  apply bind_Ok in H2 as (o & _ & H2).
  destruct (truthy (of_optional o)); injection H2 as <-; [| done].
  split.
  - unfold distinct_keys. rewrite dict_set_keys; [done | by apply truthy_not_None].
  - intros k v Hin Hv. apply dict_set_in in Hin as [[-> _]|[_ Hin]]; [| | done].
    + unfold time_keys. simpl. auto.
    + by eapply Hkeys1.
Qed.

(** ** Composite keys *)

(** C2, counterexample — an invalid gender blocks a valid name.  For the
    incoming [{"patient_info": {"name": "John", "gender": "xyz"}}] the name
    passes its validator and the gender does not; the merge records the
    error of the gender and stores nothing, the name stays absent. *)
Lemma invalid_gender_blocks_valid_name :
  is_valid_chinese_name (VStr (lit "John")) = Ok true /\
  validate_gender (VStr (lit "xyz")) = Ok (false, MSG_GENDER) /\
  merge_entities today_example BookingEntities_new [(K_patient_info, VDict john_xyz)]
  = Ok (BookingEntities_new, [tagged K_patient_info MSG_GENDER]) /\
  patient_info BookingEntities_new = SubObj PatientInfo_new /\
  name PatientInfo_new = VNone.
Proof. repeat split; vm_compute; reflexivity. Qed.

(** C2 — composite keys, as the code has them.  The sub-object of a
    composite key is taken or left as a whole.  When some sub-field is
    rejected by its validator, every rejection is recorded as an error tagged
    with the composite key and no sub-field of the sub-object is stored, the
    valid siblings included; when none is rejected, every non-empty
    sub-field is stored, each into its own field, and the other fields keep
    what they held. *)
Theorem composite_key_all_or_nothing today m es d p t :
  d <> [] -> distinct_keys d ->
  (ensure PatientInfo_new (patient_info m) = SubObj p ->
   sub_keys_in patient_keys d ->
   forall ok errors d', validate_patient_info d = Ok (ok, errors, d') ->
     (ok = false <-> errors <> []) /\
     merge_step today (m, es) (K_patient_info, VDict d)
     = if ok then Ok (set_patient_info (SubObj (store_patient d' p)) m, es)
       else Ok (set_patient_info (SubObj p) m,
                es ++ map (tagged K_patient_info) errors)) /\
  (ensure PreferredTime_new (available_time m) = SubObj t ->
   sub_keys_in time_keys d ->
   forall ok errors d', validate_preferred_time today d = Ok (ok, errors, d') ->
     (ok = false <-> errors <> []) /\
     merge_step today (m, es) (K_available_time, VDict d)
     = if ok then Ok (set_available_time (SubObj (store_time d' t)) m, es)
       else Ok (set_available_time (SubObj t) m,
                es ++ map (tagged K_available_time) errors)).
Proof.
  intros Hd Hnd.
  assert (Hv : truthy (VDict d) = true) by (by destruct d).
  split.
  - intros Hp Hkeys ok errors d' Hval.
    destruct (validate_patient_info_keys _ _ _ _ Hnd Hkeys Hval) as [Hnd' Hkeys'].
    destruct ok.
    + split.
      { apply validate_patient_info_accepted in Hval as (-> & _). split; done. }
      destruct (store_patient_total d' p Hkeys') as [x Hx].
      pose proof (store_patient_fields _ _ _ Hnd' Hx) as ->.
      rewrite <- (app_nil_r es) at 2. apply merge_step_rel_complete.
      eapply ms_patient_ok; [done | done | done | exact Hval |].
      by rewrite Hp.
    + split.
      { split; [intros _; by eapply validate_patient_info_rejected | done]. }
      rewrite <- Hp. apply merge_step_rel_complete. by eapply ms_patient_bad.
  - intros Ht Hkeys ok errors d' Hval.
    destruct (validate_preferred_time_keys _ _ _ _ _ Hnd Hkeys Hval) as [Hnd' Hkeys'].
    destruct ok.
    + split.
      { apply validate_preferred_time_accepted in Hval as (-> & _). split; done. }
      destruct (store_time_total d' t Hkeys') as [x Hx].
      pose proof (store_time_fields _ _ _ Hnd' Hx) as ->.
      rewrite <- (app_nil_r es) at 2. apply merge_step_rel_complete.
      eapply ms_time_ok; [done | done | done | exact Hval |].
      by rewrite Ht.
    + split.
      { split; [intros _; by eapply validate_preferred_time_rejected | done]. }
      rewrite <- Ht. apply merge_step_rel_complete. by eapply ms_time_bad.
Qed.

Lemma distinct_keys_john_xyz : distinct_keys john_xyz.
Proof.
  unfold distinct_keys, john_xyz. cbn [map fst].
  apply NoDup_cons. split; [| apply NoDup_singleton].
  intros H%list_elem_of_In. destruct H as [H|[]]. discriminate H.
Qed.

Lemma sub_keys_john_xyz : sub_keys_in patient_keys john_xyz.
Proof.
  intros k v [[= <- <-]|[[= <- <-]|[]]] _; unfold patient_keys; simpl; auto.
Qed.

Lemma composite_key_all_or_nothing_witness :
  john_xyz <> [] /\ distinct_keys john_xyz /\
  merge_step today_example (BookingEntities_new, []) (K_patient_info, VDict john_xyz)
  = Ok (set_patient_info (SubObj PatientInfo_new) BookingEntities_new,
        [] ++ map (tagged K_patient_info) [MSG_GENDER]).
Proof.
  split; [done |]. split; [exact distinct_keys_john_xyz |].
  refine (proj2 (proj1 (composite_key_all_or_nothing today_example BookingEntities_new []
           john_xyz PatientInfo_new PreferredTime_new _ distinct_keys_john_xyz)
           eq_refl sub_keys_john_xyz false [MSG_GENDER] john_xyz _)).
  - done.
  - vm_compute. reflexivity.
Defined.

(** ** Stored values and validation *)

Lemma not_passed_phone_abc : ~ passed_phone (VStr (lit "abc")).
Proof.
  intros [H|(raw & res & Hval & [= <-])]; [done |].
  apply validate_phone_number_sound in Hval as [_ Hm]. vm_compute in Hm. done.
Qed.

Lemma not_canonical_xyz : ~ canonical_gender (VStr (lit "xyz")).
Proof. intros [H|[H|[H|H]]]; vm_compute in H; done. Qed.

Lemma stored_validated_new : stored_validated BookingEntities_new.
Proof.
  repeat split; by left.
Qed.

(** C6, counterexample — the update step of the conversation manager stores
    what it is given.  From the empty record, which meets the invariant,
    [update_entities] with [{"phone_number": "abc", "patient_info":
    {"gender": "xyz"}}] ends without an exception and leaves a phone number
    that no validation accepts and a gender that is a raw text. *)
Lemma update_entities_stores_unvalidated :
  stored_validated BookingEntities_new /\
  update_entities BookingEntities_new unvalidated_update
  = (mkBookingEntities VNone
       (SubObj (mkPatientInfo VNone VNone (VStr (lit "xyz")))) VNone
       (SubObj PreferredTime_new) (VStr (lit "abc")), None) /\
  ~ passed_phone (VStr (lit "abc")) /\
  ~ canonical_gender (VStr (lit "xyz")) /\
  ~ stored_validated (fst (update_entities BookingEntities_new unvalidated_update)).
Proof.
  split; [apply stored_validated_new |].
  split; [vm_compute; reflexivity |].
  split; [apply not_passed_phone_abc |].
  split; [apply not_canonical_xyz |].
  intros (_ & _ & _ & _ & H). apply not_passed_phone_abc.
  vm_compute in H. exact H.
Qed.

(** C6 — stored values and validation, as the code has them.  The entity
    merge keeps the invariant: if every stored field of the record has passed
    its validator, so has every stored field of the merged record, and the
    stored gender is canonical or absent.  (The sub-objects of the incoming
    map are dicts, whose keys are distinct.) *)
Theorem merge_entities_keeps_validated today E M E' errs :
  sub_dicts_distinct M -> stored_validated E ->
  merge_entities today E M = Ok (E', errs) ->
  stored_validated E' /\
  forall p, patient_info E' = SubObj p -> canonical_gender (gender p).
Proof.
  intros Hnd HE Hrun.
  assert (HE' : stored_validated E') by (by eapply merge_loop_validated).
  split; [done |]. intros p Hp. destruct HE' as (_ & Hpat & _).
  rewrite Hp in Hpat. by destruct Hpat as (_ & _ & Hg).
Qed.

Lemma distinct_keys_john_m : distinct_keys john_m.
Proof.
  unfold distinct_keys, john_m. cbn [map fst].
  apply NoDup_cons. split; [| apply NoDup_singleton].
  intros H%list_elem_of_In. destruct H as [H|[]]. discriminate H.
Qed.

Lemma sub_dicts_distinct_valid_update : sub_dicts_distinct valid_update.
Proof.
  intros k d [H|[H|[]]]; [discriminate H |].
  injection H as _ <-. apply distinct_keys_john_m.
Qed.

Lemma merge_entities_keeps_validated_witness :
  sub_dicts_distinct valid_update /\ stored_validated BookingEntities_new /\
  merge_entities today_example BookingEntities_new valid_update
  = Ok (mkBookingEntities VNone
          (SubObj (mkPatientInfo (VStr (lit "John")) VNone (VStr MALE))) VNone
          (SubObj PreferredTime_new) (VStr (lit "91234567")), []) /\
  stored_validated
    (mkBookingEntities VNone
       (SubObj (mkPatientInfo (VStr (lit "John")) VNone (VStr MALE))) VNone
       (SubObj PreferredTime_new) (VStr (lit "91234567"))).
Proof.
  split; [exact sub_dicts_distinct_valid_update |].
  split; [exact stored_validated_new |].
  split; [vm_compute; reflexivity |].
  refine (proj1 (merge_entities_keeps_validated today_example BookingEntities_new
                   valid_update _ [] sub_dicts_distinct_valid_update
                   stored_validated_new _)).
  vm_compute. reflexivity.
Defined.

(** ** The merge returns on the declared shape *)

Lemma days_in_month_jan y : days_in_month y 1 = 31.
Proof. reflexivity. Qed.

Lemma add_days_ok n : forall d,
  (year d < 9999 /\ N.of_nat n <= 31) \/ (month d = 1 /\ day d + N.of_nat n <= 31) ->
  exists d', add_days n d = Ok d'.
Proof.
  induction n as [|n IH]; intros d Hd; cbn [add_days]; [eauto |].
  unfold next_day.
  destruct (day d <? days_in_month (year d) (month d)) eqn:E1; cbn [bind].
  { apply IH. cbn [year month day]. destruct Hd as [[? ?]|[? ?]]; [left | right]; lia. }
  destruct Hd as [[Hy Hn]|[Hm Hn]].
  2:{ rewrite Hm, days_in_month_jan in E1. apply N.ltb_ge in E1. lia. }
  destruct (month d <? 12) eqn:E2; cbn [bind].
  { apply IH. cbn [year month day]. left. lia. }
  apply N.ltb_lt in Hy as Hy'. rewrite Hy'. cbn [bind].
  apply IH. cbn [year month day]. right. lia.
Qed.

Lemma normalize_date_expression_total today s :
  year today < 9999 ->
  exists o, normalize_date_expression today (VStr s) = Ok o.
Proof.
  intros Hy. unfold normalize_date_expression.
  destruct (negb (truthy (VStr s))); [eauto |].
  repeat match goal with
    | |- context [add_days ?n today] =>
        let d := fresh "d" in let Hd := fresh "Hd" in
        destruct (add_days_ok n today) as [d Hd];
        [left; split; [exact Hy | cbn; lia] | rewrite Hd; cbn [bind]]
    end.
  repeat match goal with
    | |- exists _, (if ?c then _ else _) = _ => destruct c; [eauto |]
    end.
  destruct (search match_ymd_here _) as [[[y m] d2]|]; [eauto |].
  destruct (search (match_md_here MONTH_SIGN _) _) as [[m d2]|]; [eauto |].
  destruct (search (match_md_here 47 None) _) as [[m d2]|]; eauto.
Qed.

Lemma normalize_time_slot_total s : exists o, normalize_time_slot (VStr s) = Ok o.
Proof.
  unfold normalize_time_slot. destruct (negb (truthy (VStr s))); [eauto |].
  destruct (find _ time_mappings) as [[_k v]|]; [eauto |].
  repeat match goal with
    | |- exists _, (if ?c then _ else _) = _ => destruct c; [eauto |]
    end.
  eauto.
Qed.

Lemma dict_get_declared (P : str -> value -> Prop) k (d : dict) :
  (forall k v, In (k, v) d -> P k v) ->
  dict_get k d = VNone \/ P k (dict_get k d).
Proof.
  induction d as [|[k' v] d IH]; cbn [dict_get]; [by left |]. intros H.
  destruct (str_eqb k k') eqn:E.
  - apply str_eqb_eq in E as ->. right. apply H. by left.
  - apply IH. intros k0 v0 Hin. apply H. by right.
Qed.

Lemma validate_patient_info_total d :
  declared_patient d -> exists r, validate_patient_info d = Ok r.
Proof.
  intros Hd. unfold validate_patient_info.
  assert (Hname : text_or_none (dict_get K_name d)).
  { destruct (dict_get_declared _ K_name d Hd) as [->|[[_ H]|[[H _]|[H _]]]];
      done. }
  assert (Hage : int_or_none (dict_get K_age d)).
  { destruct (dict_get_declared _ K_age d Hd) as [->|[[H _]|[[_ H]|[H _]]]];
      done. }
  assert (Hgender : text_or_none (dict_get K_gender d)).
  { destruct (dict_get_declared _ K_gender d Hd) as [->|[[H _]|[[H _]|[_ H]]]];
      done. }
  destruct (dict_get K_name d) as [| | |n| |]; try done;
    destruct (dict_get K_age d) as [| |a| | |]; try done;
    destruct (dict_get K_gender d) as [| | |g| |]; try done.
  all: cbn [truthy negb py_int bind].
  all: repeat match goal with
         | |- context [match ?s with [] => false | _ :: _ => true end] =>
             destruct s; cbn [bind]
         | |- context [is_valid_chinese_name (VStr ?s)] =>
             unfold is_valid_chinese_name; cbn [truthy negb py_len bind];
             destruct (_ || _)%bool; cbn [bind]
         | |- context [validate_age_range ?a 0 150] =>
             destruct (validate_age_range a 0 150) as [[] ?]; cbn [bind]
         | |- context [validate_gender (VStr ?s)] =>
             unfold validate_gender; cbn [truthy negb bind]
         | |- context [if ?c then _ else _] => destruct c; cbn [bind]
         end; eauto.
Qed.

Lemma dict_set_in_weak k v k' v' (d : dict) :
  In (k, v) (dict_set k' v' d) -> (k = k' /\ v = v') \/ In (k, v) d.
Proof.
  induction d as [|[k0 v0] d IH]; cbn [dict_set].
  - intros [[= -> ->]|[]]. by left.
  - destruct (str_eqb k' k0) eqn:E.
    + apply str_eqb_eq in E as ->. intros [[= -> ->]|Hin]; [by left | right; by right].
    + intros [[= -> ->]|Hin]; [right; by left |].
      destruct (IH Hin); [by left | right; by right].
Qed.

Lemma validate_preferred_time_total today d :
  year today < 9999 -> declared_time d ->
  exists r, validate_preferred_time today d = Ok r.
Proof.
  intros Hy Hd. unfold validate_preferred_time.
  assert (Hget : forall k d0, (forall k v, In (k, v) d0 -> text_or_none v) ->
                              text_or_none (dict_get k d0)).
  { intros k d0 H.
    destruct (dict_get_declared (fun _ v => text_or_none v) k d0 H) as [->|?]; done. }
  assert (Hall : forall k v, In (k, v) d -> text_or_none v).
  { intros k v Hin. by destruct (Hd k v Hin). }
  assert (H1 : exists e1 d1,
    (if truthy (dict_get K_date d) then
       normalized_date <- normalize_date_expression today (dict_get K_date d) ;;
       if truthy (of_optional normalized_date)
       then Ok ([], dict_set K_date (of_optional normalized_date) d)
       else Ok ([] ++ [MSG_DATE], d)
     else Ok ([], d)) = Ok (e1, d1) /\ forall k v, In (k, v) d1 -> text_or_none v).
  { pose proof (Hget K_date d Hall) as Hdate.
    destruct (dict_get K_date d) as [| | |s| |]; try done; cbn [truthy]; [eauto |].
    destruct s as [|c s]; [eauto |].
    destruct (normalize_date_expression_total today (c :: s) Hy) as [o ->]. cbn [bind].
    destruct (truthy (of_optional o)) eqn:Ho; [| eauto].
    eexists _, _. split; [done |].
    intros k v [[_ ->]|Hin]%dict_set_in_weak; [by destruct o | by eapply Hall]. }
  destruct H1 as (e1 & d1 & -> & Hall1). cbn [bind].
  pose proof (Hget K_time_slot d1 Hall1) as Hslot.
  destruct (dict_get K_time_slot d1) as [| | |s| |]; try done; cbn [truthy bind]; [eauto |].
  destruct s as [|c s]; cbn [bind]; [eauto |].
  destruct (normalize_time_slot_total (c :: s)) as [o ->]. cbn [bind].
  destruct (truthy (of_optional o)); cbn [bind]; eauto.
Qed.

Lemma sub_keys_in_set keys k v (d : dict) :
  In k keys -> sub_keys_in keys d -> sub_keys_in keys (dict_set k v d).
Proof.
  intros Hk Hd k0 v0 [[-> _]|Hin]%dict_set_in_weak Hv; [done | by eapply Hd].
Qed.

Lemma validate_patient_info_sub_keys ok d errors d' :
  sub_keys_in patient_keys d ->
  validate_patient_info d = Ok (ok, errors, d') -> sub_keys_in patient_keys d'.
Proof.
  unfold validate_patient_info. intros Hkeys.
  intros (e1 & H1 & (e2 & H2 & ([e3 d3] & H3 & [= _ _ <-])%bind_Ok)%bind_Ok)%bind_Ok.
  destruct (truthy (dict_get K_gender d)); [| by injection H3 as _ <-].
  apply bind_Ok in H3 as ([okg g] & _ & H3).
  destruct okg; injection H3 as _ <-; [| done].
  apply sub_keys_in_set; [| done]. unfold patient_keys. simpl. auto.
Qed.

Lemma validate_preferred_time_sub_keys today ok d errors d' :
  sub_keys_in time_keys d ->
  validate_preferred_time today d = Ok (ok, errors, d') -> sub_keys_in time_keys d'.
Proof.
  unfold validate_preferred_time. intros Hkeys.
  intros ([e1 d1] & H1 & (d2 & H2 & [= _ _ <-])%bind_Ok)%bind_Ok.
  assert (Hd1 : sub_keys_in time_keys d1).
  { destruct (truthy (dict_get K_date d)); [| by injection H1 as _ <-].
    apply bind_Ok in H1 as (o & _ & H1).
    destruct (truthy (of_optional o)); injection H1 as _ <-; [| done].
    apply sub_keys_in_set; [| done]. unfold time_keys. simpl. auto. }
  destruct (truthy (dict_get K_time_slot d1)); [| by injection H2 as <-].
  apply bind_Ok in H2 as (o & _ & H2).
  destruct (truthy (of_optional o)); injection H2 as <-; [| done].
  apply sub_keys_in_set; [| done]. unfold time_keys. simpl. auto.
Qed.

Lemma typed_sub_ensure {A} new (x : sub A) :
  typed_sub x -> exists a, ensure new x = SubObj a.
Proof. destruct x; [eauto | eauto | done]. Qed.

(** One turn on a declared item returns, and leaves the optional fields
    typed. *)
Lemma merge_step_total today m es k v :
  year today < 9999 -> typed_record m ->
  (k = K_booking_type -> text_or_none v) ->
  (k = K_patient_info -> forall d, v = VDict d -> declared_patient d) ->
  (k = K_available_time -> forall d, v = VDict d -> declared_time d) ->
  exists m1 es1, merge_step today (m, es) (k, v) = Ok (m1, es1) /\ typed_record m1.
Proof.
  intros Hy Hm Hbook Hpat Htime. pose proof Hm as [Tp Tt]. unfold merge_step.
  assert (Hsame : forall es1 : list str, exists m1 es2,
            @Ok (BookingEntities * list str) (m, es1) = Ok (m1, es2) /\ typed_record m1)
    by eauto.
  destruct (truthy v) eqn:Hv; cbn [negb]; [| apply Hsame].
  destruct (str_eqb k K_booking_type) eqn:E1.
  { apply str_eqb_eq in E1. specialize (Hbook E1).
    destruct v as [| | |s| |]; try done. unfold validate_appointment_type.
    rewrite Hv. cbn [negb].
    destruct (find _ _); cbn [bind]; eexists _, _; (split; [reflexivity | exact Hm]). }
  destruct (str_eqb k K_phone_number) eqn:E2.
  { destruct (on_str validate_phone_number _ v) as [[] res]; [| apply Hsame].
    eexists _, _; (split; [reflexivity | exact Hm]). }
  destruct (str_eqb k K_policy_number) eqn:E3.
  { destruct (on_str validate_policy_number _ v) as [[] res]; [| apply Hsame].
    eexists _, _; (split; [reflexivity | exact Hm]). }
  destruct (str_eqb k K_patient_info) eqn:E4.
  { apply str_eqb_eq in E4. specialize (Hpat E4).
    destruct v as [| | | | |d]; cbn [as_dict].
    6:{ specialize (Hpat d eq_refl).
        destruct (validate_patient_info_total d Hpat) as [[[ok errors] d'] Hval].
        rewrite Hval. cbn [bind].
        destruct (typed_sub_ensure PatientInfo_new _ Tp) as [p Hp].
        cbn [patient_info set_patient_info]. rewrite Hp.
        destruct ok; cbn [negb].
        2:{ eexists _, _; (split; [reflexivity | split; [exact I | exact Tt]]). }
        assert (Hkeys : sub_keys_in patient_keys d').
        { eapply validate_patient_info_sub_keys; [| exact Hval].
          intros k0 v0 Hin _. unfold patient_keys.
          destruct (Hpat k0 v0 Hin) as [[-> _]|[[-> _]|[-> _]]]; simpl; auto. }
        destruct (store_patient_total d' p Hkeys) as [x Hx]. rewrite Hx. cbn [bind].
        destruct (store_sub_obj _ _ _ _ Hx) as [a1 ->].
        eexists _, _; (split; [reflexivity | split; [exact I | exact Tt]]). }
    all: assert (Hk : str_eqb k K_available_time = false)
           by (apply str_eqb_neq; subst k; by cbv).
    all: rewrite Hk; apply Hsame. }
  destruct (str_eqb k K_available_time) eqn:E5; [| apply Hsame].
  apply str_eqb_eq in E5. specialize (Htime E5).
  destruct v as [| | | | |d]; cbn [as_dict]; try apply Hsame.
  specialize (Htime d eq_refl).
  destruct (validate_preferred_time_total today d Hy Htime) as [[[ok errors] d'] Hval].
  rewrite Hval. cbn [bind].
  destruct (typed_sub_ensure PreferredTime_new _ Tt) as [t Ht].
  cbn [available_time set_available_time]. rewrite Ht.
  destruct ok; cbn [negb].
  2:{ eexists _, _; (split; [reflexivity | split; [exact Tp | exact I]]). }
  assert (Hkeys : sub_keys_in time_keys d').
  { eapply validate_preferred_time_sub_keys; [| exact Hval].
    intros k0 v0 Hin _. unfold time_keys.
    destruct (Htime k0 v0 Hin) as [[-> | ->] _]; simpl; auto. }
  destruct (store_time_total d' t Hkeys) as [x Hx]. rewrite Hx. cbn [bind].
  destruct (store_sub_obj _ _ _ _ Hx) as [a1 ->].
  eexists _, _; (split; [reflexivity | split; [exact Tp | exact I]]).
Qed.

Lemma merge_loop_total today l : forall m es,
  year today < 9999 -> typed_record m -> declared_map l ->
  exists z errs, for_each (merge_step today) (m, es) l = Ok (z, errs).
Proof.
  induction l as [|[k v] l IH]; intros m es Hy Hm Hl; cbn [for_each]; [eauto |].
  destruct (Hl k v (or_introl eq_refl)) as (Hb & Hp & Ht).
  destruct (merge_step_total today m es k v Hy Hm Hb Hp Ht) as (m1 & es1 & -> & Hm1).
  cbn [bind]. apply IH; [done | done |].
  intros k0 v0 Hin. apply Hl. by right.
Qed.

Lemma new_errors_same errs : new_errors errs errs = [].
Proof.
  unfold new_errors.
  assert (H : forall l, (forall e, In e l -> In e errs) ->
            List.filter (fun e => negb (existsb (str_eqb e) errs)) l = []).
  { induction l as [|e l IH]; [done |]. intros Hl. cbn [List.filter].
    assert (He : existsb (str_eqb e) errs = true).
    { apply existsb_exists. exists e. split; [apply Hl; by left | apply str_eqb_refl]. }
    rewrite He. cbn [negb]. apply IH. intros e' He'. apply Hl. by right. }
  by apply H.
Qed.



Lemma declared_map_mixed_update : declared_map mixed_update.
Proof.
  intros k v [[= <- <-]|[[= <- <-]|[]]].
  - split; [done |]. split; intros Hk; discriminate Hk.
  - split; [intros Hk; discriminate Hk |]. split; [| intros Hk; discriminate Hk].
    intros _ d [= <-] k v [[= <- <-]|[[= <- <-]|[]]]; [left | right; right]; done.
Qed.


(** ** Missing fields *)

Lemma get_missing_fields_exact E missing :
  get_missing_fields E = Ok missing ->
  exists no_name no_date,
    sub_lacks name (patient_info E) = Ok no_name /\
    sub_lacks date (available_time E) = Ok no_date /\
    missing = pick (negb (truthy (booking_type E))) L_booking_type
              ++ pick no_name L_patient_info
              ++ pick (negb (truthy (policy_number E))) L_policy_number
              ++ pick no_date L_available_time
              ++ pick (negb (truthy (phone_number E))) L_phone_number.
Proof.
  unfold get_missing_fields.
  intros (no_name & Hn & (no_date & Hd & [= <-])%bind_Ok)%bind_Ok.
  exists no_name, no_date. split; [done |]. split; [done |].
  destruct (negb (truthy (booking_type E))), no_name,
    (negb (truthy (policy_number E))), no_date, (negb (truthy (phone_number E)));
    reflexivity.
Qed.

Lemma sub_lacks_to_dict {A} (attr1 attr2 : A -> value) (x : sub A) b :
  sub_lacks attr1 x = Ok b -> exists v, sub_attr_or_none attr2 x = Ok v.
Proof.
  unfold sub_lacks, sub_attr_or_none.
  destruct (sub_truthy x); cbn [negb]; [| eauto].
  destruct x; cbn [sub_attr bind]; [done | eauto | done].
Qed.

Lemma get_missing_fields_to_dict E missing :
  get_missing_fields E = Ok missing -> exists cur, to_dict E = Ok cur.
Proof.
  intros (no_name & no_date & Hn & Hd & _)%get_missing_fields_exact.
  unfold to_dict.
  destruct (sub_lacks_to_dict name name _ _ Hn) as [v1 ->].
  destruct (sub_lacks_to_dict name age _ _ Hn) as [v2 ->].
  destruct (sub_lacks_to_dict name gender _ _ Hn) as [v3 ->].
  destruct (sub_lacks_to_dict date date _ _ Hd) as [v4 ->].
  destruct (sub_lacks_to_dict date time_slot _ _ Hd) as [v5 ->].
  cbn [bind]. eauto.
Qed.

Lemma get_missing_fields_total E :
  typed_record E -> exists missing, get_missing_fields E = Ok missing.
Proof.
  intros [Hp Ht]. unfold get_missing_fields, sub_lacks.
  destruct (patient_info E); [| | done]; destruct (available_time E); [| | done | | | done];
    cbn [sub_truthy negb sub_attr bind]; eauto.
Qed.

(** C3, counterexample — the list is not in priority order.  For the empty
    record every mandatory field is missing; the list hands the policy number
    over before the appointment date, while the priority has the date
    first. *)
Lemma missing_fields_not_in_priority_order :
  get_missing_fields BookingEntities_new
  = Ok [L_booking_type; L_patient_info; L_policy_number; L_available_time; L_phone_number] /\
  subsequence
    [L_booking_type; L_patient_info; L_policy_number; L_available_time; L_phone_number]
    priority_order = false /\
  forall llm_service,
    get_missing_fields_question llm_service new_conversation
    = Ok (generate_missing_fields_question llm_service
            [L_booking_type; L_patient_info; L_policy_number; L_available_time;
             L_phone_number]
            (get_conversation_context new_conversation)
            [ (K_booking_type, VNone);
              (K_patient_info,
               VDict [(K_name, VNone); (K_age, VNone); (K_gender, VNone)]);
              (K_policy_number, VNone);
              (K_available_time, VDict [(K_date, VNone); (K_time_slot, VNone)]);
              (K_phone_number, VNone) ]).
Proof. repeat split. Qed.

(** C3 — the order of the missing fields, as the code has it.  The list of
    missing mandatory fields is in the fixed order appointment type, patient
    information (name), policy number, appointment date, phone number, holds
    exactly the fields that are missing, and is handed unchanged to the
    follow-up question generator whenever it is not empty; for a record
    whose optional fields hold what their type says, the list is
    produced. *)
Theorem missing_fields_in_declaration_order
    (conversation : ConversationManagerOf BookingEntities) :
  (forall missing,
     get_missing_fields (entities conversation) = Ok missing ->
     subsequence missing declaration_order = true /\
     (exists no_name no_date,
        sub_lacks name (patient_info (entities conversation)) = Ok no_name /\
        sub_lacks date (available_time (entities conversation)) = Ok no_date /\
        missing
        = pick (negb (truthy (booking_type (entities conversation)))) L_booking_type
          ++ pick no_name L_patient_info
          ++ pick (negb (truthy (policy_number (entities conversation)))) L_policy_number
          ++ pick no_date L_available_time
          ++ pick (negb (truthy (phone_number (entities conversation)))) L_phone_number) /\
     exists current_entities,
       to_dict (entities conversation) = Ok current_entities /\
       forall llm_service,
         get_missing_fields_question llm_service conversation
         = Ok (match missing with
               | [] => []
               | _ => generate_missing_fields_question llm_service missing
                        (get_conversation_context conversation) current_entities
               end)) /\
  (typed_record (entities conversation) ->
   exists missing, get_missing_fields (entities conversation) = Ok missing).
Proof.
  split; [| apply get_missing_fields_total].
  intros missing Hm.
  destruct (get_missing_fields_exact _ _ Hm) as (no_name & no_date & Hn & Hd & Heq).
  split; [| split].
  - rewrite Heq.
    destruct (negb (truthy (booking_type _))), no_name,
      (negb (truthy (policy_number _))), no_date, (negb (truthy (phone_number _)));
      reflexivity.
  - eauto 10.
  - destruct (get_missing_fields_to_dict _ _ Hm) as [cur Hcur].
    exists cur. split; [done |]. intros llm_service.
    unfold get_missing_fields_question. rewrite Hm. cbn [bind].
    destruct missing; [done |]. rewrite Hcur. done.
Qed.

(** ** The merge on the store *)

Lemma unchanged_refl h : unchanged h h.
Proof. by intros l o. Qed.

Lemma unchanged_insert h0 h l o :
  unchanged h0 h -> h0 !! l = None -> unchanged h0 (<[l := o]> h).
Proof.
  intros Hu Hl l0 o0 H0. rewrite lookup_insert_ne; [by apply Hu | congruence].
Qed.

Lemma unchanged_new h0 h :
  unchanged h0 h -> h0 !! fresh (dom h) = None.
Proof.
  intros Hu. destruct (h0 !! fresh (dom h)) as [o0|] eqn:E; [| done].
  apply Hu in E. exfalso. apply (is_fresh (dom h)). apply elem_of_dom. eauto.
Qed.

Lemma fresh_lookup (h : store.heap) : h !! fresh (dom h) = None.
Proof. apply not_elem_of_dom. apply is_fresh. Qed.

Lemma sub_at_insert {A} h0 h (wrap : A -> store.object) x y l o :
  sub_at h0 h wrap x y -> (forall a, h !! l <> Some (wrap a)) ->
  sub_at h0 (<[l := o]> h) wrap x y.
Proof.
  destruct x as [|lx|v], y as [|a|w]; cbn [sub_at]; try done.
  intros [Hlx H0] Hl. split; [| done].
  rewrite lookup_insert_ne; [done |]. intros ->. by eapply Hl.
Qed.

(** The record read off the copy. *)
Lemma owns_snapshot h0 h merged m : owns h0 h merged m -> store.snapshot h merged = Some m.
Proof.
  intros (_ & e & He & _ & Hb & Hpol & Hph & Hp & Ht).
  unfold store.snapshot, store.load, store.bindM, store.get_entities. rewrite He.
  destruct m as [mb mp mpol mt mph]. cbn [booking_type patient_info policy_number
    available_time phone_number] in *.
  destruct (patient_info e) as [|lp|vp], mp as [|p|wp]; cbn [sub_at] in Hp; try done;
    destruct (available_time e) as [|lt|vt], mt as [|t|wt]; cbn [sub_at] in Ht; try done;
    cbn [store.load_sub store.ret store.bindM];
    unfold store.bindM, store.get_patient, store.get_time, store.ret;
    repeat match goal with H : _ /\ _ |- _ => destruct H as [? ?] end;
    repeat match goal with H : h !! _ = Some _ |- _ => rewrite H end;
    subst; reflexivity.
Qed.

(** A record that can be read off an address stays readable, and the same,
    while the objects of the store stay unchanged. *)
Lemma snapshot_unchanged h0 h l E :
  unchanged h0 h -> store.snapshot h0 l = Some E -> store.snapshot h l = Some E.
Proof.
  intros Hu. unfold store.snapshot, store.load, store.bindM, store.get_entities.
  destruct (h0 !! l) as [[| |e]|] eqn:He; try done. rewrite (Hu _ _ He).
  destruct (patient_info e) as [|lp|vp]; cbn [store.load_sub];
    unfold store.ret, store.bindM, store.get_patient.
  2:{ destruct (h0 !! lp) as [[p| |]|] eqn:Hp; try done. rewrite (Hu _ _ Hp).
      destruct (available_time e) as [|lt|vt]; cbn [store.load_sub];
        unfold store.ret, store.bindM, store.get_time; try done.
      destruct (h0 !! lt) as [[|t|]|] eqn:Ht; try done. by rewrite (Hu _ _ Ht). }
  all: destruct (available_time e) as [|lt|vt]; cbn [store.load_sub];
    unfold store.ret, store.bindM, store.get_time; try done.
  all: destruct (h0 !! lt) as [[|t|]|] eqn:Ht; try done; by rewrite (Hu _ _ Ht).
Qed.

Lemma load_sub_patient_inv x h r :
  store.load_sub store.get_patient x h = Some r ->
  exists y, r = (h, Ok y) /\
    match x, y with
    | SubNone, SubNone => True
    | SubRaw v, SubRaw w => v = w
    | SubObj l, SubObj a => h !! l = Some (store.OPatientInfo a)
    | _, _ => False
    end.
Proof.
  destruct x as [|l|v]; cbn [store.load_sub]; unfold store.ret, store.bindM, store.get_patient.
  - intros [= <-]. by exists SubNone.
  - destruct (h !! l) as [[a| |]|]; try done. intros [= <-]. by exists (SubObj a).
  - intros [= <-]. by exists (SubRaw v).
Qed.

Lemma load_sub_time_inv x h r :
  store.load_sub store.get_time x h = Some r ->
  exists y, r = (h, Ok y) /\
    match x, y with
    | SubNone, SubNone => True
    | SubRaw v, SubRaw w => v = w
    | SubObj l, SubObj a => h !! l = Some (store.OPreferredTime a)
    | _, _ => False
    end.
Proof.
  destruct x as [|l|v]; cbn [store.load_sub]; unfold store.ret, store.bindM, store.get_time.
  - intros [= <-]. by exists SubNone.
  - destruct (h !! l) as [[|a|]|]; try done. intros [= <-]. by exists (SubObj a).
  - intros [= <-]. by exists (SubRaw v).
Qed.

Lemma snapshot_inv h l E :
  store.snapshot h l = Some E ->
  exists e, h !! l = Some (store.OBookingEntities e) /\
    store.load_sub store.get_patient (patient_info e) h = Some (h, Ok (patient_info E)) /\
    store.load_sub store.get_time (available_time e) h = Some (h, Ok (available_time E)) /\
    booking_type e = booking_type E /\ policy_number e = policy_number E /\
    phone_number e = phone_number E.
Proof.
  unfold store.snapshot, store.load. unfold store.bindM at 1, store.get_entities.
  destruct (h !! l) as [[| |e]|]; try done. unfold store.bindM at 1.
  destruct (store.load_sub store.get_patient (patient_info e) h) as [r|] eqn:Hp; [| done].
  destruct (load_sub_patient_inv _ _ _ Hp) as (p & -> & _). unfold store.bindM at 1.
  destruct (store.load_sub store.get_time (available_time e) h) as [r|] eqn:Ht; [| done].
  destruct (load_sub_time_inv _ _ _ Ht) as (t & -> & _). unfold store.ret.
  intros [= <-]. exists e. done.
Qed.

Lemma sub_at_grows {A} h0 h h' (wrap : A -> store.object) x y :
  sub_at h0 h wrap x y -> unchanged h h' -> sub_at h0 h' wrap x y.
Proof.
  destruct x as [|lx|v], y as [|a|w]; cbn [sub_at]; try done.
  intros [Hlx H0] Hu. split; [by apply Hu | done].
Qed.

Lemma unchanged_trans h0 h1 h2 : unchanged h0 h1 -> unchanged h1 h2 -> unchanged h0 h2.
Proof. intros H1 H2 l o H. by apply H2, H1. Qed.

Lemma unchanged_fresh (h : store.heap) o : unchanged h (<[fresh (dom h) := o]> h).
Proof. apply unchanged_insert; [apply unchanged_refl | apply fresh_lookup]. Qed.

Lemma copy_patient_at h0 h x y :
  unchanged h0 h ->
  store.load_sub store.get_patient x h0 = Some (h0, Ok y) ->
  exists h' x', store.copy_sub store.get_patient store.OPatientInfo x h = Some (h', Ok x') /\
    unchanged h h' /\ sub_at h0 h' store.OPatientInfo x' y.
Proof.
  intros Hu Hload. destruct (load_sub_patient_inv _ _ _ Hload) as (y' & [= <-] & Hxy).
  destruct x as [|l|v], y as [|a|w]; try done; cbn [store.copy_sub].
  - exists h, SubNone. split; [done |]. split; [apply unchanged_refl | done].
  - unfold store.bindM, store.get_patient, store.new, store.ret. rewrite (Hu _ _ Hxy).
    eexists _, _. split; [done |]. split; [apply unchanged_fresh |].
    cbn [sub_at]. split; [apply lookup_insert_eq | by apply unchanged_new].
  - exists h, (SubRaw v). split; [done |]. split; [apply unchanged_refl | done].
Qed.

Lemma copy_time_at h0 h x y :
  unchanged h0 h ->
  store.load_sub store.get_time x h0 = Some (h0, Ok y) ->
  exists h' x', store.copy_sub store.get_time store.OPreferredTime x h = Some (h', Ok x') /\
    unchanged h h' /\ sub_at h0 h' store.OPreferredTime x' y.
Proof.
  intros Hu Hload. destruct (load_sub_time_inv _ _ _ Hload) as (y' & [= <-] & Hxy).
  destruct x as [|l|v], y as [|a|w]; try done; cbn [store.copy_sub].
  - exists h, SubNone. split; [done |]. split; [apply unchanged_refl | done].
  - unfold store.bindM, store.get_time, store.new, store.ret. rewrite (Hu _ _ Hxy).
    eexists _, _. split; [done |]. split; [apply unchanged_fresh |].
    cbn [sub_at]. split; [apply lookup_insert_eq | by apply unchanged_new].
  - exists h, (SubRaw v). split; [done |]. split; [apply unchanged_refl | done].
Qed.

(** The deep copy is a new record, equal to the one copied, none of whose
    objects existed before. *)
Lemma deep_copy_owns h0 current E :
  store.snapshot h0 current = Some E ->
  exists h merged, store.deep_copy current h0 = Some (h, Ok merged) /\ owns h0 h merged E.
Proof.
  intros (e & He & Hp & Ht & Hb & Hpol & Hph)%snapshot_inv.
  unfold store.deep_copy. unfold store.bindM at 1, store.get_entities. rewrite He.
  destruct (copy_patient_at h0 h0 _ _ (unchanged_refl h0) Hp) as (h1 & p' & Hcp & Hu1 & Sp).
  unfold store.bindM at 1. rewrite Hcp.
  destruct (copy_time_at h0 h1 _ _ Hu1 Ht) as (h2 & t' & Hct & Hu2 & St).
  unfold store.bindM at 1. rewrite Hct. unfold store.new.
  eexists _, _. split; [done |].
  assert (Hu02 : unchanged h0 h2) by (by eapply unchanged_trans).
  split; [eapply unchanged_trans; [exact Hu02 | apply unchanged_fresh] |].
  eexists. split; [apply lookup_insert_eq |]. split; [by apply unchanged_new |].
  cbn [booking_type patient_info policy_number available_time phone_number].
  repeat split; try done.
  - eapply sub_at_grows; [exact Sp |].
    eapply unchanged_trans; [exact Hu2 | apply unchanged_fresh].
  - eapply sub_at_grows; [exact St | apply unchanged_fresh].
Qed.

Lemma sub_at_truthy {A} h0 h (wrap : A -> store.object) x y :
  sub_at h0 h wrap x y -> sub_truthy x = sub_truthy y.
Proof. destruct x, y; cbn [sub_at sub_truthy]; try done. by intros ->. Qed.

Ltac owns_fields :=
  cbn [booking_type patient_info policy_number available_time phone_number
       set_booking_type set_phone_number set_policy_number set_patient_info
       set_available_time].

(** An assignment to a scalar field of the copy. *)
Lemma owns_assign h0 h merged m set_e set_m :
  owns h0 h merged m ->
  (forall e : BookingEntitiesOf store.loc store.loc,
     patient_info (set_e e) = patient_info e /\
     available_time (set_e e) = available_time e) ->
  (patient_info (set_m m) = patient_info m /\
   available_time (set_m m) = available_time m) ->
  (forall e : BookingEntitiesOf store.loc store.loc,
     booking_type e = booking_type m -> policy_number e = policy_number m ->
     phone_number e = phone_number m ->
     booking_type (set_e e) = booking_type (set_m m) /\
     policy_number (set_e e) = policy_number (set_m m) /\
     phone_number (set_e e) = phone_number (set_m m)) ->
  exists h', store.assign merged set_e h = Some (h', Ok tt) /\ owns h0 h' merged (set_m m).
Proof.
  intros (Hu & e & He & H0 & Hb & Hpol & Hph & Hp & Ht) Hsub_e [Hmp Hmt] Hscalar.
  unfold store.assign, store.bindM, store.get_entities, store.put. rewrite He.
  eexists. split; [done |]. split; [by apply unchanged_insert |].
  exists (set_e e). split; [apply lookup_insert_eq |]. split; [done |].
  destruct (Hscalar e Hb Hpol Hph) as (-> & -> & ->).
  destruct (Hsub_e e) as [-> ->]. rewrite Hmp, Hmt.
  repeat split; try done.
  - apply sub_at_insert; [done |]. intros a. by rewrite He.
  - apply sub_at_insert; [done |]. intros a. by rewrite He.
Qed.

Lemma owns_ensure_patient h0 h merged m :
  owns h0 h merged m ->
  exists h', store.ensure_patient_info merged h = Some (h', Ok tt) /\
    owns h0 h' merged (set_patient_info (ensure PatientInfo_new (patient_info m)) m).
Proof.
  intros (Hu & e & He & H0 & Hb & Hpol & Hph & Hp & Ht).
  unfold store.ensure_patient_info. unfold store.bindM at 1, store.get_entities.
  rewrite He. unfold ensure. rewrite (sub_at_truthy _ _ _ _ _ Hp).
  destruct (sub_truthy (patient_info m)) eqn:Htr.
  - exists h. split; [done |]. split; [done |]. exists e. owns_fields. done.
  - unfold store.bindM, store.new, store.put.
    set (l := fresh (dom h)).
    assert (Hl : h !! l = None) by apply fresh_lookup.
    assert (Hne : l <> merged) by (intros ->; congruence).
    eexists. split; [done |]. split.
    { apply unchanged_insert; [| done]. apply unchanged_insert; [done |].
      by apply unchanged_new. }
    eexists. split; [apply lookup_insert_eq |]. split; [done |]. owns_fields.
    repeat split; try done.
    + rewrite lookup_insert_ne by done. apply lookup_insert_eq.
    + by apply unchanged_new.
    + apply sub_at_insert.
      * apply sub_at_insert; [done |]. intros a. by rewrite Hl.
      * intros a. rewrite lookup_insert_ne by done. by rewrite He.
Qed.

Lemma owns_ensure_time h0 h merged m :
  owns h0 h merged m ->
  exists h', store.ensure_available_time merged h = Some (h', Ok tt) /\
    owns h0 h' merged (set_available_time (ensure PreferredTime_new (available_time m)) m).
Proof.
  intros (Hu & e & He & H0 & Hb & Hpol & Hph & Hp & Ht).
  unfold store.ensure_available_time. unfold store.bindM at 1, store.get_entities.
  rewrite He. unfold ensure. rewrite (sub_at_truthy _ _ _ _ _ Ht).
  destruct (sub_truthy (available_time m)) eqn:Htr.
  - exists h. split; [done |]. split; [done |]. exists e. owns_fields. done.
  - unfold store.bindM, store.new, store.put.
    set (l := fresh (dom h)).
    assert (Hl : h !! l = None) by apply fresh_lookup.
    assert (Hne : l <> merged) by (intros ->; congruence).
    eexists. split; [done |]. split.
    { apply unchanged_insert; [| done]. apply unchanged_insert; [done |].
      by apply unchanged_new. }
    eexists. split; [apply lookup_insert_eq |]. split; [done |]. owns_fields.
    repeat split; try done.
    + apply sub_at_insert.
      * apply sub_at_insert; [done |]. intros a. by rewrite Hl.
      * intros a. rewrite lookup_insert_ne by done. by rewrite He.
    + rewrite lookup_insert_ne by done. apply lookup_insert_eq.
    + by apply unchanged_new.
Qed.

(** One store into the patient sub-object of the copy, next to one store
    into the record. *)
Lemma owns_store_patient h0 h merged m item :
  owns h0 h merged m ->
  exists h' r, store.store_patient_attr merged tt item h = Some (h', r) /\
    unchanged h0 h' /\
    match store_sub PatientInfo_setattr (patient_info m) item with
    | Ok x => r = Ok tt /\ owns h0 h' merged (set_patient_info x m)
    | Raise e => r = Raise e
    end.
Proof.
  intros Hown. pose proof Hown as (Hu & e & He & H0 & Hb & Hpol & Hph & Hp & Ht).
  destruct item as [k v]. unfold store.store_patient_attr, store_sub.
  destruct (truthy v).
  2:{ exists h, (Ok tt). split; [done |]. split; [done |]. split; [done |].
      split; [done |]. exists e. owns_fields. done. }
  unfold store.bindM at 1, store.get_entities. rewrite He.
  destruct (patient_info e) as [|l|rv] eqn:Hpe, (patient_info m) as [|p|rw] eqn:Hpm;
    cbn [sub_at] in Hp; try done; cbn [sub_setattr].
  - exists h, (Raise AttributeError). done.
  - destruct Hp as [Hl Hl0].
    unfold store.bindM, store.get_patient, store.lift, store.put. rewrite Hl.
    destruct (PatientInfo_setattr k v p) as [p'|ex]; cbn [bind].
    2:{ exists h, (Raise ex). done. }
    assert (Hne : l <> merged) by (intros ->; congruence).
    eexists _, _. split; [done |].
    assert (Hu' : unchanged h0 (<[l := store.OPatientInfo p']> h))
      by (by apply unchanged_insert).
    split; [done |]. split; [done |]. split; [done |].
    exists e. split; [by rewrite lookup_insert_ne |]. split; [done |]. owns_fields.
    rewrite Hpe. repeat split; try done.
    + apply lookup_insert_eq.
    + apply sub_at_insert; [done |]. intros a. by rewrite Hl.
  - exists h, (Raise AttributeError). done.
Qed.

Lemma owns_store_time h0 h merged m item :
  owns h0 h merged m ->
  exists h' r, store.store_time_attr merged tt item h = Some (h', r) /\
    unchanged h0 h' /\
    match store_sub PreferredTime_setattr (available_time m) item with
    | Ok x => r = Ok tt /\ owns h0 h' merged (set_available_time x m)
    | Raise e => r = Raise e
    end.
Proof.
  intros Hown. pose proof Hown as (Hu & e & He & H0 & Hb & Hpol & Hph & Hp & Ht).
  destruct item as [k v]. unfold store.store_time_attr, store_sub.
  destruct (truthy v).
  2:{ exists h, (Ok tt). split; [done |]. split; [done |]. split; [done |].
      split; [done |]. exists e. owns_fields. done. }
  unfold store.bindM at 1, store.get_entities. rewrite He.
  destruct (available_time e) as [|l|rv] eqn:Hte, (available_time m) as [|t|rw] eqn:Htm;
    cbn [sub_at] in Ht; try done; cbn [sub_setattr].
  - exists h, (Raise AttributeError). done.
  - destruct Ht as [Hl Hl0].
    unfold store.bindM, store.get_time, store.lift, store.put. rewrite Hl.
    destruct (PreferredTime_setattr k v t) as [t'|ex]; cbn [bind].
    2:{ exists h, (Raise ex). done. }
    assert (Hne : l <> merged) by (intros ->; congruence).
    eexists _, _. split; [done |].
    assert (Hu' : unchanged h0 (<[l := store.OPreferredTime t']> h))
      by (by apply unchanged_insert).
    split; [done |]. split; [done |]. split; [done |].
    exists e. split; [by rewrite lookup_insert_ne |]. split; [done |]. owns_fields.
    rewrite Hte. repeat split; try done.
    + apply sub_at_insert; [done |]. intros a. by rewrite Hl.
    + apply lookup_insert_eq.
  - exists h, (Raise AttributeError). done.
Qed.

Lemma owns_store_patient_loop h0 merged W : forall h m,
  owns h0 h merged m ->
  exists h' r, store.for_each_M (store.store_patient_attr merged) tt W h = Some (h', r) /\
    unchanged h0 h' /\
    match for_each (store_sub PatientInfo_setattr) (patient_info m) W with
    | Ok x => r = Ok tt /\ owns h0 h' merged (set_patient_info x m)
    | Raise e => r = Raise e
    end.
Proof.
  induction W as [|item W IH]; intros h m Hown; cbn [store.for_each_M for_each].
  - exists h, (Ok tt). split; [done |]. split; [by destruct Hown |].
    split; [done |]. destruct Hown as (Hu & e & He). split; [done |].
    exists e. owns_fields. done.
  - destruct (owns_store_patient _ _ _ _ item Hown) as (h1 & r1 & Hrun & Hu1 & Hres).
    unfold store.bindM. rewrite Hrun.
    destruct (store_sub PatientInfo_setattr (patient_info m) item) as [x|ex]; cbn [bind].
    + destruct Hres as [-> Hown1].
      destruct (IH _ _ Hown1) as (h2 & r2 & Hrun2 & Hu2 & Hres2).
      exists h2, r2. split; [done |]. split; [done |].
      cbn [patient_info set_patient_info] in Hres2.
      destruct (for_each _ x W); [| done]. destruct Hres2 as [-> Hown2]. done.
    + subst r1. eauto.
Qed.

Lemma owns_store_time_loop h0 merged W : forall h m,
  owns h0 h merged m ->
  exists h' r, store.for_each_M (store.store_time_attr merged) tt W h = Some (h', r) /\
    unchanged h0 h' /\
    match for_each (store_sub PreferredTime_setattr) (available_time m) W with
    | Ok x => r = Ok tt /\ owns h0 h' merged (set_available_time x m)
    | Raise e => r = Raise e
    end.
Proof.
  induction W as [|item W IH]; intros h m Hown; cbn [store.for_each_M for_each].
  - exists h, (Ok tt). split; [done |]. split; [by destruct Hown |].
    split; [done |]. destruct Hown as (Hu & e & He). split; [done |].
    exists e. owns_fields. done.
  - destruct (owns_store_time _ _ _ _ item Hown) as (h1 & r1 & Hrun & Hu1 & Hres).
    unfold store.bindM. rewrite Hrun.
    destruct (store_sub PreferredTime_setattr (available_time m) item) as [x|ex]; cbn [bind].
    + destruct Hres as [-> Hown1].
      destruct (IH _ _ Hown1) as (h2 & r2 & Hrun2 & Hu2 & Hres2).
      exists h2, r2. split; [done |]. split; [done |].
      cbn [available_time set_available_time] in Hres2.
      destruct (for_each _ x W); [| done]. destruct Hres2 as [-> Hown2]. done.
    + subst r1. eauto.
Qed.

(** One turn of the loop on the store, next to the turn on the record. *)
Lemma owns_merge_step today h0 h merged m es item :
  owns h0 h merged m ->
  exists h' r, store.merge_step today merged es item h = Some (h', r) /\
    unchanged h0 h' /\
    match merge_step today (m, es) item with
    | Ok (m', es') => r = Ok es' /\ owns h0 h' merged m'
    | Raise e => r = Raise e
    end.
Proof.
  intros Hown. pose proof Hown as (Hu & _).
  destruct item as [k v]. unfold store.merge_step, merge_step.
  assert (Hsame : forall es1 : list str, exists h' r,
            store.ret es1 h = Some (h', r) /\ unchanged h0 h' /\
            r = Ok es1 /\ owns h0 h' merged m).
  { intros es1. exists h, (Ok es1). done. }
  destruct (negb (truthy v)); [apply Hsame |].
  destruct (str_eqb k K_booking_type).
  { unfold store.bindM at 1, store.lift.
    destruct (validate_appointment_type v _) as [[[] res]|ex]; cbn [bind].
    - destruct (owns_assign h0 h merged m (set_booking_type (VStr res))
                  (set_booking_type (VStr res)) Hown) as (h1 & Hrun & Hown1); try done.
      unfold store.bindM. rewrite Hrun. exists h1, (Ok es).
      split; [done |]. split; [by destruct Hown1 | done].
    - apply Hsame.
    - exists h, (Raise ex). done. }
  destruct (str_eqb k K_phone_number).
  { destruct (on_str validate_phone_number _ v) as [[] res]; [| apply Hsame].
    destruct (owns_assign h0 h merged m (set_phone_number (VStr res))
                (set_phone_number (VStr res)) Hown) as (h1 & Hrun & Hown1); try done.
    unfold store.bindM. rewrite Hrun. exists h1, (Ok es).
    split; [done |]. split; [by destruct Hown1 | done]. }
  destruct (str_eqb k K_policy_number).
  { destruct (on_str validate_policy_number _ v) as [[] res]; [| apply Hsame].
    destruct (owns_assign h0 h merged m (set_policy_number (VStr res))
                (set_policy_number (VStr res)) Hown) as (h1 & Hrun & Hown1); try done.
    unfold store.bindM. rewrite Hrun. exists h1, (Ok es).
    split; [done |]. split; [by destruct Hown1 | done]. }
  destruct (if str_eqb k K_patient_info then as_dict v else None) as [d|].
  { destruct (owns_ensure_patient _ _ _ _ Hown) as (h1 & Hrun1 & Hown1).
    pose proof Hown1 as (Hu1 & _).
    unfold store.bindM at 1. rewrite Hrun1. unfold store.bindM at 1, store.lift.
    destruct (validate_patient_info d) as [[[ok errors] d']|ex]; cbn [bind].
    2:{ exists h1, (Raise ex). done. }
    destruct ok; cbn [negb].
    2:{ eexists h1, _. done. }
    destruct (owns_store_patient_loop h0 merged d' _ _ Hown1) as (h2 & r2 & Hrun2 & Hu2 & Hres).
    unfold store.bindM. rewrite Hrun2.
    cbn [patient_info set_patient_info] in Hres |- *.
    destruct (for_each _ _ d') as [x|ex]; cbn [bind].
    - destruct Hres as [-> Hown2]. exists h2, (Ok es). done.
    - subst r2. exists h2, (Raise ex). done. }
  destruct (if str_eqb k K_available_time then as_dict v else None) as [d|];
    [| apply Hsame].
  destruct (owns_ensure_time _ _ _ _ Hown) as (h1 & Hrun1 & Hown1).
  pose proof Hown1 as (Hu1 & _).
  unfold store.bindM at 1. rewrite Hrun1. unfold store.bindM at 1, store.lift.
  destruct (validate_preferred_time today d) as [[[ok errors] d']|ex]; cbn [bind].
  2:{ exists h1, (Raise ex). done. }
  destruct ok; cbn [negb].
  2:{ eexists h1, _. done. }
  destruct (owns_store_time_loop h0 merged d' _ _ Hown1) as (h2 & r2 & Hrun2 & Hu2 & Hres).
  unfold store.bindM. rewrite Hrun2.
  cbn [available_time set_available_time] in Hres |- *.
  destruct (for_each _ _ d') as [x|ex]; cbn [bind].
  - destruct Hres as [-> Hown2]. exists h2, (Ok es). done.
  - subst r2. exists h2, (Raise ex). done.
Qed.

Lemma owns_merge_loop today h0 merged M : forall h m es,
  owns h0 h merged m ->
  exists h' r, store.for_each_M (store.merge_step today merged) es M h = Some (h', r) /\
    unchanged h0 h' /\
    match for_each (merge_step today) (m, es) M with
    | Ok (m', es') => r = Ok es' /\ owns h0 h' merged m'
    | Raise e => r = Raise e
    end.
Proof.
  induction M as [|item M IH]; intros h m es Hown; cbn [store.for_each_M for_each].
  - exists h, (Ok es). split; [done |]. split; [by destruct Hown | done].
  - destruct (owns_merge_step today _ _ _ _ es item Hown) as (h1 & r1 & Hrun & Hu1 & Hres).
    unfold store.bindM. rewrite Hrun.
    destruct (merge_step today (m, es) item) as [[m1 es1]|ex]; cbn [bind].
    + destruct Hres as [-> Hown1]. by apply IH.
    + subst r1. eauto.
Qed.

(** The merge on the store does what the merge on records does, to a new
    record, and changes no object that existed before. *)
Lemma store_merge_entities_refines today h0 current E M :
  store.snapshot h0 current = Some E ->
  exists h' r, store.merge_entities today current M h0 = Some (h', r) /\
    unchanged h0 h' /\
    match merge_entities today E M with
    | Ok (E', errs) => exists merged, r = Ok (merged, errs) /\ owns h0 h' merged E'
    | Raise e => r = Raise e
    end.
Proof.
  intros Hsnap. destruct (deep_copy_owns _ _ _ Hsnap) as (h1 & merged & Hcopy & Hown1).
  unfold store.merge_entities. unfold store.bindM at 1. rewrite Hcopy.
  destruct (owns_merge_loop today h0 merged M _ _ [] Hown1) as (h2 & r2 & Hrun & Hu2 & Hres).
  unfold store.bindM at 1. rewrite Hrun. unfold merge_entities.
  destruct (for_each (merge_step today) (E, []) M) as [[E' errs]|ex].
  - destruct Hres as [-> Hown2]. unfold store.ret. eauto 10.
  - subst r2. eauto.
Qed.

(** ** The extractor *)

Lemma store_to_dict h l E :
  store.snapshot h l = Some E -> store.to_dict l h = Some (h, entities.to_dict E).
Proof.
  unfold store.snapshot, store.to_dict, store.bindM, store.lift.
  destruct (store.load l h) as [[h' [e|ex]]|] eqn:Hload; try done.
  intros [= ->].
  assert (h' = h); [| by subst].
  unfold store.load, store.bindM, store.get_entities in Hload.
  destruct (h !! l) as [[| |e]|]; try done.
  destruct (store.load_sub store.get_patient (patient_info e) h) as [r|] eqn:Hp; [| done].
  destruct (load_sub_patient_inv _ _ _ Hp) as (p & -> & _).
  destruct (store.load_sub store.get_time (available_time e) h) as [r|] eqn:Ht; [| done].
  destruct (load_sub_time_inv _ _ _ Ht) as (t & -> & _).
  unfold store.ret in Hload. by injection Hload as <- _.
Qed.

(** [extract_and_merge] when the extraction service returns nothing: no
    object is touched, the conversation and the history are as before. *)
Lemma extract_and_merge_nothing llm_service today history conversation user_message h E
    before :
  store.snapshot h (entities conversation) = Some E ->
  entities.to_dict E = Ok before ->
  extract_entities llm_service user_message before
    (get_conversation_context conversation) = [] ->
  store.extract_and_merge llm_service today history conversation user_message h
  = Some (h, Ok (history, conversation,
                 (false, store.mkExtractionInfo user_message [] false [] before None None))).
Proof.
  intros Hsnap Hd Hex.
  pose proof (store_to_dict _ _ _ Hsnap) as Hto. rewrite Hd in Hto.
  unfold store.extract_and_merge.
  unfold store.bindM at 1. rewrite Hto.
  unfold store.catch at 1. unfold store.bindM at 1. rewrite Hto.
  rewrite Hex. reflexivity.
Qed.

(** [extract_and_merge] when the extraction service returns something. *)
Lemma extract_and_merge_something llm_service today history conversation user_message h E
    before :
  store.snapshot h (entities conversation) = Some E ->
  entities.to_dict E = Ok before ->
  let extracted :=
    extract_entities llm_service user_message before
      (get_conversation_context conversation) in
  let failed e := store.mkExtractionInfo user_message extracted false [] before None e in
  extracted <> [] ->
  exists h' out,
    store.extract_and_merge llm_service today history conversation user_message h
    = Some (h', Ok out) /\
    unchanged h h' /\
    match merge_entities today E extracted with
    | Raise e => out = (history, conversation, (false, failed (Some e)))
    | Ok (E', errs) =>
        exists merged, owns h h' merged E' /\
          match entities.to_dict E' with
          | Ok after =>
              let info :=
                store.mkExtractionInfo user_message extracted true errs before
                  (Some after) None in
              out = (history ++ [info], set_entities merged conversation, (true, info))
          | Raise e =>
              out = (history, set_entities merged conversation, (false, failed (Some e)))
          end
    end.
Proof.
  intros Hsnap Hd extracted failed Hex.
  pose proof (store_to_dict _ _ _ Hsnap) as Hto. rewrite Hd in Hto.
  unfold store.extract_and_merge.
  unfold store.bindM at 1. rewrite Hto.
  unfold store.catch at 1. unfold store.bindM at 1. rewrite Hto.
  fold extracted.
  assert (Htr : truthy (VDict extracted) = true) by (by destruct extracted).
  rewrite Htr. cbn [negb].
  destruct (store_merge_entities_refines today h (entities conversation) E extracted Hsnap)
    as (h' & r & Hrun & Hu & Hres).
  unfold store.catch at 1. unfold store.bindM at 1. rewrite Hrun.
  destruct (merge_entities today E extracted) as [[E' errs]|ex].
  - destruct Hres as (merged & -> & Hown).
    unfold store.catch at 1, store.bindM at 1.
    rewrite (store_to_dict _ _ _ (owns_snapshot _ _ _ _ Hown)).
    destruct (entities.to_dict E') as [after|ex] eqn:Hafter.
    + eexists h', _. split; [reflexivity |]. split; [done |].
      exists merged. split; [done |]. done.
    + eexists h', _. split; [reflexivity |]. split; [done |].
      exists merged. split; [done |]. done.
  - subst r. eexists h', _. split; [reflexivity |]. done.
Qed.

Lemma to_dict_total E : typed_record E -> exists d, entities.to_dict E = Ok d.
Proof.
  intros [Hp Ht]. unfold entities.to_dict, sub_attr_or_none.
  destruct (patient_info E); [| | done]; destruct (available_time E); [| | done | | | done];
    cbn [sub_truthy sub_attr bind]; eauto.
Qed.

(** C8 — extraction failure.  When the extraction service returns nothing
    ([extract_entities] gives the empty map, which is what it gives for an
    empty and for an unparseable answer), [extract_and_merge] reports failure
    and no object of the store is touched: the store, the conversation with
    the address of its entity record, the record read off that address and
    the extraction history are as before the call; the merge has not run. *)
Theorem extraction_failure_leaves_entities llm_service today history conversation
    user_message h E :
  store.snapshot h (entities conversation) = Some E ->
  typed_record E ->
  (forall before,
     extract_entities llm_service user_message before
       (get_conversation_context conversation) = []) ->
  exists info,
    store.extract_and_merge llm_service today history conversation user_message h
    = Some (h, Ok (history, conversation, (false, info))) /\
    store.merged_successfully info = false /\
    store.entities_after info = None /\
    store.validation_errors info = [] /\
    store.snapshot h (entities conversation) = Some E.
Proof.
  intros Hsnap HE Hllm. destruct (to_dict_total E HE) as [before Hd].
  eexists. split.
  - eapply extract_and_merge_nothing; [exact Hsnap | exact Hd | apply Hllm].
  - done.
Qed.

Lemma snapshot_store_example : store.snapshot store_example 1%positive = Some BookingEntities_new.
Proof. vm_compute. reflexivity. Qed.

Lemma extraction_failure_leaves_entities_witness :
  store.snapshot store_example (entities conversation_example) = Some BookingEntities_new /\
  typed_record BookingEntities_new /\
  exists info,
    store.extract_and_merge llm_nothing today_example [] conversation_example
      (lit "hello") store_example
    = Some (store_example, Ok ([], conversation_example, (false, info))).
Proof.
  split; [exact snapshot_store_example |]. split; [by split |].
  destruct (extraction_failure_leaves_entities llm_nothing today_example []
              conversation_example (lit "hello") store_example BookingEntities_new
              snapshot_store_example (conj I I) (fun _ => eq_refl))
    as (info & Hrun & _).
  exists info. exact Hrun.
Defined.

(** The optional fields of the merged record hold what their type says if
    those of the given record do. *)
Lemma merge_step_rel_typed today m k v m1 g :
  merge_step_rel today m k v m1 g -> typed_record m -> typed_record m1.
Proof.
  intros H [Hp Ht]. destruct H; try (by split).
  - destruct (typed_sub_ensure PatientInfo_new _ Hp) as [a Ha].
    split; cbn [patient_info available_time set_patient_info]; [by rewrite Ha | done].
  - destruct (typed_sub_ensure PatientInfo_new _ Hp) as [a Ha].
    match goal with
    | Hl : for_each _ _ _ = Ok _ |- _ =>
        rewrite Ha in Hl; apply store_sub_obj in Hl as [a1 ->]
    end.
    by split.
  - destruct (typed_sub_ensure PreferredTime_new _ Ht) as [a Ha].
    split; cbn [patient_info available_time set_available_time]; [done | by rewrite Ha].
  - destruct (typed_sub_ensure PreferredTime_new _ Ht) as [a Ha].
    match goal with
    | Hl : for_each _ _ _ = Ok _ |- _ =>
        rewrite Ha in Hl; apply store_sub_obj in Hl as [a1 ->]
    end.
    by split.
Qed.

Lemma merge_entities_typed today M E E' errs :
  typed_record E -> merge_entities today E M = Ok (E', errs) -> typed_record E'.
Proof.
  unfold merge_entities. generalize (@nil str) as es. revert E.
  induction M as [|i M IH]; intros E es HE Hrun.
  - by injection Hrun as <- _.
  - apply merge_loop_cons in Hrun as (m1 & g & Hstep & Hrest).
    eapply IH; [| exact Hrest]. by eapply merge_step_rel_typed.
Qed.

(** C10 — the merge leaves its input alone.  [merge_entities] always ends
    (with a result or an exception) in a store in which every object that
    existed before is unchanged, the record it was given among them; the
    merged record is at a new address, and none of its objects existed
    before.  [extract_and_merge] returns with every object that existed
    before unchanged; and when the extraction [M] is not empty and its merge
    returns, [extract_and_merge] reports success, the conversation points to
    the new address, where the merged record is, and the record it pointed
    to before is still in the store as it was. *)
Theorem merge_entities_leaves_input_untouched today h current E M :
  store.snapshot h current = Some E ->
  (exists h' r,
     store.merge_entities today current M h = Some (h', r) /\
     unchanged h h' /\ h' !! current = h !! current /\
     store.snapshot h' current = Some E /\
     forall merged errs, r = Ok (merged, errs) ->
       h !! merged = None /\ merged <> current /\
       exists E', store.snapshot h' merged = Some E' /\
                  merge_entities today E M = Ok (E', errs)) /\
  (forall llm_service history conversation user_message,
     entities conversation = current -> typed_record E ->
     (exists h' history' conversation' ok info,
        store.extract_and_merge llm_service today history conversation user_message h
        = Some (h', Ok (history', conversation', (ok, info))) /\
        unchanged h h' /\ store.snapshot h' current = Some E) /\
     (forall before E' errs,
        entities.to_dict E = Ok before ->
        extract_entities llm_service user_message before
          (get_conversation_context conversation) = M ->
        M <> [] ->
        merge_entities today E M = Ok (E', errs) ->
        exists h' merged after,
          store.extract_and_merge llm_service today history conversation user_message h
          = Some (h', Ok (history ++
                            [store.mkExtractionInfo user_message M true errs before
                               (Some after) None],
                          set_entities merged conversation,
                          (true,
                           store.mkExtractionInfo user_message M true errs before
                             (Some after) None))) /\
          entities.to_dict E' = Ok after /\
          unchanged h h' /\ store.snapshot h' current = Some E /\
          h !! merged = None /\ merged <> current /\
          store.snapshot h' merged = Some E')).
Proof.
  intros Hsnap.
  assert (Hcur : exists e, h !! current = Some (store.OBookingEntities e)).
  { apply snapshot_inv in Hsnap as (e & He & _). eauto. }
  destruct Hcur as [e He].
  split.
  - destruct (store_merge_entities_refines today h current E M Hsnap)
      as (h' & r & Hrun & Hu & Hres).
    exists h', r. split; [done |]. split; [done |].
    split; [by rewrite He, (Hu _ _ He) |].
    split; [by eapply snapshot_unchanged |].
    intros merged errs ->.
    destruct (merge_entities today E M) as [[E' errs']|ex]; [| done].
    destruct Hres as (merged' & [= <- <-] & Hown).
    pose proof Hown as (_ & e' & _ & H0 & _).
    split; [done |]. split; [intros ->; congruence |].
    exists E'. split; [by eapply owns_snapshot | done].
  - intros llm_service history conversation user_message <- HE. split.
    + destruct (to_dict_total E HE) as [before Hd].
      destruct (extract_entities llm_service user_message before
                  (get_conversation_context conversation)) as [|item extracted] eqn:Hex.
      * exists h, history, conversation, false,
          (store.mkExtractionInfo user_message [] false [] before None None).
        split; [by eapply extract_and_merge_nothing |].
        split; [apply unchanged_refl | done].
      * destruct (extract_and_merge_something llm_service today history conversation
                    user_message h E before Hsnap Hd) as (h' & out & Hrun & Hu & _).
        { by rewrite Hex. }
        destruct out as [[history' conversation'] [ok info]].
        exists h', history', conversation', ok, info.
        split; [exact Hrun |]. split; [done | by eapply snapshot_unchanged].
    + intros before E' errs Hd Hex Hne Hm.
      destruct (extract_and_merge_something llm_service today history conversation
                  user_message h E before Hsnap Hd) as (h' & out & Hrun & Hu & Hres).
      { by rewrite Hex. }
      rewrite Hex, Hm in Hres. destruct Hres as (merged & Hown & Hres).
      destruct (to_dict_total E' (merge_entities_typed _ _ _ _ _ HE Hm)) as [after Hafter].
      rewrite Hafter in Hres. cbv zeta in Hres. subst out.
      pose proof Hown as (_ & e' & _ & H0 & _).
      exists h', merged, after.
      split; [exact Hrun |]. split; [done |]. split; [done |].
      split; [by eapply snapshot_unchanged |]. split; [done |].
      split; [intros Heq; rewrite Heq in H0; congruence | by eapply owns_snapshot].
Qed.

Lemma merge_entities_leaves_input_untouched_witness :
  store.snapshot store_example 1%positive = Some BookingEntities_new /\
  (exists h' r,
     store.merge_entities today_example 1%positive mixed_update store_example
     = Some (h', r) /\
     unchanged store_example h' /\
     store.snapshot h' 1%positive = Some BookingEntities_new) /\
  exists h' history' merged info,
    store.extract_and_merge llm_mixed today_example [] conversation_example
      (lit "hello") store_example
    = Some (h', Ok (history', set_entities merged conversation_example, (true, info))) /\
    merged <> 1%positive /\
    store.snapshot h' 1%positive = Some BookingEntities_new /\
    store.snapshot h' merged
    = Some (set_phone_number (VStr (lit "91234567")) BookingEntities_new).
Proof.
  split; [exact snapshot_store_example |].
  destruct (merge_entities_leaves_input_untouched today_example store_example
              1%positive BookingEntities_new mixed_update snapshot_store_example)
    as [(h' & r & Hrun & Hu & _ & Hsnap & _) Horch].
  split; [exists h', r; split; [exact Hrun |]; split; [exact Hu | exact Hsnap] |].
  destruct (Horch llm_mixed [] conversation_example (lit "hello") eq_refl (conj I I))
    as [_ Hmerged].
  destruct (Hmerged _ (set_phone_number (VStr (lit "91234567")) BookingEntities_new)
              [tagged K_patient_info MSG_GENDER] eq_refl eq_refl)
    as (h2 & merged & after & Hrun2 & _ & _ & Hold & _ & Hne & Hnew).
  - discriminate.
  - vm_compute. reflexivity.
  - exists h2. eexists. exists merged. eexists. split; [exact Hrun2 |].
    split; [exact Hne |]. split; [exact Hold | exact Hnew].
Defined.

Lemma missing_fields_in_declaration_order_witness :
  typed_record (entities new_conversation) /\
  exists missing, get_missing_fields (entities new_conversation) = Ok missing.
Proof.
  split; [by split |].
  apply (missing_fields_in_declaration_order new_conversation). by split.
Defined.

(** ** Slot suggestions *)

Section slots.

Import calendar_avalibility.
Local Open Scope Z_scope.

Lemma slot_duration_hour : slot_duration = HOUR.
Proof. reflexivity. Qed.

Lemma hour_parts t :
  t = HOUR * (t / HOUR) + (minute t * MINUTE + second t * SECOND + microsecond t) /\
  0 <= minute t /\ 0 <= second t /\ 0 <= microsecond t.
Proof.
  unfold minute, second, microsecond.
  assert (Hm : t / MINUTE = t / SECOND / 60).
  { unfold MINUTE. rewrite (Z.mul_comm 60 SECOND). by rewrite Z.div_div. }
  assert (Hh : t / HOUR = t / SECOND / 60 / 60).
  { unfold HOUR. rewrite (Z.mul_comm 60 MINUTE). rewrite <- Z.div_div by done.
    by rewrite Hm. }
  rewrite Hh, Hm.
  pose proof (Z.div_mod t SECOND ltac:(done)) as H1.
  pose proof (Z.div_mod (t / SECOND) 60 ltac:(done)) as H2.
  pose proof (Z.div_mod (t / SECOND / 60) 60 ltac:(done)) as H3.
  pose proof (Z.mod_pos_bound t SECOND ltac:(done)) as B1.
  pose proof (Z.mod_pos_bound (t / SECOND) 60 ltac:(done)) as B2.
  pose proof (Z.mod_pos_bound (t / SECOND / 60) 60 ltac:(done)) as B3.
  unfold HOUR, MINUTE, SECOND in *. lia.
Qed.

Lemma on_the_hour_floor t : on_the_hour t = HOUR * (t / HOUR).
Proof. unfold on_the_hour. pose proof (hour_parts t) as [H _]. lia. Qed.

(** The rounding: a time on the hour stays, any other moves to the next full
    hour. *)
Lemma round_up_spec t :
  round_up t = if t mod HOUR =? 0 then t else HOUR * (t / HOUR + 1).
Proof.
  unfold round_up.
  pose proof (hour_parts t) as (Ht & Hm & Hs & Hu).
  pose proof (Z.div_mod t HOUR ltac:(done)) as Hdm.
  destruct (t mod HOUR =? 0) eqn:E.
  - apply Z.eqb_eq in E.
    assert (minute t = 0 /\ second t = 0 /\ microsecond t = 0) as (-> & -> & ->).
    { unfold HOUR, MINUTE, SECOND in *. lia. }
    reflexivity.
  - apply Z.eqb_neq in E.
    assert (Hor : (0 <? minute t) || (0 <? second t) || (0 <? microsecond t) = true).
    { destruct (0 <? minute t) eqn:E1; [done |].
      destruct (0 <? second t) eqn:E2; [done |].
      destruct (0 <? microsecond t) eqn:E3; [done |].
      apply Z.ltb_ge in E1, E2, E3. exfalso. apply E.
      unfold HOUR, MINUTE, SECOND in *. lia. }
    rewrite Hor. rewrite on_the_hour_floor.
    replace (t + HOUR) with (t + 1 * HOUR) by lia.
    by rewrite Z.div_add.
Qed.

Lemma round_up_ge t : t <= round_up t < t + HOUR /\ round_up t mod HOUR = 0.
Proof.
  rewrite round_up_spec.
  pose proof (Z.div_mod t HOUR ltac:(done)) as Hdm.
  pose proof (Z.mod_pos_bound t HOUR ltac:(done)) as Hb.
  destruct (t mod HOUR =? 0) eqn:E.
  - apply Z.eqb_eq in E. lia.
  - apply Z.eqb_neq in E. split; [lia |].
    rewrite Z.mul_comm. apply Z.mod_mul. done.
Qed.

Lemma cursors_S start n :
  cursors start (S n) = start :: cursors (start + slot_duration) n.
Proof.
  unfold cursors. cbn [seq map]. f_equal; [lia |].
  rewrite <- seq_shift, map_map. apply map_ext. intros k. lia.
Qed.

Lemma turns_step time_max current :
  current + slot_duration <= time_max ->
  turns time_max current = S (turns time_max (current + slot_duration)).
Proof.
  intros H. unfold turns.
  replace (time_max - current)
    with (time_max - (current + slot_duration) + 1 * slot_duration) by lia.
  rewrite Z.div_add by done.
  assert (0 <= (time_max - (current + slot_duration)) / slot_duration).
  { apply Z.div_pos; [lia | done]. }
  lia.
Qed.

Lemma turns_stop time_max current :
  time_max < current + slot_duration -> turns time_max current = 0%nat.
Proof.
  intros H. unfold turns.
  destruct (Z_lt_le_dec (time_max - current) 0) as [Hneg|Hpos].
  - assert ((time_max - current) / slot_duration < 0).
    { apply Z.div_lt_upper_bound; [done | lia]. }
    lia.
  - rewrite Z.div_small; [done | lia].
Qed.

(** The loop ends before its fuel does, with the accepted positions of the
    cursor appended. *)
Lemma suggest_loop_spec busy time_max fuel : forall current suggestions,
  (turns time_max current < fuel)%nat ->
  suggest_loop fuel busy time_max current suggestions
  = Some (suggestions
          ++ List.filter (accepted busy) (cursors current (turns time_max current))).
Proof.
  induction fuel as [|fuel IH]; intros current suggestions Hfuel; [lia |].
  cbn [suggest_loop]. destruct (current + slot_duration <=? time_max) eqn:E.
  - apply Z.leb_le in E. rewrite (turns_step _ _ E) in Hfuel |- *.
    rewrite IH by lia. rewrite cursors_S. cbn [List.filter]. unfold accepted at 2.
    destruct ((BUSINESS_HOURS_START <=? hour current)
              && (hour current <? BUSINESS_HOURS_END)); cbn [andb].
    + destruct (overlaps busy current); cbn [negb]; [done |].
      by rewrite <- app_assoc.
    + done.
  - apply Z.leb_gt in E. rewrite (turns_stop _ _ E). cbn. by rewrite app_nil_r.
Qed.

Lemma suggest_meeting_times_spec busy time_min time_max :
  suggest_meeting_times busy time_min time_max
  = Some (List.filter (accepted busy)
            (cursors (round_up time_min) (turns time_max (round_up time_min)))).
Proof. unfold suggest_meeting_times. rewrite suggest_loop_spec by lia. done. Qed.

Lemma in_cursors start n s :
  In s (cursors start n) <->
  exists k : nat, (k < n)%nat /\ s = start + Z.of_nat k * slot_duration.
Proof.
  unfold cursors. rewrite in_map_iff. split.
  - intros (k & <- & Hk%in_seq). exists k. split; [lia | done].
  - intros (k & Hk & ->). exists k. split; [done |]. apply in_seq. lia.
Qed.

Lemma turns_lt time_max start (k : nat) :
  (k < turns time_max start)%nat <->
  start + Z.of_nat k * slot_duration + slot_duration <= time_max.
Proof.
  unfold turns. split.
  - intros H.
    assert (Hq : Z.of_nat k + 1 <= (time_max - start) / slot_duration) by lia.
    pose proof (Z.mul_div_le (time_max - start) slot_duration ltac:(done)) as Hle.
    assert (slot_duration * (Z.of_nat k + 1) <= slot_duration * ((time_max - start) / slot_duration)).
    { apply Z.mul_le_mono_nonneg_l; [done | lia]. }
    lia.
  - intros H.
    assert (Hq : Z.of_nat k + 1 <= (time_max - start) / slot_duration).
    { apply Z.div_le_lower_bound; [done | lia]. }
    lia.
Qed.

Lemma overlaps_iff busy s : overlaps busy s = true <-> busy_overlap busy s.
Proof.
  unfold overlaps, busy_overlap. rewrite existsb_exists. split.
  - intros ([bs be] & Hin & [H1%Z.ltb_lt H2%Z.ltb_lt]%andb_true_iff). eauto.
  - intros (bs & be & Hin & H1 & H2). exists (bs, be). split; [done |].
    apply andb_true_iff. split; by apply Z.ltb_lt.
Qed.

(** What is suggested: the candidate slots that no busy period overlaps. *)
Lemma suggested_iff busy time_min time_max result s :
  suggest_meeting_times busy time_min time_max = Some result ->
  In s result <-> candidate time_min time_max s /\ ~ busy_overlap busy s.
Proof.
  rewrite suggest_meeting_times_spec. intros [= <-].
  rewrite filter_In, in_cursors. unfold accepted, candidate.
  rewrite !andb_true_iff, negb_true_iff, Z.leb_le, Z.ltb_lt.
  rewrite <- overlaps_iff. split.
  - intros ((k & Hk%turns_lt & ->) & (Hlo & Hhi) & Hov).
    split; [| congruence]. split; [eauto |]. split; [done | done].
  - intros (((k & ->) & Hend & Hlo & Hhi) & Hov).
    split; [exists k; split; [by apply turns_lt | done] |].
    split; [done |]. by destruct (overlaps busy _).
Qed.

(** C4 — half-open overlap.  The suggestions are produced, every one of
    them is a candidate slot, and a candidate slot [[s, s+d)] is left out if
    and only if some busy period [[bs, be)] has [bs < s+d] and [s < be]; a
    busy period that ends when the slot starts, or starts when the slot ends,
    does not leave it out. *)
Theorem slot_excluded_iff_busy_overlap busy time_min time_max :
  exists result,
    suggest_meeting_times busy time_min time_max = Some result /\
    (forall s, In s result -> candidate time_min time_max s) /\
    (forall s, candidate time_min time_max s ->
               (~ In s result <-> busy_overlap busy s)) /\
    (forall s, candidate time_min time_max s ->
               (forall bs be, In (bs, be) busy -> be <= s \/ s + slot_duration <= bs) ->
               In s result).
Proof.
  eexists. split; [apply suggest_meeting_times_spec |].
  pose proof (fun s => suggested_iff busy time_min time_max _ s
                         (suggest_meeting_times_spec busy time_min time_max)) as Hiff.
  split; [| split].
  - intros s Hs. by apply Hiff in Hs as [? _].
  - intros s Hc. rewrite Hiff. split.
    + intros Hnot. apply overlaps_iff.
      destruct (overlaps busy s) eqn:E; [done |]. exfalso. apply Hnot.
      split; [done |]. rewrite <- overlaps_iff. congruence.
    + intros Hov [_ Hno]. by apply Hno.
  - intros s Hc Hfree. apply Hiff. split; [done |].
    intros (bs & be & Hin & H1 & H2). destruct (Hfree bs be Hin); lia.
Qed.

(** A busy period from 09:00 to 10:00 leaves the slot at 10:00 in. *)
Lemma abutting_busy_period_example :
  suggest_meeting_times [(9 * HOUR, 10 * HOUR)] (9 * HOUR) (12 * HOUR)
  = Some [10 * HOUR; 11 * HOUR].
Proof. vm_compute. reflexivity. Qed.

Lemma hour_of_day day k : 0 <= k < 24 -> hour (day * DAY + k * HOUR) = k.
Proof.
  intros Hk. unfold hour.
  replace (day * DAY + k * HOUR) with ((day * 24 + k) * HOUR) by (unfold DAY; lia).
  rewrite Z.div_mul by done.
  rewrite Z.add_comm, Z.mod_add by done. by apply Z.mod_small.
Qed.

Lemma filter_day_hours day (ks : list Z) :
  Forall (fun k => 0 <= k < 24) ks ->
  List.filter (accepted []) (map (fun k => day * DAY + k * HOUR) ks)
  = map (fun k => day * DAY + k * HOUR)
        (List.filter (fun k => (9 <=? k) && (k <? 18)) ks).
Proof.
  induction 1 as [|k ks Hk _ IH]; [done |]. cbn [map List.filter].
  unfold accepted at 1. rewrite (hour_of_day day k Hk).
  cbn [overlaps existsb negb]. rewrite andb_true_r.
  change BUSINESS_HOURS_START with 9. change BUSINESS_HOURS_END with 18.
  destruct ((9 <=? k) && (k <? 18)); cbn [map]; by rewrite IH.
Qed.

Lemma cursors_day day a n :
  cursors (day * DAY + a * HOUR) n
  = map (fun k => day * DAY + k * HOUR) (map (fun i => a + Z.of_nat i) (seq 0 n)).
Proof.
  unfold cursors. rewrite map_map. apply map_ext. intros i.
  rewrite slot_duration_hour. lia.
Qed.

Lemma round_up_on_the_hour day a : round_up (day * DAY + a * HOUR) = day * DAY + a * HOUR.
Proof.
  rewrite round_up_spec.
  replace (day * DAY + a * HOUR) with ((day * 24 + a) * HOUR) by (unfold DAY; lia).
  by rewrite Z.mod_mul.
Qed.

Lemma round_up_next_hour day a time_min :
  day * DAY + a * HOUR < time_min <= day * DAY + (a + 1) * HOUR ->
  round_up time_min = day * DAY + (a + 1) * HOUR.
Proof.
  intros H. destruct (round_up_ge time_min) as [Hr Hmod].
  apply Z.mod_divide in Hmod as [q Hq]; [| done].
  unfold DAY, HOUR, MINUTE, SECOND in *. lia.
Qed.

Lemma turns_day day a b :
  turns (day * DAY + b * HOUR) (day * DAY + a * HOUR) = Z.to_nat (b - a).
Proof.
  unfold turns. f_equal.
  replace (day * DAY + b * HOUR - (day * DAY + a * HOUR)) with ((b - a) * slot_duration)
    by (rewrite slot_duration_hour; lia).
  by rewrite Z.div_mul.
Qed.

Lemma cursors_sorted n : forall start, StronglySorted Z.lt (cursors start n).
Proof.
  induction n as [|n IH]; intros start; [constructor |].
  rewrite cursors_S. constructor; [apply IH |].
  apply Forall_forall. intros s (k & _ & ->)%list_elem_of_In%in_cursors.
  rewrite slot_duration_hour. unfold HOUR, MINUTE, SECOND. lia.
Qed.

Lemma filter_sorted (f : Z -> bool) l :
  StronglySorted Z.lt l -> StronglySorted Z.lt (List.filter f l).
Proof.
  induction 1 as [|x l Hl IH Hx]; [constructor |]. cbn [List.filter].
  destruct (f x); [| done]. constructor; [done |].
  rewrite Forall_forall in Hx |- *. intros y Hy%list_elem_of_In%filter_In.
  apply Hx. apply list_elem_of_In. tauto.
Qed.

(** C5 — the business-hour boundary.  With no busy period, the window from
    09:00 to 18:00 of any day gives the nine slots that start at 09:00,
    10:00, ..., 17:00, in this order; so does a window that starts after
    08:00 and not on the hour, which is first rounded up to 09:00; so does
    the window from 08:00 to 19:00, whose slots at 08:00 and at 18:00 fail the
    test of the start hour.  For every input the suggestions are in
    increasing order, and they are those of the window that starts at the
    rounded time, which is the first full hour not before [time_min]. *)
Theorem business_hours_nine_slots day :
  suggest_meeting_times [] (day * DAY + 9 * HOUR) (day * DAY + 18 * HOUR)
  = Some (nine_slots day) /\
  (forall time_min,
     day * DAY + 8 * HOUR < time_min <= day * DAY + 9 * HOUR ->
     suggest_meeting_times [] time_min (day * DAY + 18 * HOUR) = Some (nine_slots day)) /\
  suggest_meeting_times [] (day * DAY + 8 * HOUR) (day * DAY + 19 * HOUR)
  = Some (nine_slots day) /\
  (forall busy time_min time_max result,
     suggest_meeting_times busy time_min time_max = Some result ->
     StronglySorted Z.lt result) /\
  (forall busy time_min time_max,
     suggest_meeting_times busy time_min time_max
     = suggest_meeting_times busy (round_up time_min) time_max /\
     time_min <= round_up time_min < time_min + HOUR /\
     round_up time_min mod HOUR = 0).
Proof.
  assert (Hnine : forall time_min,
            round_up time_min = day * DAY + 9 * HOUR ->
            suggest_meeting_times [] time_min (day * DAY + 18 * HOUR)
            = Some (nine_slots day)).
  { intros time_min Hr. rewrite suggest_meeting_times_spec, Hr.
    rewrite turns_day, cursors_day. change (Z.to_nat (18 - 9)) with 9%nat.
    rewrite filter_day_hours; [reflexivity |].
    cbn [seq map]. repeat (constructor; [lia |]). constructor. }
  split; [apply Hnine, round_up_on_the_hour |].
  split; [intros time_min H; apply Hnine; by apply (round_up_next_hour day 8) |].
  split.
  { rewrite suggest_meeting_times_spec, round_up_on_the_hour.
    rewrite turns_day, cursors_day. change (Z.to_nat (19 - 8)) with 11%nat.
    rewrite filter_day_hours; [reflexivity |].
    cbn [seq map]. repeat (constructor; [lia |]). constructor. }
  split.
  { intros busy time_min time_max result. rewrite suggest_meeting_times_spec.
    intros [= <-]. apply filter_sorted, cursors_sorted. }
  intros busy time_min time_max. split; [| apply round_up_ge].
  rewrite !suggest_meeting_times_spec. f_equal. f_equal.
  assert (Hidem : round_up (round_up time_min) = round_up time_min).
  { rewrite (round_up_spec (round_up time_min)).
    destruct (round_up_ge time_min) as [_ ->]. done. }
  by rewrite Hidem.
Qed.

Lemma business_hours_nine_slots_witness :
  (0 * DAY + 8 * HOUR < 8 * HOUR + 30 * MINUTE <= 0 * DAY + 9 * HOUR) /\
  suggest_meeting_times [] (8 * HOUR + 30 * MINUTE) (0 * DAY + 18 * HOUR)
  = Some (nine_slots 0).
Proof.
  assert (H : 0 * DAY + 8 * HOUR < 8 * HOUR + 30 * MINUTE <= 0 * DAY + 9 * HOUR)
    by (unfold DAY, HOUR, MINUTE, SECOND; lia).
  split; [exact H |].
  exact (proj1 (proj2 (business_hours_nine_slots 0)) (8 * HOUR + 30 * MINUTE) H).
Defined.

End slots.

(** ** Text, continued: accepted policy numbers *)

Lemma span_spec (P : cp -> bool) (s : str) :
  s = (span P s).1 ++ (span P s).2 /\
  forallb P (span P s).1 = true /\
  match (span P s).2 with [] => True | c :: _ => P c = false end.
Proof.
  induction s as [|c s IH]; simpl; [done |].
  destruct (P c) eqn:E.
  - destruct (span P s) as [a b]. simpl in *. destruct IH as (-> & Ha & Hb).
    by rewrite E, Ha.
  - simpl. by rewrite E.
Qed.

Lemma span_all (P : cp -> bool) (s t : str) :
  forallb P s = true ->
  match t with [] => True | c :: _ => P c = false end ->
  span P (s ++ t) = (s, t).
Proof.
  intros Hs Ht. induction s as [|c s IH]; simpl in *.
  - destruct t as [|c t]; [done |]. simpl. by rewrite Ht.
  - apply andb_true_iff in Hs as [Hc Hs]. rewrite Hc, (IH Hs). done.
Qed.

Lemma at_end_iff (rest : str) : at_end rest = true <-> rest = [] \/ rest = [0xa].
Proof.
  destruct rest as [|c [|c' rest]]; simpl.
  - tauto.
  - rewrite cp_eqb_eq. split; [intros ->; by right | intros [|[= ->]]; done].
  - split; [done | intros [|]; done].
Qed.

Lemma line_feed_not_alnum : is_ascii_alnum 0xa = false.
Proof. reflexivity. Qed.

Lemma is_policy_text_iff (s : str) :
  is_policy_text s = true <->
  forallb is_ascii_alnum s = true /\ (6 <= length s <= 20)%nat.
Proof.
  unfold is_policy_text. rewrite !andb_true_iff, !Nat.leb_le. tauto.
Qed.

Lemma match_policy_iff (s : str) :
  match_policy s = true <->
  is_policy_text s = true \/ exists body, s = body ++ [0xa] /\ is_policy_text body = true.
Proof.
  unfold match_policy. setoid_rewrite is_policy_text_iff.
  destruct (span_spec is_ascii_alnum s) as (Hs & Hrun & Hrest).
  destruct (span is_ascii_alnum s) as [run rest] eqn:Hspan. cbn [fst snd] in *.
  rewrite andb_true_iff, Nat.leb_le, at_end_iff.
  split.
  - intros [Hmin Hend].
    destruct (decide (length run <= 20)%nat) as [Hle|Hgt].
    + rewrite Nat.min_r in Hmin, Hend by done.
      rewrite Hs, drop_app_length in Hend.
      destruct Hend as [->| ->].
      * left. rewrite app_nil_r in Hs. by subst s.
      * right. exists run. by subst s.
    + exfalso. rewrite Nat.min_l in Hend by lia.
      rewrite Hs, drop_app_le in Hend by lia.
      assert (Hd : exists c t, drop 20 run = c :: t /\ is_ascii_alnum c = true).
      { destruct (drop 20 run) as [|c t] eqn:Hdrop.
        - apply (f_equal length) in Hdrop. rewrite length_drop in Hdrop. simpl in Hdrop. lia.
        - exists c, t. split; [done |].
          rewrite <- (take_drop 20 run), forallb_app, Hdrop in Hrun.
          apply andb_true_iff in Hrun as [_ Hrun]. simpl in Hrun.
          by apply andb_true_iff in Hrun as [? _]. }
      destruct Hd as (c & t & Hd & Hc). rewrite Hd in Hend.
      destruct Hend as [|Hend]; [done |]. simpl in Hend.
      injection Hend as -> _. by rewrite line_feed_not_alnum in Hc.
  - intros [[Hall [Hlo Hhi]]|(body & -> & Hall & Hlo & Hhi)].
    + pose proof (span_all is_ascii_alnum s [] Hall I) as Hsp.
      rewrite app_nil_r, Hspan in Hsp. injection Hsp as -> ->.
      rewrite Nat.min_r by done. rewrite drop_all. split; [done | by left].
    + pose proof (span_all is_ascii_alnum body [0xa] Hall line_feed_not_alnum) as Hsp.
      pose proof (eq_trans (eq_sym Hspan) Hsp) as [= -> ->].
      rewrite Nat.min_r by done. rewrite drop_app_length. split; [done | by right].
Qed.

Lemma upper_cp_alnum c : is_ascii_alnum (upper_cp c) = is_ascii_alnum c.
Proof.
  unfold upper_cp. destruct (is_ascii_lower c) eqn:E; [| done].
  unfold is_ascii_alnum, is_ascii_alpha. rewrite E, orb_true_r.
  unfold is_ascii_lower, in_range in E. apply andb_true_iff in E as [H1%N.leb_le H2%N.leb_le].
  assert (H : is_ascii_upper (c - 0x20) = true).
  { unfold is_ascii_upper, in_range. apply andb_true_iff. split; apply N.leb_le; lia. }
  by rewrite H.
Qed.

Lemma upper_cp_idem c : upper_cp (upper_cp c) = upper_cp c.
Proof.
  unfold upper_cp at 2 3. destruct (is_ascii_lower c) eqn:E; unfold upper_cp.
  - assert (H : is_ascii_lower (c - 0x20) = false); [| by rewrite H].
    unfold is_ascii_lower, in_range in *. apply andb_true_iff in E as [H1%N.leb_le H2%N.leb_le].
    apply andb_false_iff. left. apply N.leb_gt. lia.
  - by rewrite E.
Qed.

Lemma upper_idem s : upper (upper s) = upper s.
Proof. unfold upper. rewrite map_map. apply map_ext. intros c. apply upper_cp_idem. Qed.

Lemma is_policy_text_upper s : is_policy_text (upper s) = is_policy_text s.
Proof.
  unfold is_policy_text, upper. rewrite length_map. f_equal. f_equal.
  induction s as [|c s IH]; simpl; [done |]. by rewrite upper_cp_alnum, IH.
Qed.

(** X1 — policy numbers, what is accepted.  [validate_policy_number] accepts
    a text exactly when the text is 6 to 20 ASCII letters and digits, or such
    a text followed by one line feed (the [$] of the pattern matches before a
    line feed that ends the text); it then returns the text in upper case, the
    line feed included. *)
Theorem validate_policy_number_accepted_iff (policy res : str) :
  validate_policy_number policy = (true, res) <->
  res = upper policy /\
  (is_policy_text policy = true \/
   exists body, policy = body ++ [0xa] /\ is_policy_text body = true).
Proof.
  rewrite <- match_policy_iff. unfold validate_policy_number.
  destruct policy as [|c policy]; [split; [done | by intros [_ ?]] |].
  destruct (match_policy (c :: policy)); split; try done.
  - by intros [= <-].
  - by intros [-> _].
  - by intros [_ ?].
Qed.

(** X2 — the policy number that is stored is a normal form: what
    [validate_policy_number] returns for a text it accepts is accepted again
    and comes back as it is. *)
Theorem validate_policy_number_normal_form (policy res : str) :
  validate_policy_number policy = (true, res) ->
  validate_policy_number res = (true, res).
Proof.
  unfold validate_policy_number. destruct policy as [|c policy]; [done |].
  destruct (match_policy (c :: policy)) eqn:Hm; [| done]. intros [= <-].
  assert (Hm' : match_policy (upper (c :: policy)) = true).
  { apply match_policy_iff. apply match_policy_iff in Hm as [H|(body & Hb & H)].
    - left. by rewrite is_policy_text_upper.
    - right. exists (upper body). rewrite Hb. unfold upper at 1. rewrite map_app.
      split; [done |]. by rewrite is_policy_text_upper. }
  change (upper_cp c :: upper policy) with (upper (c :: policy)).
  by rewrite Hm', upper_idem.
Qed.

Lemma validate_policy_number_normal_form_witness :
  validate_policy_number (lit "ab12cd") = (true, lit "AB12CD") /\
  validate_policy_number (lit "AB12CD") = (true, lit "AB12CD").
Proof.
  assert (H : validate_policy_number (lit "ab12cd") = (true, lit "AB12CD"))
    by (vm_compute; reflexivity).
  split; [exact H | exact (validate_policy_number_normal_form _ _ H)].
Defined.

(** ** Phone numbers, continued *)

Lemma remove_spaces_dashes_no_space (phone : str) (c : cp) :
  In c (remove_spaces_dashes phone) -> is_space c = false /\ c <> 0x2d.
Proof.
  unfold remove_spaces_dashes. intros [_ H]%filter_In.
  apply negb_true_iff, orb_false_iff in H as [Hs Hd]. split; [done |].
  intros ->. by rewrite (proj2 (cp_eqb_eq _ _) eq_refl) in Hd.
Qed.

Lemma match_hk_phone_local (s : str) :
  ~ In 0xa s -> match_hk_phone s = is_local_number s.
Proof.
  destruct s as [|c rest]; [done |]. intros Hnl. simpl.
  destruct (in_range 0x32 0x39 c); [| done]. simpl.
  destruct (decide (length rest <= 7)%nat) as [Hle|Hgt].
  - rewrite take_ge, drop_ge by done. simpl. by rewrite andb_true_r.
  - rewrite length_take, Nat.min_l by lia. simpl. rewrite andb_true_r.
    replace (length rest =? 7)%nat with false by (symmetry; apply Nat.eqb_neq; lia).
    rewrite andb_false_r. apply andb_false_iff. right.
    destruct (at_end (drop 7 rest)) eqn:Hend; [| done]. exfalso.
    apply at_end_iff in Hend as [Hend|Hend].
    + apply (f_equal length) in Hend. rewrite length_drop in Hend. simpl in Hend. lia.
    + apply Hnl. right. rewrite <- (take_drop 7 rest), Hend. apply in_or_app. right. by left.
Qed.

Lemma remove_country_code_cases (clean res : str) :
  remove_country_code clean = res <->
  clean = CC_PLUS_852 ++ res \/
  (clean = CC_852 ++ res /\ startswith CC_PLUS_852 clean = false) \/
  (clean = res /\ startswith CC_PLUS_852 clean = false /\ startswith CC_852 clean = false).
Proof.
  unfold remove_country_code, startswith.
  destruct (strip_prefix CC_PLUS_852 clean) as [r1|] eqn:H1.
  - apply strip_prefix_Some in H1 as H1'. split.
    + intros <-. by left.
    + intros [H|[[_ ?]|[_ [? _]]]]; try done. rewrite H in H1'.
      by apply app_inv_head in H1'.
  - destruct (strip_prefix CC_852 clean) as [r2|] eqn:H2.
    + apply strip_prefix_Some in H2 as H2'. split.
      * intros <-. right. by left.
      * intros [H|[[H _]|[_ [_ ?]]]]; try done.
        -- rewrite H in H1. unfold CC_PLUS_852 in H1. cbn [app strip_prefix] in H1.
           by rewrite !(proj2 (cp_eqb_eq _ _) eq_refl) in H1.
        -- rewrite H in H2'. by apply app_inv_head in H2'.
    + split.
      * intros <-. right. by right.
      * intros [H|[[H _]|[H _]]]; try done.
        -- rewrite H in H1. unfold CC_PLUS_852 in H1. cbn [app strip_prefix] in H1.
           by rewrite !(proj2 (cp_eqb_eq _ _) eq_refl) in H1.
        -- rewrite H in H2. unfold CC_852 in H2. cbn [app strip_prefix] in H2.
           by rewrite !(proj2 (cp_eqb_eq _ _) eq_refl) in H2.
Qed.

Lemma is_local_number_no_plus (res : str) :
  is_local_number res = true -> startswith CC_PLUS_852 res = false.
Proof.
  destruct res as [|c rest]; [done |]. simpl.
  intros [[Hc _]%andb_true_iff _]%andb_true_iff.
  unfold startswith, CC_PLUS_852. cbn [strip_prefix].
  replace (cp_eqb 43 c) with false; [done |].
  symmetry. unfold cp_eqb. apply N.eqb_neq.
  unfold in_range in Hc. apply andb_true_iff in Hc as [Hlo%N.leb_le _]. lia.
Qed.

(** X3 — phone numbers, what is accepted.  [validate_phone_number] accepts a
    text and returns [res] exactly when [res] is eight characters, the first
    from 2 to 9 and the seven others decimal digits (the [\d] of the pattern:
    of any script), and the text without its white space and dashes is [+852]
    followed by [res], or [852] followed by [res], or [res] itself where
    [res] does not start with 852.  So the result never holds white space, a
    dash or a country code. *)
Theorem validate_phone_number_accepted_iff (phone res : str) :
  validate_phone_number phone = (true, res) <->
  is_local_number res = true /\
  (remove_spaces_dashes phone = CC_PLUS_852 ++ res \/
   remove_spaces_dashes phone = CC_852 ++ res \/
   (remove_spaces_dashes phone = res /\ startswith CC_852 res = false)).
Proof.
  assert (Hnl : forall p, remove_spaces_dashes phone = p ++ res -> ~ In 0xa res).
  { intros p Hp Hin.
    destruct (remove_spaces_dashes_no_space phone 0xa) as [Hs _]; [| done].
    rewrite Hp. apply in_or_app. by right. }
  split.
  - intros H. apply validate_phone_number_sound in H as [Hres Hm].
    symmetry in Hres. apply remove_country_code_cases in Hres.
    assert (Hp : exists p, remove_spaces_dashes phone = p ++ res).
    { destruct Hres as [H|[[H _]|[H _]]]; [by eexists | by eexists | by exists []]. }
    destruct Hp as [p Hp]. rewrite (match_hk_phone_local res (Hnl p Hp)) in Hm.
    split; [done |].
    destruct Hres as [H|[[H _]|[H [_ H']]]]; [by left | right; by left |].
    right. right. split; [done |]. by rewrite <- H.
  - intros [Hloc Hforms].
    assert (Hcc : remove_country_code (remove_spaces_dashes phone) = res).
    { apply remove_country_code_cases.
      destruct Hforms as [H|[H|[H H']]]; [by left | right; left | right; right].
      - split; [done |]. by rewrite H.
      - rewrite H. split; [done |]. split; [| done]. by apply is_local_number_no_plus. }
    assert (Hm : match_hk_phone res = true).
    { rewrite match_hk_phone_local; [done |].
      destruct Hforms as [H|[H|[H _]]]; [by apply (Hnl _ H) ..|]. by apply (Hnl [] H). }
    unfold validate_phone_number. destruct phone as [|c phone].
    + simpl in Hcc. by subst res.
    + by rewrite Hcc, Hm.
Qed.

(** ** Names *)

Lemma match_plus_iff (P : cp -> bool) (s : str) :
  match_plus P s = true <->
  (s <> [] /\ forallb P s = true) \/
  (P 0xa = false /\ exists body, body <> [] /\ s = body ++ [0xa] /\ forallb P body = true).
Proof.
  unfold match_plus.
  destruct (span_spec P s) as (Hs & Hrun & Hrest).
  destruct (span P s) as [run rest] eqn:Hspan. cbn [fst snd] in *.
  split.
  - destruct run as [|c run]; [done |]. intros [-> | ->]%at_end_iff.
    + left. rewrite app_nil_r in Hs. by subst s.
    + right. split; [done |]. by exists (c :: run).
  - intros [[Hne Hall]|[Hnl (body & Hne & -> & Hall)]].
    + pose proof (span_all P s [] Hall I) as Hsp. rewrite app_nil_r in Hsp.
      pose proof (eq_trans (eq_sym Hspan) Hsp) as [= -> ->].
      by destruct s.
    + pose proof (span_all P body [0xa] Hall Hnl) as Hsp.
      pose proof (eq_trans (eq_sym Hspan) Hsp) as [= -> ->].
      destruct body; [done |]. by apply at_end_iff; right.
Qed.

(** X4 — names.  For a text [is_valid_chinese_name] always answers, and it
    answers yes exactly when the text has 2 to 10 characters and is made
    either of characters from U+4E00 to U+9FA5 only (one final line feed
    allowed), or of ASCII letters and white space only: a name that mixes the
    two scripts is refused, a name of nothing but spaces is not. *)
Theorem is_valid_chinese_name_text_iff (name : str) :
  (exists ok, is_valid_chinese_name (VStr name) = Ok ok) /\
  (is_valid_chinese_name (VStr name) = Ok true <->
   (2 <= length name <= 10)%nat /\
   (forallb is_han name = true \/
    (exists body, name = body ++ [0xa] /\ forallb is_han body = true) \/
    forallb is_ascii_alpha_or_space name = true)).
Proof.
  unfold is_valid_chinese_name. destruct name as [|c name].
  { split; [by eexists |]. simpl. split; [done | intros [[? _] _]; lia]. }
  cbn [truthy negb py_len bind].
  set (s := c :: name).
  destruct ((length s <? 2)%nat || (10 <? length s)%nat) eqn:Hlen.
  - split; [by eexists |]. split; [done |]. intros [[Hlo Hhi] _].
    apply orb_true_iff in Hlen as [H%Nat.ltb_lt|H%Nat.ltb_lt]; lia.
  - split; [by eexists |].
    apply orb_false_iff in Hlen as [Hlo%Nat.ltb_ge Hhi%Nat.ltb_ge].
    split.
    + intros [= H]. split; [done |].
      apply orb_true_iff in H as [H|H]; apply match_plus_iff in H.
      * destruct H as [[_ H]|[_ (body & _ & Hb & H)]]; [by left | right; left; eauto].
      * destruct H as [[_ H]|[Hnl _]]; [right; by right | done].
    + intros [_ H]. f_equal. apply orb_true_iff.
      destruct H as [H|[(body & Hb & H)|H]].
      * left. apply match_plus_iff. left. done.
      * left. apply match_plus_iff. right. split; [done |]. exists body.
        split; [| done]. intros ->. subst s. simpl in Hb. rewrite Hb in Hlo. simpl in Hlo. lia.
      * right. apply match_plus_iff. left. done.
Qed.

(** ** Gender and appointment type *)

(** X5 — the gender that is stored is a normal form: what [validate_gender]
    returns for a non-empty value it accepts is one of 男, 女, 其他, and is
    accepted again as it is. *)
Theorem validate_gender_normal_form (gender : value) (g : str) :
  truthy gender = true ->
  validate_gender gender = Ok (true, g) ->
  In g valid_genders /\ validate_gender (VStr g) = Ok (true, g).
Proof.
  intros Ht H. destruct (validate_gender_canonical gender g H Ht) as [-> | [-> | ->]];
    (split; [simpl; tauto | vm_compute; reflexivity]).
Qed.

Lemma validate_gender_normal_form_witness :
  In MALE valid_genders /\ validate_gender (VStr MALE) = Ok (true, MALE).
Proof.
  apply (validate_gender_normal_form (VStr (lit "Male"))); vm_compute; reflexivity.
Defined.

Lemma catalogue_matches_itself (t : str) :
  In t get_clinic_appointment_types ->
  t <> [] /\ matched_type get_clinic_appointment_types t = Some t.
Proof.
  intros Hin.
  assert (H : forallb (fun t =>
                match t, matched_type get_clinic_appointment_types t with
                | _ :: _, Some r => str_eqb r t
                | _, _ => false
                end) get_clinic_appointment_types = true) by (vm_compute; reflexivity).
  rewrite forallb_forall in H. specialize (H t Hin).
  destruct t; [done |]. split; [done |].
  destruct (matched_type _ _); [| done]. by apply str_eqb_eq in H as ->.
Qed.

(** X6 — appointment types.  With the catalogue of the clinic,
    [validate_appointment_type] rejects no non-empty value that it answers
    for, its result is never empty, and the result is a normal form: it is
    accepted again and comes back as it is (no entry of the catalogue is
    matched with another entry first). *)
Theorem validate_appointment_type_normal_form (apt_type : value) (ok : bool) (res : str) :
  truthy apt_type = true ->
  validate_appointment_type apt_type None = Ok (ok, res) ->
  ok = true /\ res <> [] /\
  validate_appointment_type (VStr res) None = Ok (true, res) /\
  validate_appointment_type (VStr res) (Some get_clinic_appointment_types) = Ok (true, res).
Proof.
  intros Ht. unfold validate_appointment_type. rewrite Ht. cbn [negb].
  destruct apt_type as [| | |s| |]; try done.
  fold (matched_type get_clinic_appointment_types s).
  destruct (matched_type get_clinic_appointment_types s) as [t|] eqn:Hm.
  - intros [= <- <-]. apply find_some in Hm as [Hin _].
    destruct (catalogue_matches_itself t Hin) as [Hne Hself].
    split; [done |]. split; [done |].
    assert (Htt : truthy (VStr t) = true) by by destruct t.
    rewrite Htt. cbn [negb].
    fold (matched_type get_clinic_appointment_types t). by rewrite Hself.
  - intros [= <- <-]. split; [done |]. split; [by destruct s |].
    rewrite Ht. cbn [negb]. fold (matched_type get_clinic_appointment_types s).
    by rewrite Hm.
Qed.

Lemma validate_appointment_type_normal_form_witness :
  validate_appointment_type (VStr [0x770b; 0x5185; 0x79d1]) None
  = Ok (true, [0x5185; 0x79d1]) /\
  validate_appointment_type (VStr [0x5185; 0x79d1]) None = Ok (true, [0x5185; 0x79d1]).
Proof.
  split; [vm_compute; reflexivity |].
  apply (validate_appointment_type_normal_form (VStr [0x770b; 0x5185; 0x79d1]) true);
    vm_compute; reflexivity.
Defined.

(** ** The composite validators, continued *)

(** X7 — [validate_patient_info] changes the gender only.  Whatever the
    verdict, the map that comes back has the keys of the map that went in, in
    the same order, and the same value under every key but [gender]; the
    gender is as it was or one of 男, 女, 其他 (it is normalized also when
    another field is rejected); the verdict is positive exactly when there is
    no error, and there are at most three errors. *)
Theorem validate_patient_info_changes_gender_only (d : dict) ok errors d' :
  validate_patient_info d = Ok (ok, errors, d') ->
  map fst d' = map fst d /\
  (forall k, k <> K_gender -> dict_get k d' = dict_get k d) /\
  (dict_get K_gender d' = dict_get K_gender d \/
   exists g, In g valid_genders /\ dict_get K_gender d' = VStr g) /\
  (ok = true <-> errors = []) /\
  (length errors <= 3)%nat.
Proof.
  unfold validate_patient_info.
  intros (e1 & H1 & (e2 & H2 & ([e3 d3] & H3 & [= <- <- <-])%bind_Ok)%bind_Ok)%bind_Ok.
  assert (He1 : (length e1 <= 1)%nat).
  { destruct (truthy (dict_get K_name d)); [| injection H1 as <-; simpl; lia].
    apply bind_Ok in H1 as ([] & _ & [= <-]); simpl; lia. }
  assert (He2 : (length e2 <= length e1 + 1)%nat).
  { destruct (dict_get K_age d); try (injection H2 as <-; lia).
    all: apply bind_Ok in H2 as ([n|] & _ & H2);
      [destruct (validate_age_range n 0 150) as [[] msg] |];
      injection H2 as <-; rewrite ?length_app; simpl; lia. }
  assert (Hd3 : (length e3 <= length e2 + 1)%nat /\
                (d3 = d \/
                 truthy (dict_get K_gender d) = true /\
                 exists g, In g valid_genders /\ d3 = dict_set K_gender (VStr g) d)).
  { destruct (truthy (dict_get K_gender d)) eqn:Hg; [| injection H3 as <- <-; split; [lia | by left]].
    apply bind_Ok in H3 as ([okg g] & Hv & H3). destruct okg.
    - injection H3 as <- <-. split; [lia |]. right. split; [done |]. exists g. split; [| done].
      destruct (validate_gender_canonical _ _ Hv Hg) as [-> | [-> | ->]]; simpl; tauto.
    - injection H3 as <- <-. rewrite length_app. simpl. split; [lia | by left]. }
  destruct Hd3 as [He3 Hd3].
  repeat split.
  - destruct Hd3 as [-> | [Hg (g & _ & ->)]]; [done |].
    apply dict_set_keys. by apply truthy_not_None.
  - intros k Hk. destruct Hd3 as [-> | [Hg (g & _ & ->)]]; [done |].
    rewrite dict_get_set. by apply str_eqb_neq in Hk as ->.
  - destruct Hd3 as [-> | [Hg (g & Hin & ->)]]; [by left |].
    right. exists g. split; [done |]. by rewrite dict_get_set, str_eqb_refl.
  - by destruct e3.
  - by destruct e3.
  - lia.
Qed.

Lemma validate_patient_info_changes_gender_only_witness :
  validate_patient_info [(K_name, VStr (lit "J0hn")); (K_gender, VStr (lit "M"))]
  = Ok (false, [MSG_NAME], [(K_name, VStr (lit "J0hn")); (K_gender, VStr MALE)]) /\
  dict_get K_name [(K_name, VStr (lit "J0hn")); (K_gender, VStr MALE)]
  = dict_get K_name [(K_name, VStr (lit "J0hn")); (K_gender, VStr (lit "M"))].
Proof.
  assert (H : validate_patient_info [(K_name, VStr (lit "J0hn")); (K_gender, VStr (lit "M"))]
              = Ok (false, [MSG_NAME], [(K_name, VStr (lit "J0hn")); (K_gender, VStr MALE)]))
    by (vm_compute; reflexivity).
  split; [exact H |].
  apply (validate_patient_info_changes_gender_only _ _ _ _ H). vm_compute. discriminate.
Defined.

(** ** Blank dates *)

Lemma is_space_In (c : cp) : is_space c = true <-> In c space_table.
Proof.
  unfold is_space. rewrite existsb_exists. split.
  - intros (x & Hin & ->%cp_eqb_eq). done.
  - intros Hin. exists c. split; [done |]. by apply cp_eqb_eq.
Qed.

Lemma lstrip_by_nil (P : cp -> bool) (s : str) :
  lstrip_by P s = [] <-> forallb P s = true.
Proof.
  induction s as [|c s IH]; simpl; [done |].
  destruct (P c); simpl; [done |]. split; done.
Qed.

Lemma lstrip_by_head (P : cp -> bool) (s : str) c t :
  lstrip_by P s = c :: t -> P c = false.
Proof.
  induction s as [|a s IH]; simpl; [done |].
  destruct (P a) eqn:E; [done |]. by intros [= <- _].
Qed.

Lemma strip_by_nil (P : cp -> bool) (s : str) :
  strip_by P s = [] <-> forallb P s = true.
Proof.
  rewrite <- lstrip_by_nil. unfold strip_by. split.
  - intros H. apply (f_equal (@rev cp)) in H. rewrite rev_involutive in H. simpl in H.
    destruct (lstrip_by P s) as [|c t] eqn:Hs; [done |]. exfalso.
    apply lstrip_by_head in Hs.
    apply lstrip_by_nil in H. rewrite forallb_forall in H.
    specialize (H c). rewrite Hs in H. assert (false = true); [| done].
    apply H. apply in_rev. rewrite rev_involutive. by left.
  - by intros ->.
Qed.

Lemma lower_cp_space (c : cp) : forallb is_space (lower_cp c) = is_space c.
Proof.
  unfold lower_cp. destruct (is_ascii_upper c) eqn:Hup.
  - unfold is_ascii_upper, in_range in Hup.
    apply andb_true_iff in Hup as [Hlo%N.leb_le Hhi%N.leb_le].
    assert (H1 : is_space c = false).
    { destruct (is_space c) eqn:E; [| done]. apply is_space_In in E.
      unfold space_table in E. simpl in E. lia. }
    assert (H2 : is_space (c + 0x20) = false).
    { destruct (is_space (c + 0x20)) eqn:E; [| done]. apply is_space_In in E.
      unfold space_table in E. simpl in E. lia. }
    simpl. by rewrite H1, H2.
  - destruct (cp_eqb c 0x130) eqn:E1; [by apply cp_eqb_eq in E1 as -> |].
    destruct (cp_eqb c 0x212a) eqn:E2; [by apply cp_eqb_eq in E2 as -> |].
    simpl. by rewrite andb_true_r.
Qed.

Lemma lower_space (s : str) : forallb is_space (lower s) = forallb is_space s.
Proof.
  unfold lower. induction s as [|c s IH]; simpl; [done |].
  by rewrite forallb_app, lower_cp_space, IH.
Qed.

Lemma strip_lower_nil (s : str) : strip (lower s) = [] <-> forallb is_space s = true.
Proof. unfold strip. by rewrite strip_by_nil, lower_space. Qed.

Lemma strftime_ymd_not_nil (d : cal_date) : strftime_ymd d <> [].
Proof. unfold strftime_ymd. by destruct (N_str (year d)). Qed.

(** A date that is text comes back empty exactly when it is blank. *)
Lemma normalize_date_expression_blank today (s r : str) :
  normalize_date_expression today (VStr s) = Ok (Some r) ->
  (r = [] <-> strip (lower s) = []).
Proof.
  unfold normalize_date_expression.
  destruct (negb (truthy (VStr s))); [done |].
  destruct (strip (lower s)) as [|c t] eqn:Ht.
  - vm_compute. by intros [= <-].
  - intros H. split; [| done]. intros ->. revert H.
    repeat match goal with
           | |- context [if ?b then _ else _] => destruct b
           end;
      try (by intros (x & _ & [= H])%bind_Ok; apply strftime_ymd_not_nil in H);
      try (by intros [= H]; apply strftime_ymd_not_nil in H).
    destruct (search match_ymd_here (c :: t)) as [[[y m] d]|].
    { intros [= H]. by destruct y. }
    destruct (search _ (c :: t)) as [[m d]|].
    { intros [= H]. by destruct (N_str (year today)). }
    destruct (search _ (c :: t)) as [[m d]|].
    { intros [= H]. by destruct (N_str (year today)). }
    done.
Qed.

Lemma normalize_date_expression_some today (v : value) o :
  truthy v = true -> normalize_date_expression today v = Ok o ->
  exists s r, v = VStr s /\ o = Some r.
Proof.
  unfold normalize_date_expression. intros ->. cbn [negb].
  destruct v as [| | |s| |]; try done.
  repeat match goal with
         | |- context [if ?b then _ else _] => destruct b
         end;
    try (by intros (x & _ & [= <-])%bind_Ok; eauto);
    try (by intros [= <-]; eauto).
  destruct (search match_ymd_here _) as [[[y m] d]|]; [by intros [= <-]; eauto |].
  destruct (search _ _) as [[m d]|]; [by intros [= <-]; eauto |].
  destruct (search _ _) as [[m d]|]; by intros [= <-]; eauto.
Qed.

(** X8 — dates that are rejected.  When [validate_preferred_time] answers,
    the only error it has is the one for the date, and it reports it exactly
    when the date is a non-empty text of white space only: every other date
    text is taken, recognized or not. *)
Theorem validate_preferred_time_rejects_blank_date today (d : dict) ok errors d' :
  validate_preferred_time today d = Ok (ok, errors, d') ->
  (ok = false <->
   exists s, dict_get K_date d = VStr s /\ s <> [] /\ forallb is_space s = true) /\
  errors = (if ok then [] else [MSG_DATE]).
Proof.
  unfold validate_preferred_time.
  intros ([e1 d1] & H1 & (d2 & H2 & [= <- <- <-])%bind_Ok)%bind_Ok.
  clear H2. destruct (truthy (dict_get K_date d)) eqn:Hd.
  - apply bind_Ok in H1 as (o & Hn & H1).
    destruct (normalize_date_expression_some _ _ _ Hd Hn) as (s & r & Hs & ->).
    rewrite Hs in Hn. apply normalize_date_expression_blank in Hn.
    rewrite strip_lower_nil in Hn.
    cbn [of_optional truthy] in H1. destruct r as [|c r].
    + injection H1 as <- <-. split; [| done]. split; [| done]. intros _.
      exists s. split; [done |]. split; [| by apply Hn].
      intros ->. by rewrite Hs in Hd.
    + injection H1 as <- <-. split; [| done]. split; [done |].
      intros (s' & Hs' & _ & Hblank). rewrite Hs in Hs'. injection Hs' as <-.
      by apply Hn in Hblank.
  - injection H1 as <- <-. split; [| done]. split; [done |].
    intros (s & Hs & Hne & _). rewrite Hs in Hd. by destruct s.
Qed.

Lemma validate_preferred_time_rejects_blank_date_witness :
  validate_preferred_time today_example [(K_date, VStr (lit "  "))]
  = Ok (false, [MSG_DATE], [(K_date, VStr (lit "  "))]) /\
  [MSG_DATE] = (if false then [] else [MSG_DATE]).
Proof.
  assert (H : validate_preferred_time today_example [(K_date, VStr (lit "  "))]
              = Ok (false, [MSG_DATE], [(K_date, VStr (lit "  "))]))
    by (vm_compute; reflexivity).
  split; [exact H |].
  apply (validate_preferred_time_rejects_blank_date _ _ _ _ _ H).
Defined.

(** ** Dates and times written in digits *)

Lemma is_sign_or_digit_bounds c : is_sign_or_digit c = true <-> 0x21 <= c <= 0x40.
Proof.
  unfold is_sign_or_digit, in_range. rewrite andb_true_iff, !N.leb_le. tauto.
Qed.

Lemma is_ascii_digit_bounds c : is_ascii_digit c = true <-> 0x30 <= c <= 0x39.
Proof.
  unfold is_ascii_digit, in_range. rewrite andb_true_iff, !N.leb_le. tauto.
Qed.

Lemma sign_or_digit_not_space c : is_sign_or_digit c = true -> is_space c = false.
Proof.
  intros H%is_sign_or_digit_bounds. destruct (is_space c) eqn:E; [| done].
  apply is_space_In in E. unfold space_table in E. simpl in E. lia.
Qed.

Lemma sign_or_digit_lower c : is_sign_or_digit c = true -> lower_cp c = [c].
Proof.
  intros H%is_sign_or_digit_bounds. unfold lower_cp, is_ascii_upper, in_range, cp_eqb.
  replace (0x41 <=? c) with false by (symmetry; apply N.leb_gt; lia).
  replace (c =? 0x130) with false by (symmetry; apply N.eqb_neq; lia).
  replace (c =? 0x212a) with false by (symmetry; apply N.eqb_neq; lia).
  done.
Qed.

Lemma lower_signs (s : str) : forallb is_sign_or_digit s = true -> lower s = s.
Proof.
  unfold lower. induction s as [|c s IH]; simpl; [done |].
  intros [Hc Hs]%andb_true_iff. by rewrite (sign_or_digit_lower c Hc), (IH Hs).
Qed.

Lemma lstrip_by_keeps (P : cp -> bool) (s : str) :
  match s with [] => True | c :: _ => P c = false end -> lstrip_by P s = s.
Proof. destruct s as [|c s]; simpl; [done |]. by intros ->. Qed.

Lemma strip_signs (s : str) : forallb is_sign_or_digit s = true -> strip s = s.
Proof.
  intros Hs. unfold strip, strip_by.
  rewrite (lstrip_by_keeps is_space s).
  - rewrite lstrip_by_keeps; [apply rev_involutive |].
    destruct (rev s) as [|c t] eqn:Hrev; [done |].
    apply sign_or_digit_not_space. rewrite forallb_forall in Hs. apply Hs.
    apply in_rev. rewrite Hrev. by left.
  - destruct s as [|c s]; [done |]. simpl in Hs.
    apply andb_true_iff in Hs as [Hc _]. by apply sign_or_digit_not_space.
Qed.

Lemma strip_prefix_head k kw (s : str) r :
  strip_prefix (k :: kw) s = Some r -> exists t, s = k :: t.
Proof.
  destruct s as [|c s]; simpl; [done |].
  destruct (cp_eqb k c) eqn:E; [| done]. apply cp_eqb_eq in E as <-. eauto.
Qed.

Lemma contains_head k kw (s : str) : contains (k :: kw) s = true -> In k s.
Proof.
  induction s as [|c s IH]; simpl; [done |].
  - intros [H|H]%orb_true_iff.
    + unfold startswith in H.
      destruct (strip_prefix (k :: kw) (c :: s)) eqn:E; [| done].
      apply strip_prefix_head in E as [t [= -> _]]. by left.
    + right. by apply IH.
Qed.

Lemma contains_single k (s : str) : In k s -> contains [k] s = true.
Proof.
  induction s as [|c s IH]; simpl; [done |].
  intros [-> | H].
  - unfold startswith. simpl. by rewrite (proj2 (cp_eqb_eq _ _) eq_refl).
  - rewrite (IH H). apply orb_true_r.
Qed.

(** A word that starts with a character beyond [@] does not occur in text
    made of signs and digits. *)
Lemma contains_signs k kw (s : str) :
  forallb is_sign_or_digit s = true -> 0x40 < k -> contains (k :: kw) s = false.
Proof.
  intros Hs Hk. destruct (contains (k :: kw) s) eqn:E; [| done].
  apply contains_head in E. rewrite forallb_forall in Hs.
  apply Hs, is_sign_or_digit_bounds in E. lia.
Qed.

Lemma ascii_digit_cases c :
  is_ascii_digit c = true -> In c [0x30; 0x31; 0x32; 0x33; 0x34; 0x35; 0x36; 0x37; 0x38; 0x39].
Proof. intros H%is_ascii_digit_bounds. simpl. lia. Qed.

Lemma fmt02_two_digits a b :
  is_ascii_digit a = true -> is_ascii_digit b = true ->
  fmt02 (group_int [a; b]) = [a; b].
Proof.
  intros Ha%ascii_digit_cases Hb%ascii_digit_cases. simpl in Ha, Hb.
  repeat (destruct Ha as [<- | Ha]; [repeat (destruct Hb as [<- | Hb]; [vm_compute; reflexivity |]); done |]).
  done.
Qed.

Lemma fmt02_one_digit a :
  is_ascii_digit a = true -> fmt02 (group_int [a]) = [0x30; a].
Proof.
  intros Ha%ascii_digit_cases. simpl in Ha.
  repeat (destruct Ha as [<- | Ha]; [vm_compute; reflexivity |]). done.
Qed.

Lemma digit_is_sign c : is_ascii_digit c = true -> is_sign_or_digit c = true.
Proof.
  intros H%is_ascii_digit_bounds. apply is_sign_or_digit_bounds. lia.
Qed.

(** The relative-date keywords do not occur in text made of signs and
    digits. *)
Lemma no_date_keyword (s : str) :
  forallb is_sign_or_digit s = true ->
  contains TODAY_1 s = false /\ contains TODAY_2 s = false /\
  contains TOMORROW_1 s = false /\ contains TOMORROW_2 s = false /\
  contains DAY_AFTER s = false /\ contains NEXT_WEEK s = false.
Proof.
  intros Hs. unfold TODAY_1, TODAY_2, TOMORROW_1, TOMORROW_2, DAY_AFTER, NEXT_WEEK.
  repeat split; apply contains_signs; (done || lia).
Qed.

(** X9 — dates written in digits.  A date of four digits, a dash, two
    digits, a dash and two digits is returned by [normalize_date_expression]
    as it is, whatever the digits (a month 99 and a day 99 included: the
    fields are not checked against the calendar); with a month and a day of
    one digit each, both are padded with a zero. *)
Theorem normalize_date_expression_iso today y1 y2 y3 y4 m1 m2 d1 d2 :
  forallb is_ascii_digit [y1; y2; y3; y4; m1; m2; d1; d2] = true ->
  normalize_date_expression today
    (VStr [y1; y2; y3; y4; 0x2d; m1; m2; 0x2d; d1; d2])
  = Ok (Some [y1; y2; y3; y4; 0x2d; m1; m2; 0x2d; d1; d2]) /\
  normalize_date_expression today (VStr [y1; y2; y3; y4; 0x2d; m2; 0x2d; d2])
  = Ok (Some [y1; y2; y3; y4; 0x2d; 0x30; m2; 0x2d; 0x30; d2]).
Proof.
  intros H. cbn [forallb] in H.
  repeat match type of H with
         | _ && _ = true => let Hx := fresh "Hx" in apply andb_true_iff in H as [Hx H]
         end.
  clear H.
  assert (Hsign : forall l, Forall (fun c => is_ascii_digit c = true \/ c = 0x2d) l ->
                            forallb is_sign_or_digit l = true).
  { intros l Hl. apply forallb_forall. intros c Hc.
    rewrite Forall_forall in Hl. apply list_elem_of_In, Hl in Hc as [Hc | ->];
      [by apply digit_is_sign | done]. }
  assert (Hdash : is_digit 0x2d = false) by (vm_compute; reflexivity).
  assert (Hsep : cp_eqb 0x2d 0x2d = true) by (vm_compute; reflexivity).
  pose proof (is_ascii_digit_is_digit _ Hx) as Dy1.
  pose proof (is_ascii_digit_is_digit _ Hx0) as Dy2.
  pose proof (is_ascii_digit_is_digit _ Hx1) as Dy3.
  pose proof (is_ascii_digit_is_digit _ Hx2) as Dy4.
  pose proof (is_ascii_digit_is_digit _ Hx3) as Dm1.
  pose proof (is_ascii_digit_is_digit _ Hx4) as Dm2.
  pose proof (is_ascii_digit_is_digit _ Hx5) as Dd1.
  pose proof (is_ascii_digit_is_digit _ Hx6) as Dd2.
  split.
  - assert (Hs : forallb is_sign_or_digit [y1; y2; y3; y4; 0x2d; m1; m2; 0x2d; d1; d2] = true).
    { apply Hsign. repeat (apply Forall_cons_2; [by auto |]). apply Forall_nil_2. }
    unfold normalize_date_expression. cbn [truthy negb].
    rewrite (lower_signs _ Hs), (strip_signs _ Hs).
    destruct (no_date_keyword _ Hs) as (-> & -> & -> & -> & -> & ->). cbn [orb].
    repeat (progress (rewrite ?Dy1, ?Dy2, ?Dy3, ?Dy4, ?Dm1, ?Dm2, ?Dd1, ?Dd2, ?Hdash, ?Hsep;
      cbn [andb mbind option_bind search match_ymd_here forallb digits12_then digits12])).
    rewrite (fmt02_two_digits m1 m2), (fmt02_two_digits d1 d2) by done. done.
  - assert (Hs : forallb is_sign_or_digit [y1; y2; y3; y4; 0x2d; m2; 0x2d; d2] = true).
    { apply Hsign. repeat (apply Forall_cons_2; [by auto |]). apply Forall_nil_2. }
    unfold normalize_date_expression. cbn [truthy negb].
    rewrite (lower_signs _ Hs), (strip_signs _ Hs).
    destruct (no_date_keyword _ Hs) as (-> & -> & -> & -> & -> & ->). cbn [orb].
    repeat (progress (rewrite ?Dy1, ?Dy2, ?Dy3, ?Dy4, ?Dm1, ?Dm2, ?Dd1, ?Dd2, ?Hdash, ?Hsep;
      cbn [andb mbind option_bind search match_ymd_here forallb digits12_then digits12])).
    rewrite (fmt02_one_digit m2), (fmt02_one_digit d2) by done. done.
Qed.

Lemma normalize_date_expression_iso_witness :
  normalize_date_expression today_example (VStr (lit "2026-99-99"))
  = Ok (Some (lit "2026-99-99")) /\
  normalize_date_expression today_example (VStr (lit "2026-9-9"))
  = Ok (Some (lit "2026-09-09")).
Proof.
  apply (normalize_date_expression_iso today_example 0x32 0x30 0x32 0x36 0x39 0x39 0x39 0x39).
  vm_compute. reflexivity.
Defined.

(** X10 — clock times.  For a time slot written with ASCII digits and
    colons that holds a digit 9 anywhere, [normalize_time_slot] answers 上午
    (morning), since the hours 9, 10 and 11 are looked for as substrings and
    first: so does [19:00], which never gives the evening. *)
Theorem normalize_time_slot_nine_is_morning (time_slot : str) :
  forallb (fun c => is_ascii_digit c || cp_eqb c 0x3a) time_slot = true ->
  In 0x39 time_slot ->
  normalize_time_slot (VStr time_slot) = Ok (Some MORNING).
Proof.
  intros Hclock Hnine.
  assert (Hs : forallb is_sign_or_digit time_slot = true).
  { apply forallb_forall. intros c Hc. rewrite forallb_forall in Hclock.
    apply Hclock, orb_true_iff in Hc as [Hc | Hc%cp_eqb_eq];
      [by apply digit_is_sign | by subst c]. }
  unfold normalize_time_slot.
  assert (Ht : truthy (VStr time_slot) = true) by (by destruct time_slot).
  rewrite Ht. cbn [negb]. rewrite (lower_signs _ Hs), (strip_signs _ Hs).
  unfold time_mappings, MORNING, AFTERNOON, EVENING. cbn [find fst].
  rewrite !(contains_signs _ _ _ Hs) by lia.
  unfold any_in, MORNING_HOURS. cbn [existsb].
  match goal with
  | |- context [contains ?x time_slot || _] =>
      replace (contains x time_slot) with true
        by (symmetry; exact (contains_single _ _ Hnine))
  end.
  done.
Qed.

Lemma normalize_time_slot_nine_is_morning_witness :
  normalize_time_slot (VStr (lit "19:00")) = Ok (Some MORNING).
Proof.
  apply normalize_time_slot_nine_is_morning; [vm_compute; reflexivity |].
  right. left. reflexivity.
Defined.

(** ** The conversation *)

(** X16 — turns.  In a conversation that was created and then only received
    messages, the history holds the messages in the order of the calls, the
    turn count is the number of messages of the role [user] in it, and the
    entities and the state are those of a new conversation. *)
Theorem add_message_counts_user_turns (timestamp : Z) (now : str) (calls : list call) :
  let c := add_messages calls (ConversationManager_new timestamp now) in
  message_history c
  = map (fun k => mkMessage (call_role k) (call_content k) (call_now k)) calls /\
  turn_count c = user_turns (message_history c) /\
  entities c = BookingEntities_new /\ state c = GREETING.
Proof.
  cbv zeta.
  assert (H : forall (c : ConversationManagerOf BookingEntities),
    message_history (add_messages calls c)
    = message_history c
      ++ map (fun k => mkMessage (call_role k) (call_content k) (call_now k)) calls /\
    (turn_count c = user_turns (message_history c) ->
     turn_count (add_messages calls c) = user_turns (message_history (add_messages calls c))) /\
    entities (add_messages calls c) = entities c /\
    state (add_messages calls c) = state c).
  { induction calls as [|k calls IH]; intros c.
    - simpl. by rewrite app_nil_r.
    - unfold add_messages. cbn [fold_left].
      fold (add_messages calls (add_message (call_now k) (call_role k) (call_content k) c)).
      destruct (IH (add_message (call_now k) (call_role k) (call_content k) c))
        as (Hh & Ht & He & Hs).
      assert (Hstep : message_history
                        (add_message (call_now k) (call_role k) (call_content k) c)
                      = message_history c
                        ++ [mkMessage (call_role k) (call_content k) (call_now k)]).
      { unfold add_message. by destruct (str_eqb (call_role k) ROLE_USER). }
      repeat split.
      + rewrite Hh, Hstep, <- app_assoc. done.
      + intros Hc. apply Ht. rewrite Hstep. unfold user_turns.
        rewrite List.filter_app, length_app. cbn [List.filter role].
        unfold add_message.
        destruct (str_eqb (call_role k) ROLE_USER); cbn [turn_count set_turn_count
          set_message_history length]; unfold user_turns in Hc; lia.
      + rewrite He. unfold add_message. by destruct (str_eqb (call_role k) ROLE_USER).
      + rewrite Hs. unfold add_message. by destruct (str_eqb (call_role k) ROLE_USER). }
  destruct (H (ConversationManager_new timestamp now)) as (Hh & Ht & He & Hs).
  repeat split; [done | by apply Ht | done | done].
Qed.

Lemma get_conversation_context_lines {E} (self : ConversationManagerOf E) :
  get_conversation_context self
  = concat (map context_line (last_n 6 (message_history self))).
Proof.
  unfold get_conversation_context.
  assert (H : forall l acc,
    fold_left (fun context msg => context ++ role msg ++ COLON_SPACE ++ content msg ++ [0xa])
              l acc
    = acc ++ concat (map context_line l)).
  { induction l as [|m l IH]; intros acc; cbn [fold_left map concat];
      [by rewrite app_nil_r |].
    rewrite IH. unfold context_line. by rewrite <- !app_assoc. }
  by rewrite H.
Qed.

(** X17 — the context.  With six messages or more in the history, the
    conversation context is the lines of the last six, one line
    [role: content] each; the message that is added next pushes the oldest
    of the six out. *)
Theorem get_conversation_context_last_six {E} (self : ConversationManagerOf E)
    (older recent : list message) :
  message_history self = older ++ recent -> length recent = 6%nat ->
  get_conversation_context self = concat (map context_line recent) /\
  forall now role content,
    get_conversation_context (add_message now role content self)
    = concat (map context_line (drop 1 recent ++ [mkMessage role content now])).
Proof.
  intros Hh Hlen. split.
  - rewrite get_conversation_context_lines, Hh. unfold last_n.
    rewrite length_app, Hlen.
    replace (length older + 6 - 6)%nat with (length older) by lia.
    by rewrite drop_app_length.
  - intros now role content. rewrite get_conversation_context_lines.
    assert (Hm : message_history (add_message now role content self)
                 = (older ++ take 1 recent) ++ (drop 1 recent ++ [mkMessage role content now])).
    { unfold add_message.
      destruct (str_eqb role ROLE_USER); cbn [message_history set_turn_count set_message_history];
        rewrite Hh, <- !app_assoc; f_equal; by rewrite app_assoc, take_drop. }
    rewrite Hm. unfold last_n. rewrite !length_app, length_take, length_drop, Hlen.
    cbn [length].
    replace (length older + 1 `min` 6 + (6 - 1 + 1) - 6)%nat
      with (length (older ++ take 1 recent)).
    + by rewrite drop_app_length.
    + rewrite length_app, length_take, Hlen. lia.
Qed.

Lemma get_conversation_context_last_six_witness :
  get_conversation_context
    (set_message_history
       ([mkMessage ROLE_USER (lit "0") []]
        ++ repeat (mkMessage ROLE_USER (lit "hi") []) 6) new_conversation)
  = concat (map context_line (repeat (mkMessage ROLE_USER (lit "hi") []) 6)).
Proof.
  exact (proj1 (get_conversation_context_last_six
                  (set_message_history
                     ([mkMessage ROLE_USER (lit "0") []]
                      ++ repeat (mkMessage ROLE_USER (lit "hi") []) 6) new_conversation)
                  [mkMessage ROLE_USER (lit "0") []]
                  (repeat (mkMessage ROLE_USER (lit "hi") []) 6) eq_refl eq_refl)).
Defined.

(** ** Completeness of a record *)

Lemma sub_lacks_false {A} (attr : A -> value) (x : sub A) :
  sub_lacks attr x = Ok false -> exists a, x = SubObj a /\ truthy (attr a) = true.
Proof.
  unfold sub_lacks. destruct x as [|a|v]; cbn [sub_truthy negb sub_attr bind].
  - done.
  - intros [= H%negb_false_iff]. by exists a.
  - by destruct (truthy v).
Qed.

(** X11 — completeness.  [is_complete] answers yes exactly when the type,
    the policy number and the phone number are non-empty, the patient
    sub-object is an object with a non-empty name and the time sub-object is
    an object with a non-empty date. *)
Theorem is_complete_iff (E : BookingEntities) :
  is_complete E = Ok true <->
  truthy (booking_type E) = true /\
  (exists p, patient_info E = SubObj p /\ truthy (name p) = true) /\
  truthy (policy_number E) = true /\
  (exists t, available_time E = SubObj t /\ truthy (date t) = true) /\
  truthy (phone_number E) = true.
Proof.
  unfold is_complete. split.
  - intros (missing & Hm & [= Hlen%Nat.eqb_eq])%bind_Ok.
    destruct missing; [| done].
    apply get_missing_fields_exact in Hm as (no_name & no_date & Hn & Hd & Hm).
    destruct (truthy (booking_type E)); [| done].
    destruct no_name; [done |].
    destruct (truthy (policy_number E)); [| done].
    destruct no_date; [done |].
    destruct (truthy (phone_number E)); [| done].
    apply sub_lacks_false in Hn, Hd. done.
  - intros (Hbt & (p & Hp & Hn) & Hpn & (t & Ht & Hd) & Hph).
    unfold get_missing_fields. rewrite Hbt, Hp, Hpn, Ht, Hph.
    cbn [sub_lacks sub_truthy sub_attr negb bind]. by rewrite Hn, Hd.
Qed.

(** ** The entity update of the conversation *)

Lemma for_each_in_place_app {S A} (body : S -> A -> S * option exn) (s : S)
    (l1 l2 : list A) (s1 : S) :
  for_each_in_place body s l1 = (s1, None) ->
  for_each_in_place body s (l1 ++ l2) = for_each_in_place body s1 l2.
Proof.
  revert s. induction l1 as [|x l1 IH]; intros s; simpl.
  - by intros [= ->].
  - destruct (body s x) as [s' [e|]]; [done |]. apply IH.
Qed.

Lemma unrecognized_key (key : str) :
  ~ In key recognized_keys ->
  str_eqb key K_booking_type = false /\ str_eqb key K_phone_number = false /\
  str_eqb key K_policy_number = false /\ str_eqb key K_patient_info = false /\
  str_eqb key K_available_time = false.
Proof.
  intros H. repeat split; apply str_eqb_neq; intros ->; apply H; simpl; tauto.
Qed.



(** X14 — a patient sub-object that is not a map.  [update_entities] assigns
    a non-empty value that is not a map to [patient_info] as it is; after
    that [get_missing_fields], [is_complete] and [to_dict] end with
    [AttributeError].  [merge_entities] leaves such a value out and reports
    no error. *)
Theorem update_entities_raw_patient_info (E : BookingEntities) (v : value) today :
  truthy v = true -> as_dict v = None ->
  update_entities E [(K_patient_info, v)] = (set_patient_info (SubRaw v) E, None) /\
  get_missing_fields (set_patient_info (SubRaw v) E) = Raise AttributeError /\
  is_complete (set_patient_info (SubRaw v) E) = Raise AttributeError /\
  to_dict (set_patient_info (SubRaw v) E) = Raise AttributeError /\
  merge_entities today E [(K_patient_info, v)] = Ok (E, []).
Proof.
  intros Hv Hd.
  assert (Hsub : @to_sub PatientInfo v = SubRaw v) by (by destruct v).
  repeat split.
  - unfold update_entities. cbn [for_each_in_place update_step].
    rewrite str_eqb_refl, Hd.
    change (str_eqb K_patient_info K_available_time) with false. cbn iota.
    rewrite Hv. unfold BookingEntities_setattr.
    change (str_eqb K_patient_info K_booking_type) with false.
    rewrite str_eqb_refl. cbn iota. by rewrite Hsub.
  - unfold get_missing_fields, sub_lacks. cbn [patient_info set_patient_info sub_truthy].
    by rewrite Hv.
  - unfold is_complete, get_missing_fields, sub_lacks.
    cbn [patient_info set_patient_info sub_truthy]. by rewrite Hv.
  - unfold to_dict, sub_attr_or_none. cbn [patient_info set_patient_info sub_truthy].
    by rewrite Hv.
  - unfold merge_entities. cbn [for_each]. unfold merge_step. rewrite Hv. cbn [negb].
    change (str_eqb K_patient_info K_booking_type) with false.
    change (str_eqb K_patient_info K_phone_number) with false.
    change (str_eqb K_patient_info K_policy_number) with false.
    change (str_eqb K_patient_info K_available_time) with false.
    rewrite str_eqb_refl, Hd. done.
Qed.

Lemma update_entities_raw_patient_info_witness :
  update_entities BookingEntities_new [(K_patient_info, VStr (lit "John"))]
  = (set_patient_info (SubRaw (VStr (lit "John"))) BookingEntities_new, None) /\
  get_missing_fields (set_patient_info (SubRaw (VStr (lit "John"))) BookingEntities_new)
  = Raise AttributeError.
Proof.
  destruct (update_entities_raw_patient_info BookingEntities_new (VStr (lit "John"))
              today_example eq_refl eq_refl) as (H1 & H2 & _).
  exact (conj H1 H2).
Defined.

Lemma kept_settled v : settled v -> kept v = v.
Proof. unfold kept. intros [-> | ->]; done. Qed.

Ltac eval_keys :=
  repeat match goal with
         | |- context [str_eqb ?a ?b] =>
             let r := eval vm_compute in (str_eqb a b) in
             change (str_eqb a b) with r
         end.

Lemma update_step_booking_type (E : BookingEntities) v :
  update_step E (K_booking_type, v)
  = (if truthy v then set_booking_type v E else E, None).
Proof.
  unfold update_step, BookingEntities_setattr. eval_keys. cbn iota.
  by destruct (truthy v).
Qed.

Lemma update_step_policy_number (E : BookingEntities) v :
  update_step E (K_policy_number, v)
  = (if truthy v then set_policy_number v E else E, None).
Proof.
  unfold update_step, BookingEntities_setattr. eval_keys. cbn iota.
  by destruct (truthy v).
Qed.

Lemma update_step_phone_number (E : BookingEntities) v :
  update_step E (K_phone_number, v)
  = (if truthy v then set_phone_number v E else E, None).
Proof.
  unfold update_step, BookingEntities_setattr. eval_keys. cbn iota.
  by destruct (truthy v).
Qed.

Lemma update_step_patient_info (E : BookingEntities) p n a g :
  patient_info E = SubObj p ->
  update_step E (K_patient_info, VDict [(K_name, n); (K_age, a); (K_gender, g)])
  = (set_patient_info
       (SubObj (mkPatientInfo (stored_or_kept n (name p)) (stored_or_kept a (age p))
                  (stored_or_kept g (gender p)))) E, None).
Proof.
  intros Hp. unfold update_step. eval_keys. cbn [as_dict]. rewrite Hp.
  cbn [ensure sub_truthy for_each_in_place update_sub]. unfold stored_or_kept.
  destruct p as [n0 a0 g0].
  destruct (truthy n), (truthy a), (truthy g);
    cbn [sub_setattr PatientInfo_setattr bind name age gender]; eval_keys; reflexivity.
Qed.

Lemma update_step_available_time (E : BookingEntities) t dt ts :
  available_time E = SubObj t ->
  update_step E (K_available_time, VDict [(K_date, dt); (K_time_slot, ts)])
  = (set_available_time
       (SubObj (mkPreferredTime (stored_or_kept dt (date t))
                  (stored_or_kept ts (time_slot t)))) E, None).
Proof.
  intros Ht. unfold update_step. eval_keys. cbn [as_dict]. rewrite Ht.
  cbn [ensure sub_truthy for_each_in_place update_sub]. unfold stored_or_kept.
  destruct t as [dt0 ts0].
  destruct (truthy dt), (truthy ts);
    cbn [sub_setattr PreferredTime_setattr bind date time_slot]; eval_keys; reflexivity.
Qed.

(** X12 — round trip.  For a record whose two sub-objects are objects,
    [to_dict] answers, and [update_entities] on a new record with that map
    gives the record back with every empty value (zero, the empty text, ...)
    replaced by None, without an exception; it gives the record itself when
    every field is None or non-empty. *)
Theorem to_dict_update_entities_round_trip (E : BookingEntities) p t :
  patient_info E = SubObj p -> available_time E = SubObj t ->
  exists d, to_dict E = Ok d /\
    update_entities BookingEntities_new d
    = (mkBookingEntities (kept (booking_type E))
         (SubObj (mkPatientInfo (kept (name p)) (kept (age p)) (kept (gender p))))
         (kept (policy_number E))
         (SubObj (mkPreferredTime (kept (date t)) (kept (time_slot t))))
         (kept (phone_number E)), None) /\
    (Forall settled [booking_type E; name p; age p; gender p; policy_number E;
                     date t; time_slot t; phone_number E] ->
     update_entities BookingEntities_new d = (E, None)).
Proof.
  destruct E as [bt pi pn at_ ph], p as [n a g], t as [dt ts].
  cbn [booking_type patient_info policy_number available_time phone_number
       name age gender date time_slot].
  intros -> ->. eexists. split; [reflexivity |].
  assert (Hmain :
    update_entities BookingEntities_new
      [(K_booking_type, bt);
       (K_patient_info, VDict [(K_name, n); (K_age, a); (K_gender, g)]);
       (K_policy_number, pn);
       (K_available_time, VDict [(K_date, dt); (K_time_slot, ts)]);
       (K_phone_number, ph)]
    = (mkBookingEntities (kept bt)
         (SubObj (mkPatientInfo (kept n) (kept a) (kept g))) (kept pn)
         (SubObj (mkPreferredTime (kept dt) (kept ts))) (kept ph), None)).
  { unfold update_entities. cbn [for_each_in_place].
    rewrite update_step_booking_type.
    rewrite (update_step_patient_info _ PatientInfo_new) by (by destruct (truthy bt)).
    rewrite update_step_policy_number.
    rewrite (update_step_available_time _ PreferredTime_new)
      by (by destruct (truthy bt), (truthy pn)).
    rewrite update_step_phone_number.
    unfold kept, stored_or_kept.
    by destruct (truthy bt), (truthy pn), (truthy ph). }
  split; [exact Hmain |].
  intros H. etransitivity; [exact Hmain |].
  repeat match type of H with
         | Forall _ (_ :: _) => apply Forall_cons in H as [?%kept_settled H]
         end.
  congruence.
Qed.

Lemma to_dict_update_entities_round_trip_witness :
  exists d,
    to_dict (set_booking_type (VStr (lit "x")) BookingEntities_new) = Ok d /\
    update_entities BookingEntities_new d
    = (set_booking_type (VStr (lit "x")) BookingEntities_new, None).
Proof.
  destruct (to_dict_update_entities_round_trip
              (set_booking_type (VStr (lit "x")) BookingEntities_new)
              PatientInfo_new PreferredTime_new eq_refl eq_refl) as (d & Hd & _ & H).
  exists d. split; [exact Hd |]. apply H.
  repeat (apply Forall_cons_2; [(by left) || (by right) |]). apply Forall_nil_2.
Defined.

(** ** The merge fills fields in and never empties them *)

Lemma no_less_refl m : no_less m m.
Proof. unfold no_less. tauto. Qed.

Lemma no_less_trans m1 m2 m3 : no_less m1 m2 -> no_less m2 m3 -> no_less m1 m3.
Proof. unfold no_less. tauto. Qed.

Lemma validate_appointment_type_nonempty v res :
  truthy v = true ->
  validate_appointment_type v (Some get_clinic_appointment_types) = Ok (true, res) ->
  res <> [].
Proof.
  intros Ht. unfold validate_appointment_type. rewrite Ht. cbn [negb].
  destruct v as [| | |s| |]; try done.
  destruct (find _ get_clinic_appointment_types) as [t|] eqn:Hm.
  - intros [= <-]. apply find_some in Hm as [Hin _].
    by destruct (catalogue_matches_itself t Hin).
  - intros [= <-]. by destruct s.
Qed.

Lemma validate_phone_number_nonempty raw res :
  validate_phone_number raw = (true, res) -> res <> [].
Proof. intros [_ Hm]%validate_phone_number_sound. by destruct res. Qed.

Lemma validate_policy_number_nonempty raw res :
  validate_policy_number raw = (true, res) -> res <> [].
Proof.
  unfold validate_policy_number. destruct raw as [|c raw]; [done |].
  destruct (match_policy (c :: raw)); [| done]. by intros [= <-].
Qed.

Lemma truthy_text (s : str) : s <> [] -> truthy (VStr s) = true.
Proof. by destruct s. Qed.

Lemma PatientInfo_setattr_name k v a0 a1 :
  truthy v = true -> PatientInfo_setattr k v a0 = Ok a1 ->
  truthy (name a0) = true -> truthy (name a1) = true.
Proof.
  unfold PatientInfo_setattr. intros Hv.
  repeat (destruct (str_eqb k _); [by intros [= <-] |]). done.
Qed.

Lemma PreferredTime_setattr_date k v a0 a1 :
  truthy v = true -> PreferredTime_setattr k v a0 = Ok a1 ->
  truthy (date a0) = true -> truthy (date a1) = true.
Proof.
  unfold PreferredTime_setattr. intros Hv.
  repeat (destruct (str_eqb k _); [by intros [= <-] |]). done.
Qed.

(** Storing a sub-object keeps a filled field filled and the type of the
    optional field. *)
Lemma store_sub_filled {A} (setattr : str -> value -> A -> result A) (attr : A -> value)
    (new : A) (x x1 : sub A) (W : dict) :
  (forall k v a0 a1, truthy v = true -> setattr k v a0 = Ok a1 ->
                     truthy (attr a0) = true -> truthy (attr a1) = true) ->
  for_each (store_sub setattr) (ensure new x) W = Ok x1 ->
  (filled_sub attr x -> filled_sub attr x1) /\ (typed_sub x -> typed_sub x1).
Proof.
  intros Hkeep Hloop. split.
  - intros (a & -> & Ha). cbn [ensure sub_truthy] in Hloop.
    eapply (store_sub_invariant setattr (fun a => truthy (attr a) = true)) in Hloop;
      [| | reflexivity | exact Ha].
    + destruct Hloop as (a1 & -> & Ha1). by exists a1.
    + intros k v a0 a1 _. apply Hkeep.
  - intros Hx. destruct (typed_sub_ensure new x Hx) as [a Ha]. rewrite Ha in Hloop.
    apply store_sub_obj in Hloop as [a1 ->]. done.
Qed.

Lemma ensure_filled {A} (attr : A -> value) (new : A) (x : sub A) :
  (filled_sub attr x -> filled_sub attr (ensure new x)) /\
  (typed_sub x -> typed_sub (ensure new x)).
Proof.
  split.
  - by intros (a & -> & Ha); exists a.
  - intros Hx. by destruct (typed_sub_ensure new x Hx) as [a ->].
Qed.

Lemma merge_step_rel_no_less today m k v m1 g :
  merge_step_rel today m k v m1 g -> no_less m m1.
Proof.
  intros H. destruct H; try apply no_less_refl.
  - (* booking type stored *)
    unfold no_less, typed_record. cbn. repeat split; try tauto.
    intros _. apply truthy_text. by eapply validate_appointment_type_nonempty.
  - unfold no_less, typed_record. cbn. repeat split; try tauto.
    intros _. apply truthy_text.
    match goal with
    | Hv : on_str _ _ _ = _ |- _ => apply on_str_accepted in Hv as [raw Hv]
    end.
    by eapply validate_phone_number_nonempty.
  - unfold no_less, typed_record. cbn. repeat split; try tauto.
    intros _. apply truthy_text.
    match goal with
    | Hv : on_str _ _ _ = _ |- _ => apply on_str_accepted in Hv as [raw Hv]
    end.
    by eapply validate_policy_number_nonempty.
  - destruct (ensure_filled name PatientInfo_new (patient_info m)) as [Hf Ht].
    unfold no_less, typed_record. cbn. repeat split; tauto.
  - match goal with
    | Hl : for_each _ _ _ = Ok _ |- _ =>
        destruct (store_sub_filled PatientInfo_setattr name _ _ _ _
                    PatientInfo_setattr_name Hl) as [Hf Ht]
    end.
    unfold no_less, typed_record. cbn. repeat split; tauto.
  - destruct (ensure_filled date PreferredTime_new (available_time m)) as [Hf Ht].
    unfold no_less, typed_record. cbn. repeat split; tauto.
  - match goal with
    | Hl : for_each _ _ _ = Ok _ |- _ =>
        destruct (store_sub_filled PreferredTime_setattr date _ _ _ _
                    PreferredTime_setattr_date Hl) as [Hf Ht]
    end.
    unfold no_less, typed_record. cbn. repeat split; tauto.
Qed.

Lemma merge_loop_no_less today l : forall m es z errs,
  for_each (merge_step today) (m, es) l = Ok (z, errs) -> no_less m z.
Proof.
  induction l as [|i l IH]; intros m es z errs H.
  - injection H as <- _. apply no_less_refl.
  - apply merge_loop_cons in H as (m1 & g & Hstep & Hrest).
    eapply no_less_trans; [by eapply merge_step_rel_no_less | by eapply IH].
Qed.

Lemma sub_lacks_filled {A} (attr : A -> value) (x : sub A) b :
  typed_sub x -> sub_lacks attr x = Ok b -> (b = false <-> filled_sub attr x).
Proof.
  unfold sub_lacks, filled_sub. destruct x as [|a|v]; [| | done]; intros _;
    cbn [sub_truthy negb sub_attr bind]; intros [= <-].
  - split; [done | by intros (a & ? & _)].
  - rewrite negb_false_iff. split; [by exists a | by intros (a' & [= <-] & ?)].
Qed.

(** X15 — the merge never empties a mandatory field.  For a record whose
    optional fields hold what their type says, the missing fields after a
    merge that returns are among the missing fields before it, in the same
    order; so a complete record stays complete. *)
Theorem merge_entities_keeps_fields_filled today (E : BookingEntities) M E' errs :
  typed_record E ->
  merge_entities today E M = Ok (E', errs) ->
  exists missing missing',
    get_missing_fields E = Ok missing /\
    get_missing_fields E' = Ok missing' /\
    subsequence missing' missing = true /\
    (is_complete E = Ok true -> is_complete E' = Ok true).
Proof.
  intros Htyped Hmerge. apply merge_loop_no_less in Hmerge.
  destruct Hmerge as (Hbt & Hname & Hpn & Hdate & Hph & Htyped').
  specialize (Htyped' Htyped).
  destruct (get_missing_fields_total E Htyped) as [missing Hm].
  destruct (get_missing_fields_total E' Htyped') as [missing' Hm'].
  exists missing, missing'. split; [done |]. split; [done |].
  assert (Hsub : subsequence missing' missing = true).
  { destruct (get_missing_fields_exact E missing Hm) as (b2 & b4 & Hb2 & Hb4 & ->).
    destruct (get_missing_fields_exact E' missing' Hm') as (c2 & c4 & Hc2 & Hc4 & ->).
    destruct Htyped as [Tp Tt], Htyped' as [Tp' Tt'].
    apply (sub_lacks_filled name _ _ Tp) in Hb2. apply (sub_lacks_filled date _ _ Tt) in Hb4.
    apply (sub_lacks_filled name _ _ Tp') in Hc2. apply (sub_lacks_filled date _ _ Tt') in Hc4.
    assert (H2 : c2 = true -> b2 = true).
    { destruct b2; [done |]. intros ->. assert (true = false); [| done].
      apply Hc2, Hname, Hb2. done. }
    assert (H4 : c4 = true -> b4 = true).
    { destruct b4; [done |]. intros ->. assert (true = false); [| done].
      apply Hc4, Hdate, Hb4. done. }
    clear Hb2 Hb4 Hc2 Hc4 Hname Hdate.
    destruct (truthy (booking_type E)); [specialize (Hbt eq_refl); rewrite Hbt |];
      (destruct (truthy (policy_number E)); [specialize (Hpn eq_refl); rewrite Hpn |]);
      (destruct (truthy (phone_number E)); [specialize (Hph eq_refl); rewrite Hph |]);
      destruct (truthy (booking_type E')), (truthy (policy_number E')),
        (truthy (phone_number E'));
      destruct b2, c2; try (by specialize (H2 eq_refl));
      destruct b4, c4; try (by specialize (H4 eq_refl));
      vm_compute; reflexivity. }
  split; [done |].
  unfold is_complete. rewrite Hm, Hm'. cbn [bind].
  destruct missing; [| done]. by destruct missing'.
Qed.

Lemma merge_entities_keeps_fields_filled_witness :
  exists missing missing',
    get_missing_fields BookingEntities_new = Ok missing /\
    get_missing_fields
      (mkBookingEntities VNone
         (SubObj (mkPatientInfo (VStr (lit "John")) VNone (VStr MALE))) VNone
         (SubObj PreferredTime_new) (VStr (lit "91234567"))) = Ok missing' /\
    subsequence missing' missing = true.
Proof.
  destruct (merge_entities_keeps_fields_filled today_example BookingEntities_new
              valid_update
              (mkBookingEntities VNone
                 (SubObj (mkPatientInfo (VStr (lit "John")) VNone (VStr MALE))) VNone
                 (SubObj PreferredTime_new) (VStr (lit "91234567"))) [])
    as (m & m' & H1 & H2 & H3 & _).
  - split; exact I.
  - vm_compute. reflexivity.
  - exists m, m'. auto.
Defined.

(** ** The extraction history *)

Lemma all_successful_count history :
  all_successful history -> store.successful_extractions history = store.total_extractions history.
Proof.
  unfold all_successful, store.successful_extractions, store.total_extractions.
  induction 1 as [|info history Hinfo _ IH]; [done |].
  cbn [List.filter]. rewrite Hinfo. cbn [length]. by rewrite IH.
Qed.

(** X18 — the extraction history.  For a record whose optional fields hold
    what their type says and an extraction service whose maps keep to the
    fields of the two sub-objects, [extract_and_merge] returns; the history
    gets the returned report appended when the call reports success and is
    unchanged otherwise; the call reports success exactly when the
    extraction is not empty and the merge returns, whatever validation
    errors the merge reports.  So every entry of the history reports
    success, and [get_extraction_summary] counts as many successful
    extractions as extractions. *)
Theorem extract_and_merge_history llm_service today history conversation user_message
    h E :
  store.snapshot h (entities conversation) = Some E -> typed_record E ->
  (forall before context,
     declared_sub_keys (extract_entities llm_service user_message before context)) ->
  all_successful history ->
  exists h' history' conversation' ok info,
    store.extract_and_merge llm_service today history conversation user_message h
    = Some (h', Ok (history', conversation', (ok, info))) /\
    history' = (if ok then history ++ [info] else history) /\
    store.merged_successfully info = ok /\
    (ok = true <->
     store.extracted_entities info <> [] /\
     exists E' errs,
       merge_entities today E (store.extracted_entities info) = Ok (E', errs)) /\
    all_successful history' /\
    store.successful_extractions history' = store.total_extractions history'.
Proof.
  intros Hsnap HE _ Hall. destruct (to_dict_total E HE) as [before Hd].
  destruct (extract_entities llm_service user_message before
              (get_conversation_context conversation)) as [|item extracted] eqn:Hex.
  - exists h, history, conversation, false,
      (store.mkExtractionInfo user_message [] false [] before None None).
    split; [by eapply extract_and_merge_nothing |].
    split; [done |]. split; [done |].
    split; [split; [done | intros [Hne _]; by destruct Hne] |].
    split; [done | by apply all_successful_count].
  - destruct (extract_and_merge_something llm_service today history conversation
                user_message h E before Hsnap Hd) as (h' & out & Hrun & Hu & Hres).
    { by rewrite Hex. }
    rewrite Hex in Hres.
    destruct (merge_entities today E (item :: extracted)) as [[E' errs]|ex] eqn:Hm.
    + destruct Hres as (merged & Hown & Hres).
      assert (HE' : typed_record E').
      { unfold merge_entities in Hm. apply merge_loop_no_less in Hm.
        by apply Hm. }
      destruct (to_dict_total E' HE') as [after Hafter]. rewrite Hafter in Hres.
      cbv zeta in Hres. subst out.
      assert (Hall' : all_successful
                (history ++ [store.mkExtractionInfo user_message (item :: extracted) true
                               errs before (Some after) None])).
      { apply Forall_app. split; [done |]. by apply Forall_cons_2. }
      eexists h', _, _, true, _. split; [exact Hrun |].
      split; [done |]. split; [done |].
      split; [split; [intros _; split; [done | by exists E', errs] | done] |].
      split; [done | by apply all_successful_count].
    + subst out. eexists h', _, _, false, _. split; [exact Hrun |].
      split; [done |]. split; [done |].
      split; [split; [done | intros [_ (E' & errs & Hok)];
        change (merge_entities today E (item :: extracted) = Ok (E', errs)) in Hok;
        congruence] |].
      split; [done | by apply all_successful_count].
Qed.

Lemma declared_sub_keys_mixed_update : declared_sub_keys mixed_update.
Proof.
  intros k d [[=]|[[= <- <-]|[]]]. split; [intros _ | intros Hk; discriminate Hk].
  intros k v [[= <- <-]|[[= <- <-]|[]]] _; [left | right; right; left]; reflexivity.
Qed.

Lemma extract_and_merge_history_witness :
  exists h' history' conversation' ok info,
    store.extract_and_merge llm_mixed today_example [] conversation_example
      (lit "hello") store_example
    = Some (h', Ok (history', conversation', (ok, info))) /\
    history' = (if ok then [] ++ [info] else []).
Proof.
  destruct (extract_and_merge_history llm_mixed today_example [] conversation_example
              (lit "hello") store_example BookingEntities_new
              snapshot_store_example (conj I I)
              (fun _ _ => declared_sub_keys_mixed_update) (Forall_nil_2 _))
    as (h' & history' & conversation' & ok & info & Hrun & Hh & _).
  exists h', history', conversation', ok, info. exact (conj Hrun Hh).
Defined.

(** ** Slot suggestions, continued *)

Section more_slots.

Import calendar_avalibility.
Local Open Scope Z_scope.

Lemma overlaps_mono busy busy' s :
  (forall p, In p busy -> In p busy') ->
  overlaps busy s = true -> overlaps busy' s = true.
Proof.
  intros Hsub. unfold overlaps. rewrite !existsb_exists.
  intros (p & Hin & Hp). exists p. split; [by apply Hsub | done].
Qed.

(** X19 — more busy periods, fewer suggestions.  When every busy period of
    one list is in another, every slot suggested for the second list is
    suggested for the first; two lists with the same periods, in any order
    and number, give the same suggestions. *)
Theorem suggest_meeting_times_busier busy busy' time_min time_max :
  (forall p, In p busy -> In p busy') ->
  exists result result',
    suggest_meeting_times busy time_min time_max = Some result /\
    suggest_meeting_times busy' time_min time_max = Some result' /\
    (forall s, In s result' -> In s result) /\
    ((forall p, In p busy' -> In p busy) -> result' = result).
Proof.
  intros Hsub. rewrite !suggest_meeting_times_spec.
  eexists _, _. split; [done |]. split; [done |]. split.
  - intros s. rewrite !filter_In. intros [Hin Hacc]. split; [done |].
    unfold accepted in *. apply andb_true_iff in Hacc as [Hhour Hfree].
    rewrite Hhour. cbn [andb]. apply negb_true_iff in Hfree. apply negb_true_iff.
    destruct (overlaps busy s) eqn:E; [| done].
    by rewrite (overlaps_mono _ _ _ Hsub E) in Hfree.
  - intros Hsup. apply filter_ext. intros s. unfold accepted. f_equal. f_equal.
    destruct (overlaps busy s) eqn:E.
    + by apply (overlaps_mono _ _ _ Hsub).
    + destruct (overlaps busy' s) eqn:E'; [| done].
      by rewrite (overlaps_mono _ _ _ Hsup E') in E.
Qed.

Lemma suggest_meeting_times_busier_witness :
  exists result result',
    suggest_meeting_times [] (9 * HOUR) (12 * HOUR) = Some result /\
    suggest_meeting_times [(9 * HOUR, 10 * HOUR)] (9 * HOUR) (12 * HOUR) = Some result' /\
    (forall s, In s result' -> In s result).
Proof.
  destruct (suggest_meeting_times_busier [] [(9 * HOUR, 10 * HOUR)] (9 * HOUR) (12 * HOUR))
    as (result & result' & H1 & H2 & H3 & _).
  - intros p Hp. destruct Hp.
  - exists result, result'. auto.
Defined.

(** X21 — busy periods outside the window.  A busy period that ends by the
    rounded start of the window, or starts at its end or later, does not
    change the suggestions. *)
Theorem suggest_meeting_times_ignores_outside busy busy_start busy_end time_min time_max :
  busy_end <= round_up time_min \/ time_max <= busy_start ->
  suggest_meeting_times ((busy_start, busy_end) :: busy) time_min time_max
  = suggest_meeting_times busy time_min time_max.
Proof.
  intros Hout. rewrite !suggest_meeting_times_spec. f_equal.
  apply filter_ext_in. intros s (k & Hk%turns_lt & ->)%in_cursors.
  unfold accepted. f_equal. f_equal. unfold overlaps. cbn [existsb].
  replace ((busy_start <? round_up time_min + Z.of_nat k * slot_duration + slot_duration)
           && (round_up time_min + Z.of_nat k * slot_duration <? busy_end)) with false; [done |].
  symmetry. apply andb_false_iff.
  assert (0 <= Z.of_nat k * slot_duration).
  { rewrite slot_duration_hour. unfold HOUR, MINUTE, SECOND. lia. }
  destruct Hout; [right | left]; apply Z.ltb_ge; lia.
Qed.

Lemma suggest_meeting_times_ignores_outside_witness :
  suggest_meeting_times [(7 * HOUR, 9 * HOUR)] (8 * HOUR + 30 * MINUTE) (12 * HOUR)
  = suggest_meeting_times [] (8 * HOUR + 30 * MINUTE) (12 * HOUR).
Proof.
  apply suggest_meeting_times_ignores_outside. left. vm_compute. discriminate.
Defined.

Lemma cursors_spaced n : forall start,
  StronglySorted (fun a b => a + slot_duration <= b) (cursors start n).
Proof.
  induction n as [|n IH]; intros start; [constructor |].
  rewrite cursors_S. constructor; [apply IH |].
  apply Forall_forall. intros s (k & _ & ->)%list_elem_of_In%in_cursors.
  rewrite slot_duration_hour. unfold HOUR, MINUTE, SECOND. lia.
Qed.

Lemma filter_strongly_sorted (R : Z -> Z -> Prop) (f : Z -> bool) l :
  StronglySorted R l -> StronglySorted R (List.filter f l).
Proof.
  induction 1 as [|x l Hl IH Hx]; [constructor |]. cbn [List.filter].
  destruct (f x); [| done]. constructor; [done |].
  rewrite Forall_forall in Hx |- *. intros y Hy%list_elem_of_In%filter_In.
  apply Hx. apply list_elem_of_In. tauto.
Qed.

(** X20 — the suggested slots are disjoint.  The suggestions are always
    produced; each starts on a full hour, not before [time_min], and ends by
    [time_max]; each but the first starts when the one before has ended, or
    later; a window shorter than one slot gives none. *)
Theorem suggest_meeting_times_disjoint_slots busy time_min time_max :
  exists result,
    suggest_meeting_times busy time_min time_max = Some result /\
    StronglySorted (fun a b => a + slot_duration <= b) result /\
    Forall (fun s => time_min <= s /\ s mod HOUR = 0 /\ s + slot_duration <= time_max)
           result /\
    (time_max < time_min + slot_duration -> result = []).
Proof.
  rewrite suggest_meeting_times_spec. eexists. split; [done |].
  split; [apply filter_strongly_sorted, cursors_spaced |].
  destruct (round_up_ge time_min) as [[Hlo Hhi] Hmod].
  split.
  - apply Forall_forall. intros s [(k & Hk%turns_lt & ->)%in_cursors _]%list_elem_of_In%filter_In.
    rewrite slot_duration_hour in *.
    split; [unfold HOUR, MINUTE, SECOND; lia |]. split; [| done].
    rewrite Z.add_mod, Z.mod_mul, Hmod by done. done.
  - intros Hshort. rewrite turns_stop by lia. done.
Qed.

End more_slots.

Section day_slots.

Import calendar_avalibility.
Local Open Scope Z_scope.

Lemma hour_of_cursor start (k : nat) :
  start mod HOUR = 0 ->
  hour (start + Z.of_nat k * slot_duration) = (start / HOUR + Z.of_nat k) mod 24.
Proof.
  intros Hmod. unfold hour. rewrite slot_duration_hour. f_equal.
  by rewrite Z.div_add.
Qed.

Lemma hours_apart (q a b : Z) :
  0 <= a < 24 -> 0 <= b < 24 -> (q + a) mod 24 = (q + b) mod 24 -> a = b.
Proof.
  intros Ha Hb Heq.
  pose proof (Z.div_mod (q + a) 24 ltac:(done)) as H1.
  pose proof (Z.div_mod (q + b) 24 ltac:(done)) as H2.
  rewrite Heq in H1. lia.
Qed.

Lemma sorted_no_duplicates (l : list Z) : StronglySorted Z.lt l -> List.NoDup l.
Proof.
  induction 1 as [|x l Hl IH Hx]; constructor; [| done].
  intros Hin. rewrite Forall_forall in Hx. apply list_elem_of_In, Hx in Hin. lia.
Qed.

(** X22 — nine a day.  A window of 24 hours or less gives at most nine
    suggestions, whatever its start: its candidate slots start at different
    hours of the clock, and nine of these are business hours. *)
Theorem suggest_meeting_times_nine_a_day busy time_min time_max :
  time_max <= time_min + DAY ->
  exists result,
    suggest_meeting_times busy time_min time_max = Some result /\
    (length result <= 9)%nat.
Proof.
  intros Hday. rewrite suggest_meeting_times_spec. eexists. split; [done |].
  destruct (round_up_ge time_min) as [[Hlo Hhi] Hmod].
  set (start := round_up time_min) in *.
  set (n := turns time_max start).
  assert (Hn : (n <= 24)%nat).
  { destruct (decide (n <= 24)%nat) as [|Hgt]; [done |]. exfalso.
    assert (Hk : (24 < n)%nat) by lia. apply turns_lt in Hk.
    rewrite slot_duration_hour in Hk. unfold DAY in Hday.
    unfold HOUR, MINUTE, SECOND in *. lia. }
  set (result := List.filter (accepted busy) (cursors start n)).
  assert (Hnodup : List.NoDup (map hour result)).
  { apply Finite.Injective_map_NoDup_in.
    - intros x y [(i & Hi & ->)%in_cursors _]%filter_In [(j & Hj & ->)%in_cursors _]%filter_In.
      rewrite !hour_of_cursor by done. intros Heq%hours_apart; [| lia | lia].
      by rewrite Heq.
    - apply List.NoDup_filter. apply sorted_no_duplicates, cursors_sorted. }
  assert (Hincl : incl (map hour result) [9; 10; 11; 12; 13; 14; 15; 16; 17]).
  { intros h (s & <- & [_ Hacc]%filter_In)%in_map_iff.
    unfold accepted in Hacc.
    apply andb_true_iff in Hacc as [[Hlo'%Z.leb_le Hhi'%Z.ltb_lt]%andb_true_iff _].
    unfold BUSINESS_HOURS_START, BUSINESS_HOURS_END in *. simpl. lia. }
  pose proof (NoDup_incl_length Hnodup Hincl) as Hlen.
  by rewrite length_map in Hlen.
Qed.

Lemma suggest_meeting_times_nine_a_day_witness :
  exists result,
    suggest_meeting_times [] (8 * HOUR + 30 * MINUTE) (32 * HOUR + 30 * MINUTE)
    = Some result /\
    (length result <= 9)%nat.
Proof.
  apply suggest_meeting_times_nine_a_day. vm_compute. discriminate.
Defined.

End day_slots.

(** ** The language model service *)

Import llm_service.

Lemma generate_response_from_spec model prompt remaining : forall attempt,
  match generate_response_from model prompt attempt remaining with
  | None =>
      forall i, (attempt <= i < attempt + remaining)%nat -> exists e, model i prompt = Raise e
  | Some response =>
      exists i text, (attempt <= i < attempt + remaining)%nat /\
        model i prompt = Ok text /\ response = strip text /\
        forall j, (attempt <= j < i)%nat -> exists e, model j prompt = Raise e
  end.
Proof.
  induction remaining as [|remaining IH]; intros attempt; cbn [generate_response_from].
  - intros i Hi. lia.
  - destruct (model attempt prompt) as [text|e] eqn:Hm.
    + exists attempt, text. repeat split; [lia | lia | done |]. intros j Hj. lia.
    + specialize (IH (S attempt)).
      destruct (generate_response_from model prompt (S attempt) remaining) as [response|].
      * destruct IH as (i & text & Hi & Hok & Hr & Hbefore).
        exists i, text. repeat split; [lia | lia | done | done |].
        intros j Hj. destruct (decide (j = attempt)) as [-> | Hne]; [eauto |].
        apply Hbefore. lia.
      * intros i Hi. destruct (decide (i = attempt)) as [-> | Hne]; [eauto |].
        apply IH. lia.
Qed.

(** X23 — retries.  [generate_response] gives nothing exactly when each of
    the [max_retries] calls of the model raises, and it gives a text exactly
    when that text is the trimmed answer of the first call that does not
    raise, among the first [max_retries] calls: the calls after it are not
    made. *)
Theorem generate_response_retries (model : Model) (prompt : str) (max_retries : nat) :
  (generate_response model prompt max_retries = None <->
   forall i, (i < max_retries)%nat -> exists e, model i prompt = Raise e) /\
  (forall response,
     generate_response model prompt max_retries = Some response <->
     exists i text, (i < max_retries)%nat /\ model i prompt = Ok text /\
       response = strip text /\
       forall j, (j < i)%nat -> exists e, model j prompt = Raise e).
Proof.
  unfold generate_response.
  pose proof (generate_response_from_spec model prompt max_retries 0%nat) as H.
  destruct (generate_response_from model prompt 0 max_retries) as [response|].
  - destruct H as (i & text & Hi & Hok & Hr & Hbefore). split.
    + split; [done |]. intros Hall. destruct (Hall i) as [e He]; [lia | congruence].
    + intros response'. split.
      * intros [= <-]. exists i, text. repeat split; [lia | done | done |].
        intros j Hj. apply Hbefore. lia.
      * intros (i' & text' & Hi' & Hok' & Hr' & Hbefore').
        assert (i' = i); [| subst; congruence].
        destruct (Nat.lt_trichotomy i' i) as [Hlt | [Heq | Hgt]]; [| done |].
        -- destruct (Hbefore i') as [e He]; [lia | congruence].
        -- destruct (Hbefore' i) as [e He]; [lia | congruence].
  - split.
    + split; [| done]. intros _ i Hi. apply H. lia.
    + intros response'. split; [done |].
      intros (i & text & Hi & Hok & _). destruct (H i) as [e He]; [lia | congruence].
Qed.

Lemma lstrip_by_last (P : cp -> bool) (l : str) (c : cp) :
  P c = false -> exists l', lstrip_by P (l ++ [c]) = l' ++ [c].
Proof.
  intros Hc. induction l as [|a l IH]; simpl.
  - rewrite Hc. by exists [].
  - destruct (P a); [done |]. by exists (a :: l).
Qed.

Lemma strip_by_head (P : cp -> bool) (c : cp) (rest : str) :
  P c = false -> exists rest', strip_by P (c :: rest) = c :: rest'.
Proof.
  intros Hc. unfold strip_by. cbn [lstrip_by]. rewrite Hc. cbn [rev].
  destruct (lstrip_by_last P (rev rest) c Hc) as [l' ->].
  exists (rev l'). by rewrite rev_app_distr.
Qed.

(** [int()] refuses a text that, white space apart, starts with a brace. *)
Lemma parse_int_brace (s rest : str) :
  strip s = 0x7b :: rest -> parse_int (strip s) = None.
Proof.
  intros ->. unfold parse_int.
  destruct (strip_by_head is_int_space 0x7b rest eq_refl) as [rest' Hr].
  match goal with
  | |- context [strip_by is_int_space ?x] =>
      replace (strip_by is_int_space x) with (0x7b :: rest') by (symmetry; exact Hr)
  end.
  reflexivity.
Qed.

(** X24 — the slot that is selected.  When [parse_slot_selection] answers,
    the answer is between 0 and the number of slots; an answer that is not 0
    is the position, counted from 1, of a slot of the list; and the answer is
    0 for every answer of the model that starts with a brace, as an answer in
    the JSON format does. *)
Theorem parse_slot_selection_in_range {A} (model : Model)
    (slot_selection_prompt : str -> list A -> result str)
    (user_message : str) (available_slots : list A) (selection : Z) :
  parse_slot_selection model slot_selection_prompt user_message available_slots
  = Ok selection ->
  (0 <= selection <= Z.of_nat (length available_slots))%Z /\
  (selection <> 0%Z ->
   exists slot, available_slots !! Z.to_nat (selection - 1) = Some slot) /\
  (forall prompt response rest,
     slot_selection_prompt user_message available_slots = Ok prompt ->
     generate_response model prompt MAX_RETRIES = Some response ->
     strip response = 0x7b :: rest -> selection = 0%Z).
Proof.
  unfold parse_slot_selection. destruct available_slots as [|slot0 slots].
  { intros [= <-]. split; [simpl; lia |]. split; [done | done]. }
  set (available_slots := slot0 :: slots).
  intros (prompt & Hp & H)%bind_Ok.
  assert (Hrange : (0 <= selection <= Z.of_nat (length available_slots))%Z /\
                   (selection <> 0%Z -> (1 <= selection)%Z)).
  { destruct (generate_response model prompt MAX_RETRIES) as [[|c response]|];
      [injection H as <-; lia | | injection H as <-; lia].
    destruct (parse_int (strip (c :: response))) as [n|]; [| injection H as <-; lia].
    destruct ((1 <=? n)%Z && (n <=? Z.of_nat (length available_slots))%Z) eqn:E;
      injection H as <-; [| lia].
    apply andb_true_iff in E as [?%Z.leb_le ?%Z.leb_le]. lia. }
  destruct Hrange as [Hrange Hpos]. split; [done |]. split.
  - intros Hne. specialize (Hpos Hne).
    apply lookup_lt_is_Some_2. lia.
  - intros prompt' response rest Hp' Hg Hs.
    rewrite Hp in Hp'. injection Hp' as <-. rewrite Hg in H.
    rewrite (parse_int_brace _ _ Hs) in H. destruct response; by injection H as <-.
Qed.

Lemma parse_slot_selection_in_range_witness :
  (0 <= 2 <= Z.of_nat (length [lit "a"; lit "b"; lit "c"]))%Z.
Proof.
  apply (parse_slot_selection_in_range (fun _ _ => Ok (lit " 2 ")) (fun _ _ => Ok [])
           [] [lit "a"; lit "b"; lit "c"] 2).
  vm_compute. reflexivity.
Defined.

(** X25 — the follow-up question.  With the question of
    [LLMService.generate_missing_fields_question], which falls back on a
    fixed text when the model gives nothing, the question that
    [get_missing_fields_question] returns is empty exactly when no mandatory
    field is missing. *)
Theorem get_missing_fields_question_empty_iff
    (extract : str -> dict -> str -> dict) (model : Model)
    (missing_fields_prompt : list str -> str -> dict -> str)
    (conversation : ConversationManagerOf BookingEntities) (question : str) :
  get_missing_fields_question (llm_on extract model missing_fields_prompt) conversation
  = Ok question ->
  (question = [] <-> get_missing_fields (entities conversation) = Ok []).
Proof.
  unfold get_missing_fields_question. intros (missing & Hm & H)%bind_Ok. rewrite Hm.
  destruct missing as [|label missing]; [by injection H as <- |].
  apply bind_Ok in H as (cur & _ & [= <-]). split; [| done].
  cbn [generate_missing_fields_question llm_on].
  unfold llm_service.generate_missing_fields_question, or_default.
  by destruct (generate_response _ _ _) as [[|c r]|].
Qed.

Lemma get_missing_fields_question_empty_iff_witness :
  DEFAULT_QUESTION = [] <-> get_missing_fields (entities new_conversation) = Ok [].
Proof.
  apply (get_missing_fields_question_empty_iff (fun _ _ _ => []) model_down
           (fun _ _ _ => []) new_conversation DEFAULT_QUESTION).
  vm_compute. reflexivity.
Defined.

(** ** The calendar service *)

Import calender_service.

(** *** Splitting and replacing *)

Lemma startswith_cons a p c (s : str) :
  startswith (a :: p) (c :: s) = cp_eqb a c && startswith p s.
Proof. unfold startswith. cbn [strip_prefix]. by destruct (cp_eqb a c). Qed.

Lemma startswith_app (p s : str) : startswith p (p ++ s) = true.
Proof.
  induction p as [|a p IH]; [done |]. cbn [app]. rewrite startswith_cons, IH.
  by rewrite (proj2 (cp_eqb_eq _ _) eq_refl).
Qed.

(** A separator whose second character is [b] is not found where no [b]
    follows. *)
Lemma startswith_second a b sep' c (s : str) :
  match s with [] => True | x :: _ => x <> b end ->
  startswith (a :: b :: sep') (c :: s) = false.
Proof.
  intros Hs. rewrite startswith_cons. destruct s as [|x s]; [by rewrite andb_false_r |].
  rewrite startswith_cons. replace (cp_eqb b x) with false; [by rewrite andb_false_r |].
  symmetry. apply not_true_is_false. intros ->%cp_eqb_eq. done.
Qed.

Lemma split_from_no_match a b sep' (part rest : str) : forall cur,
  ~ In b part -> match rest with [] => True | x :: _ => x <> b end ->
  split_from (a :: b :: sep') 0 cur (part ++ rest)
  = split_from (a :: b :: sep') 0 (rev part ++ cur) rest.
Proof.
  induction part as [|c part IH]; intros cur Hb Hrest; [done |].
  cbn [app split_from]. rewrite startswith_second.
  - rewrite IH; [| intros ?; apply Hb; by right | done].
    cbn [rev]. by rewrite <- app_assoc.
  - destruct part as [|x part]; [done |]. cbn [app]. intros ->. apply Hb. right. by left.
Qed.

Lemma split_from_skip sep (passed rest : str) cur :
  split_from sep (length passed) cur (passed ++ rest) = split_from sep 0 cur rest.
Proof. induction passed as [|c passed IH]; [done |]. exact IH. Qed.

Lemma split_from_step sep cur c (s : str) :
  split_from sep 0 cur (c :: s)
  = if startswith sep (c :: s) then rev cur :: split_from sep (length sep - 1) [] s
    else split_from sep 0 (c :: cur) s.
Proof. reflexivity. Qed.

Lemma split_from_match a sep1 cur (rest : str) :
  split_from (a :: sep1) 0 cur ((a :: sep1) ++ rest)
  = rev cur :: split_from (a :: sep1) 0 [] rest.
Proof.
  change ((a :: sep1) ++ rest) with (a :: (sep1 ++ rest)). rewrite split_from_step.
  change (a :: (sep1 ++ rest)) with ((a :: sep1) ++ rest). rewrite startswith_app.
  replace (length (a :: sep1) - 1)%nat with (length sep1) by (cbn [length]; lia).
  by rewrite split_from_skip.
Qed.

Lemma split_two a b sep' (part0 part1 : str) :
  a <> b -> ~ In b part0 -> ~ In b part1 ->
  split (a :: b :: sep') (part0 ++ (a :: b :: sep') ++ part1) = [part0; part1].
Proof.
  intros Hab H0 H1. unfold split.
  rewrite split_from_no_match; [| done | done].
  rewrite split_from_match, app_nil_r, rev_involutive. f_equal.
  rewrite <- (app_nil_r part1) at 1.
  rewrite split_from_no_match; [| done | done].
  cbn [split_from]. by rewrite app_nil_r, rev_involutive.
Qed.

Lemma replace_from_prefix a old' new (part rest : str) :
  ~ In a part ->
  replace_from (a :: old') new 0 (part ++ rest)
  = part ++ replace_from (a :: old') new 0 rest.
Proof.
  induction part as [|c part IH]; intros Ha; [done |].
  cbn [app replace_from]. rewrite startswith_cons.
  replace (cp_eqb a c) with false.
  - cbn [andb]. rewrite IH; [done |]. intros ?. apply Ha. by right.
  - symmetry. apply not_true_is_false. intros ->%cp_eqb_eq. apply Ha. by left.
Qed.

Lemma replace_from_skip old new (passed rest : str) :
  replace_from old new (length passed) (passed ++ rest) = replace_from old new 0 rest.
Proof. induction passed as [|c passed IH]; [done |]. exact IH. Qed.

Lemma replace_from_step old new c (s : str) :
  replace_from old new 0 (c :: s)
  = if startswith old (c :: s) then new ++ replace_from old new (length old - 1) s
    else c :: replace_from old new 0 s.
Proof. reflexivity. Qed.

Lemma replace_match a old' new (rest : str) :
  replace (a :: old') new ((a :: old') ++ rest) = new ++ replace (a :: old') new rest.
Proof.
  unfold replace.
  change ((a :: old') ++ rest) with (a :: (old' ++ rest)). rewrite replace_from_step.
  change (a :: (old' ++ rest)) with ((a :: old') ++ rest). rewrite startswith_app.
  replace (length (a :: old') - 1)%nat with (length old') by (cbn [length]; lia).
  by rewrite replace_from_skip.
Qed.

Lemma replace_absent a old' new (s : str) :
  ~ In a s -> replace (a :: old') new s = s.
Proof.
  intros Ha. unfold replace. rewrite <- (app_nil_r s) at 1.
  rewrite replace_from_prefix by done. cbn [replace_from]. by rewrite app_nil_r.
Qed.

Lemma replace_single a new (s : str) :
  replace [a] new s = flat_map (fun c => if cp_eqb a c then new else [c]) s.
Proof.
  unfold replace. induction s as [|c s IH]; [done |].
  cbn [replace_from flat_map]. rewrite startswith_cons.
  change (startswith [] s) with true. rewrite andb_true_r. cbn [length Nat.sub].
  destruct (cp_eqb a c); by rewrite IH.
Qed.

(** *** Text without white space around it *)

Lemma lstrip_by_cases (P : cp -> bool) (s : str) :
  lstrip_by P s = s \/ (length (lstrip_by P s) < length s)%nat.
Proof.
  induction s as [|c s IH]; [by left |]. cbn [lstrip_by].
  destruct (P c); [| by left]. right. cbn [length]. destruct IH as [-> | IH]; lia.
Qed.

Lemma strip_by_fixed (P : cp -> bool) (s : str) :
  strip_by P s = s -> lstrip_by P s = s /\ lstrip_by P (rev s) = rev s.
Proof.
  unfold strip_by. intros H.
  assert (Hl : lstrip_by P s = s).
  { destruct (lstrip_by_cases P s) as [|Hlt]; [done |]. exfalso.
    apply (f_equal length) in H. rewrite length_rev in H.
    destruct (lstrip_by_cases P (rev (lstrip_by P s))) as [Heq | Hlt'].
    - rewrite Heq, length_rev in H. lia.
    - rewrite length_rev in Hlt'. lia. }
  split; [done |]. rewrite Hl in H.
  apply (f_equal (@rev cp)) in H. by rewrite rev_involutive in H.
Qed.

(** A trimmed, non-empty text followed by text that does not end in white
    space is trimmed. *)
Lemma strip_app (s tail : str) d t :
  s <> [] -> strip s = s -> rev tail = d :: t -> is_space d = false ->
  strip (s ++ tail) = s ++ tail.
Proof.
  intros Hne Hs Ht Hd. apply strip_by_fixed in Hs as [Hl Hr].
  destruct s as [|c s]; [done |].
  pose proof (lstrip_by_head _ _ _ _ Hl) as Hc.
  unfold strip, strip_by. cbn [app lstrip_by]. rewrite Hc.
  change (c :: s ++ tail) with ((c :: s) ++ tail). rewrite rev_app_distr, Ht.
  cbn [app lstrip_by]. rewrite Hd.
  change (d :: t ++ rev (c :: s)) with ((d :: t) ++ rev (c :: s)).
  by rewrite <- Ht, <- rev_app_distr, rev_involutive.
Qed.

Lemma lstrip_by_suffix (P : cp -> bool) (s : str) :
  exists pre, s = pre ++ lstrip_by P s.
Proof.
  induction s as [|c s [pre IH]]; [by exists [] |]. cbn [lstrip_by].
  destruct (P c); [| by exists []]. exists (c :: pre). cbn [app]. by rewrite <- IH.
Qed.

Lemma lstrip_by_idem (P : cp -> bool) (s : str) :
  lstrip_by P (lstrip_by P s) = lstrip_by P s.
Proof.
  destruct (lstrip_by P s) as [|c t] eqn:E; [done |].
  apply lstrip_by_head in E. cbn [lstrip_by]. by rewrite E.
Qed.

Lemma strip_by_idem (P : cp -> bool) (s : str) :
  strip_by P (strip_by P s) = strip_by P s.
Proof.
  unfold strip_by. set (M := lstrip_by P s). set (L := lstrip_by P (rev M)).
  assert (HL : lstrip_by P L = L) by apply lstrip_by_idem.
  assert (Hhead : lstrip_by P (rev L) = rev L).
  { destruct (lstrip_by_suffix P (rev M)) as [pre Hpre]. fold L in Hpre.
    apply (f_equal (@rev cp)) in Hpre. rewrite rev_involutive, rev_app_distr in Hpre.
    destruct (rev L) as [|c t] eqn:E; [done |].
    cbn [app] in Hpre. subst M. apply lstrip_by_head in Hpre.
    cbn [lstrip_by]. by rewrite Hpre. }
  rewrite Hhead, rev_involutive. by rewrite HL.
Qed.

Lemma strip_idem (s : str) : strip (strip s) = strip s.
Proof. apply strip_by_idem. Qed.

Lemma strip_app_space (s : str) : s <> [] -> strip s = s -> strip (s ++ [0x20]) = s.
Proof.
  intros Hne Hs. apply strip_by_fixed in Hs as [Hl Hr].
  destruct s as [|c s]; [done |].
  pose proof (lstrip_by_head _ _ _ _ Hl) as Hc.
  unfold strip, strip_by. cbn [app lstrip_by]. rewrite Hc.
  change (c :: s ++ [32]) with ((c :: s) ++ [32]). rewrite rev_app_distr.
  cbn [rev app lstrip_by]. change (is_space 32) with true. cbn iota.
  cbn [rev] in Hr. rewrite Hr. by rewrite rev_app_distr, rev_involutive.
Qed.

Lemma lower_app (s t : str) : lower (s ++ t) = lower s ++ lower t.
Proof. unfold lower. apply flat_map_app. Qed.

Lemma contains_app_r (needle s t : str) :
  contains needle t = true -> contains needle (s ++ t) = true.
Proof.
  intros Ht. induction s as [|c s IH]; [done |]. cbn [app contains].
  rewrite IH. apply orb_true_r.
Qed.

Lemma contains_here (needle t : str) : contains needle (needle ++ t) = true.
Proof.
  destruct (needle ++ t) eqn:E; cbn [contains]; rewrite <- E, startswith_app; done.
Qed.

(** X26 — the documented title of an availability event.  For a title
    [<name> Available - <specialty>], where the name is ASCII text (on which
    [lower] is exact) and not empty, the name and the specialty are written
    without white space around them and without a dash, and the name has no
    capital A, the event is parsed into that name, that specialty, and the
    identifier made of the name in lower case with an underscore for every
    space and the dots left out ([dr_wang] for [Dr. Wang]). *)
Theorem parse_doctor_info_documented_format (name specialty_text : str) :
  forallb is_ascii name = true ->
  name <> [] -> strip name = name -> ~ In 0x41 name -> ~ In 0x2d name ->
  strip specialty_text = specialty_text -> ~ In 0x2d specialty_text ->
  parse_doctor_info_from_event
    [(K_summary, VStr (name ++ TITLE_MIDDLE ++ specialty_text))]
  = Ok (Some (mkDoctorInfo (replace DOT [] (replace SPACE UNDERSCORE (lower name)))
                name specialty_text)).
Proof.
  intros _ Hne Hname HA Hdash Hspec Hdash'.
  unfold parse_doctor_info_from_event. cbn [dict_get_or]. rewrite str_eqb_refl.
  assert (Hfound : contains AVAILABLE_LOWER (lower (name ++ TITLE_MIDDLE ++ specialty_text))
                   = true).
  { rewrite !lower_app. apply contains_app_r.
    change (lower TITLE_MIDDLE) with ([0x20] ++ AVAILABLE_LOWER ++ SEPARATOR).
    rewrite <- !app_assoc. apply (contains_app_r _ [0x20]). apply contains_here. }
  rewrite Hfound. cbn [negb].
  assert (Hparts : split SEPARATOR (name ++ TITLE_MIDDLE ++ specialty_text)
                   = [name ++ [0x20] ++ AVAILABLE_TITLE; specialty_text]).
  { change TITLE_MIDDLE with (([0x20] ++ AVAILABLE_TITLE) ++ SEPARATOR).
    rewrite <- app_assoc, (app_assoc name). unfold SEPARATOR.
    apply split_two; [done | | done].
    intros [H | H]%in_app_or; [done |]. vm_compute in H. intuition discriminate. }
  rewrite Hparts.
  assert (Hpart : strip (name ++ [0x20] ++ AVAILABLE_TITLE)
                  = name ++ [0x20] ++ AVAILABLE_TITLE).
  { eapply strip_app; [done | done | vm_compute; reflexivity | reflexivity]. }
  rewrite Hpart, Hspec.
  assert (Hrep : replace AVAILABLE_UPPER []
                   (replace AVAILABLE_TITLE [] (name ++ [0x20] ++ AVAILABLE_TITLE))
                 = name ++ [0x20]).
  { assert (HA' : ~ In 0x41 (name ++ [0x20])).
    { intros [H | [H | []]]%in_app_or; [done | discriminate]. }
    assert (Hfirst : replace AVAILABLE_TITLE [] ((name ++ [0x20]) ++ AVAILABLE_TITLE)
                     = name ++ [0x20]).
    { unfold replace, AVAILABLE_TITLE at 1. rewrite replace_from_prefix by done.
      pose proof (replace_match 0x41 (tail AVAILABLE_TITLE) [] []) as Hm.
      unfold replace in Hm. rewrite app_nil_r in Hm. cbn [app replace_from] in Hm.
      change (0x41 :: tail AVAILABLE_TITLE) with AVAILABLE_TITLE in Hm.
      unfold AVAILABLE_TITLE in Hm at 1.
      etransitivity; [apply f_equal; exact Hm |]. by rewrite app_nil_r. }
    rewrite <- app_assoc in Hfirst.
    etransitivity; [apply (f_equal (replace AVAILABLE_UPPER [])); exact Hfirst |].
    unfold AVAILABLE_UPPER. by apply replace_absent. }
  rewrite Hrep.
  by rewrite (strip_app_space name Hne Hname).
Qed.

Lemma parse_doctor_info_documented_format_witness :
  parse_doctor_info_from_event
    [(K_summary, VStr (lit "Dr. Wang" ++ TITLE_MIDDLE ++ lit "Internal Medicine"))]
  = Ok (Some (mkDoctorInfo
                (replace DOT [] (replace SPACE UNDERSCORE (lower (lit "Dr. Wang"))))
                (lit "Dr. Wang") (lit "Internal Medicine"))).
Proof.
  apply parse_doctor_info_documented_format;
    first [ vm_compute; reflexivity
          | discriminate
          | intros H; vm_compute in H;
            repeat (destruct H as [H | H]; [discriminate |]); exact H ].
Defined.

(** X27 — whatever the event, an identifier that
    [parse_doctor_info_from_event] returns holds no space and no dot, and the
    name and the specialty it returns have no white space around them. *)
Theorem doctor_id_without_space_or_dot (event : dict) (info : doctor_info) :
  parse_doctor_info_from_event event = Ok (Some info) ->
  ~ In 0x20 (doctor_id info) /\ ~ In 0x2e (doctor_id info) /\
  strip (doctor_name info) = doctor_name info /\
  strip (specialty info) = specialty info.
Proof.
  unfold parse_doctor_info_from_event.
  destruct (dict_get_or K_summary (VStr []) event) as [| | |summary| |]; try done.
  destruct (negb _); [done |].
  destruct (split SEPARATOR summary) as [|part0 [|part1 parts]]; try done.
  intros [= <-]. cbn [doctor_id doctor_name specialty].
  unfold DOT, SPACE. rewrite !replace_single.
  repeat split.
  - intros (c & Hc & Hin)%in_flat_map.
    destruct (cp_eqb 46 c) eqn:E; [done |]. destruct Hin as [-> | []].
    apply in_flat_map in Hc as (c' & _ & Hin).
    destruct (cp_eqb 32 c') eqn:E'; [by destruct Hin as [? | []] |].
    destruct Hin as [-> | []]. by rewrite (proj2 (cp_eqb_eq _ _) eq_refl) in E'.
  - intros (c & Hc & Hin)%in_flat_map.
    destruct (cp_eqb 46 c) eqn:E; [done |]. destruct Hin as [-> | []].
    by rewrite (proj2 (cp_eqb_eq _ _) eq_refl) in E.
  - apply strip_idem.
  - apply strip_idem.
Qed.

Lemma doctor_id_without_space_or_dot_witness :
  ~ In 0x20 (lit "dr_wang") /\ ~ In 0x2e (lit "dr_wang") /\
  strip (lit "Dr. Wang") = lit "Dr. Wang" /\
  strip (lit "Internal Medicine") = lit "Internal Medicine".
Proof.
  apply (doctor_id_without_space_or_dot
           [(K_summary, VStr (lit "Dr. Wang Available - Internal Medicine"))]
           (mkDoctorInfo (lit "dr_wang") (lit "Dr. Wang") (lit "Internal Medicine"))).
  vm_compute. reflexivity.
Defined.

Lemma start_hour (h1 h2 : cp) (rest : str) :
  is_ascii_digit h1 = true -> is_ascii_digit h2 = true ->
  parse_int (hd [] (split COLON (h1 :: h2 :: 0x3a :: rest)))
  = Some (10 * Z.of_N (h1 - 0x30) + Z.of_N (h2 - 0x30))%Z.
Proof.
  intros H1%ascii_digit_cases H2%ascii_digit_cases. simpl in H1, H2.
  repeat (destruct H1 as [<- | H1];
          [repeat (destruct H2 as [<- | H2]; [vm_compute; reflexivity |]); done |]).
  done.
Qed.

(** X28 — the time windows.  For a slot whose start time is written with two
    digits and a colon, [_matches_time_preference] answers for 上午 whether
    the hour is from 9 to 11, for 下午 whether it is from 12 to 17, for 晚上
    whether it is from 18 to 20, and yes for any other preference; so a slot
    that starts before 9 or from 21 on matches none of the three. *)
Theorem matches_time_preference_windows (slot : DoctorSlot) (h1 h2 : cp) (rest : str)
    (hour : Z) :
  is_ascii_digit h1 = true -> is_ascii_digit h2 = true ->
  slot_start_time slot = h1 :: h2 :: 0x3a :: rest ->
  hour = (10 * Z.of_N (h1 - 0x30) + Z.of_N (h2 - 0x30))%Z ->
  matches_time_preference slot (Some MORNING) = Ok ((9 <=? hour)%Z && (hour <? 12)%Z) /\
  matches_time_preference slot (Some AFTERNOON) = Ok ((12 <=? hour)%Z && (hour <? 18)%Z) /\
  matches_time_preference slot (Some EVENING) = Ok ((18 <=? hour)%Z && (hour <? 21)%Z) /\
  (forall other, other <> MORNING -> other <> AFTERNOON -> other <> EVENING ->
     matches_time_preference slot (Some other) = Ok true) /\
  ((hour < 9 \/ 21 <= hour)%Z ->
   forall label, In label [MORNING; AFTERNOON; EVENING] ->
     matches_time_preference slot (Some label) = Ok false).
Proof.
  intros H1 H2 Hstart Hhour. pose proof (start_hour h1 h2 rest H1 H2) as Hparse.
  rewrite <- Hstart, <- Hhour in Hparse.
  assert (HM : matches_time_preference slot (Some MORNING)
               = Ok ((9 <=? hour)%Z && (hour <? 12)%Z)).
  { unfold matches_time_preference, MORNING. by rewrite Hparse. }
  assert (HA : matches_time_preference slot (Some AFTERNOON)
               = Ok ((12 <=? hour)%Z && (hour <? 18)%Z)).
  { unfold matches_time_preference, AFTERNOON. by rewrite Hparse. }
  assert (HE : matches_time_preference slot (Some EVENING)
               = Ok ((18 <=? hour)%Z && (hour <? 21)%Z)).
  { unfold matches_time_preference, EVENING. by rewrite Hparse. }
  split; [done |]. split; [done |]. split; [done |]. split.
  - intros other HnM HnA HnE. unfold matches_time_preference.
    destruct other as [|c other]; [done |]. rewrite Hparse.
    apply str_eqb_neq in HnM, HnA, HnE. by rewrite HnM, HnA, HnE.
  - intros Hout label [<- | [<- | [<- | []]]]; [rewrite HM | rewrite HA | rewrite HE];
      f_equal; apply andb_false_iff; rewrite Z.leb_gt, Z.ltb_ge; lia.
Qed.

Lemma matches_time_preference_windows_witness :
  matches_time_preference slot_example (Some MORNING) = Ok ((9 <=? 9)%Z && (9 <? 12)%Z).
Proof.
  exact (proj1 (matches_time_preference_windows slot_example 0x30 0x39 (lit "00") 9
                  eq_refl eq_refl eq_refl eq_refl)).
Defined.

Lemma matches_target_date_not_given today slot_date target_date :
  given target_date = false -> matches_target_date today slot_date target_date = Ok true.
Proof. by destruct target_date as [[|c t]|]. Qed.

Lemma matches_time_preference_not_given slot time_preference :
  given time_preference = false -> matches_time_preference slot time_preference = Ok true.
Proof. by destruct time_preference as [[|c t]|]. Qed.

Lemma get_available_slots_loop today target_date time_preference all_slots :
  forall filtered_slots result,
    for_each
      (fun filtered_slots slot =>
         date_ok <-
           (if given target_date
            then matches_target_date today (slot_date slot) target_date
            else Ok true) ;;
         if negb date_ok then Ok filtered_slots
         else
           time_ok <-
             (if given time_preference then matches_time_preference slot time_preference
              else Ok true) ;;
           if negb time_ok then Ok filtered_slots
           else Ok (filtered_slots ++ [slot]))
      filtered_slots all_slots = Ok result ->
    result
    = filtered_slots
      ++ List.filter
           (fun slot =>
              is_yes (matches_target_date today (slot_date slot) target_date)
              && is_yes (matches_time_preference slot time_preference))
           all_slots.
Proof.
  induction all_slots as [|slot all_slots IH]; intros filtered_slots result.
  - intros [= <-]. by rewrite app_nil_r.
  - cbn [for_each List.filter].
    intros (filtered' & Hstep & Hrest)%bind_Ok. apply IH in Hrest as ->.
    assert (Hd : exists date_ok,
              matches_target_date today (slot_date slot) target_date = Ok date_ok /\
              (if negb date_ok then Ok filtered_slots
               else
                 time_ok <-
                   (if given time_preference
                    then matches_time_preference slot time_preference else Ok true) ;;
                 if negb time_ok then Ok filtered_slots
                 else Ok (filtered_slots ++ [slot])) = Ok filtered').
    { apply bind_Ok in Hstep as (date_ok & Hd & Hstep). exists date_ok. split; [| done].
      destruct (given target_date) eqn:Hg; [done |].
      injection Hd as <-. by apply matches_target_date_not_given. }
    destruct Hd as (date_ok & -> & Hstep'). destruct date_ok; cbn [negb is_yes andb] in *.
    + apply bind_Ok in Hstep' as (time_ok & Ht & Hstep').
      assert (Ht' : matches_time_preference slot time_preference = Ok time_ok).
      { destruct (given time_preference) eqn:Hg; [done |].
        injection Ht as <-. by apply matches_time_preference_not_given. }
      rewrite Ht'. destruct time_ok; cbn [negb is_yes] in *; injection Hstep' as <-.
      * by rewrite <- app_assoc.
      * done.
    + by injection Hstep' as <-.
Qed.

(** X29 — the slots that are offered.  When [get_available_slots] answers,
    the slots it returns are exactly those of the converted slots that match
    the date and the time preference, in the same order; with no date and no
    time preference they are all the converted slots. *)
Theorem get_available_slots_filters today (all_slots : list DoctorSlot)
    (target_date time_preference : option str) (filtered_slots : list DoctorSlot) :
  get_available_slots today all_slots target_date time_preference = Ok filtered_slots ->
  filtered_slots
  = List.filter
      (fun slot =>
         is_yes (matches_target_date today (slot_date slot) target_date)
         && is_yes (matches_time_preference slot time_preference))
      all_slots /\
  sublist filtered_slots all_slots /\
  (given target_date = false -> given time_preference = false ->
   filtered_slots = all_slots).
Proof.
  unfold get_available_slots. intros H%get_available_slots_loop. cbn [app] in H.
  split; [done |]. split.
  - rewrite H. clear H. induction all_slots as [|slot all_slots IH]; [done |].
    cbn [List.filter]. destruct (_ && _); by constructor.
  - intros Hd Ht. rewrite H. clear H.
    induction all_slots as [|slot all_slots IH]; [done |]. cbn [List.filter].
    rewrite (matches_target_date_not_given _ _ _ Hd),
      (matches_time_preference_not_given _ _ Ht).
    cbn [is_yes andb]. by rewrite IH.
Qed.

Lemma get_available_slots_filters_witness :
  [slot_example]
  = List.filter
      (fun slot =>
         is_yes (matches_target_date today_example (slot_date slot) (Some TOMORROW_1))
         && is_yes (matches_time_preference slot (Some MORNING)))
      [slot_example; slot_example_evening].
Proof.
  apply (get_available_slots_filters today_example [slot_example; slot_example_evening]
           (Some TOMORROW_1) (Some MORNING) [slot_example]).
  vm_compute. reflexivity.
Defined.
